(** * IOTA DeFi protocol: the AMM pool engine and the oracle aggregator

    A shallow embedding of the two Move modules that carry the protocol's
    arithmetic, [iota_defi_protocol::defi_protocol] (liquidity pools, swaps,
    flash loans) and [iota_defi_protocol::oracle_aggregator] (price rounds,
    circuit breaker, TWAP), together with the properties the specification
    states about them.

    Conventions of the embedding.
    - A Move [u64]/[u128] is a [Z]; every arithmetic operation is checked the
      way the Move VM checks it: overflow, underflow, division by zero and a
      narrowing cast that does not fit abort the transaction.
    - An aborting transaction leaves no trace, so a function is a map from
      the state before to [result] of the state after.
    - [Table<K,V>] is a [gmap]; [VecMap<K,V>] is an insertion-ordered
      association list whose [insert] aborts on a key already present.
    - [Coin<T>] and [Balance<T>] are their values.  Currency creation,
      minting of LP coins and transfers to the sender do not touch the pool
      or the aggregator and are left out, except where they can abort.
    - A byte vector and a [String] are both a [string], read as its bytes.
      [reset_circuit_breaker] and [batch_update_oracles] take the bytes and
      carry the conversion [string::utf8], which aborts on bytes that are
      not valid UTF-8; in the other functions a name is the [String]
      already converted. *)

From Stdlib Require Import ZArith List Bool Lia.
From stdpp Require Import base option list gmap strings fin_maps.

Local Open Scope Z_scope.

(** An [address] is a number. *)
Abbreviation address := N (only parsing).

(** ** Aborts and the result monad *)

Inductive abort : Type :=
| AssertionFailed (code : Z)   (* assert!(cond, code) with a false cond *)
| ArithmeticError              (* overflow, underflow, division by zero, cast *)
| VecMapKeyExists              (* vec_map::insert on a key already present *)
| VectorOutOfBounds            (* vector::borrow past the end *)
| TableKeyMissing              (* table::borrow on an absent key *)
| TableKeyExists               (* table::add on a present key *)
| BalanceNotEnough             (* balance::split / coin::split above the value *)
| SupplyOverflow               (* coin::mint past the u64 supply *)
| InvalidUTF8                  (* string::utf8 on bytes that are not UTF-8 *)
| BadWitness                   (* coin::create_currency without a one-time witness *)
| OutOfFuel.                   (* a loop of the model ran out of fuel *)

Inductive result (A : Type) : Type :=
| Ok (a : A)
| Abort (e : abort).
Arguments Ok {A} a.
Arguments Abort {A} e.

Definition bind {A B : Type} (m : result A) (k : A -> result B) : result B :=
  match m with
  | Ok a => k a
  | Abort e => Abort e
  end.

Notation "'do' x <- m ; k" := (bind m (fun x => k))
  (at level 10, x name, m at level 100, k at level 200,
   format "'[v' 'do'  x  <-  m ; '/' k ']'").
Notation "'do' ' p <- m ; k" := (bind m (fun x => let 'p := x in k))
  (at level 10, p pattern, m at level 100, k at level 200,
   format "'[v' 'do'  ' p  <-  m ; '/' k ']'").

Definition assert (b : bool) (code : Z) : result unit :=
  if b then Ok tt else Abort (AssertionFailed code).

Definition succeeds {A : Type} (r : result A) : Prop := exists a, r = Ok a.
Definition aborts {A : Type} (r : result A) : Prop := exists e, r = Abort e.

(** ** Checked machine arithmetic *)

Definition u64_max : Z := 18446744073709551615.
Definition u128_max : Z := 340282366920938463463374607431768211455.

Definition in_u64 (v : Z) : Prop := 0 <= v <= u64_max.
Definition in_u128 (v : Z) : Prop := 0 <= v <= u128_max.

Definition checked (max v : Z) : result Z :=
  if (0 <=? v) && (v <=? max) then Ok v else Abort ArithmeticError.

Definition add64 (a b : Z) : result Z := checked u64_max (a + b).
Definition sub64 (a b : Z) : result Z := checked u64_max (a - b).
Definition mul64 (a b : Z) : result Z := checked u64_max (a * b).
Definition div64 (a b : Z) : result Z :=
  if b =? 0 then Abort ArithmeticError else Ok (a / b).

Definition add128 (a b : Z) : result Z := checked u128_max (a + b).
Definition mul128 (a b : Z) : result Z := checked u128_max (a * b).
Definition div128 (a b : Z) : result Z :=
  if b =? 0 then Abort ArithmeticError else Ok (a / b).

(** [(v as u64)] for a [u128] value [v]. *)
Definition cast_u64 (v : Z) : result Z := checked u64_max v.

(** ** Framework functions that abort *)

Definition byte_between (lo hi : N) (b : Ascii.ascii) : bool :=
  ((lo <=? Ascii.N_of_ascii b) && (Ascii.N_of_ascii b <=? hi))%N.

Definition continuation_byte (b : Ascii.ascii) : bool := byte_between 128 191 b.

(** The check behind [std::string::utf8]: well-formed UTF-8, that is no
    overlong form, no surrogate and no code point above U+10FFFF. *)
Fixpoint internal_check_utf8 (bytes : string) : bool :=
  match bytes with
  | String.EmptyString => true
  | String.String b0 rest =>
      if byte_between 0 127 b0 then internal_check_utf8 rest
      else if byte_between 194 223 b0 then
        match rest with
        | String.String b1 rest1 => continuation_byte b1 && internal_check_utf8 rest1
        | String.EmptyString => false
        end
      else if byte_between 224 239 b0 then
        match rest with
        | String.String b1 (String.String b2 rest2) =>
            (if byte_between 224 224 b0 then byte_between 160 191 b1
             else if byte_between 237 237 b0 then byte_between 128 159 b1
             else continuation_byte b1)
            && continuation_byte b2 && internal_check_utf8 rest2
        | _ => false
        end
      else if byte_between 240 244 b0 then
        match rest with
        | String.String b1 (String.String b2 (String.String b3 rest3)) =>
            (if byte_between 240 240 b0 then byte_between 144 191 b1
             else if byte_between 244 244 b0 then byte_between 128 143 b1
             else continuation_byte b1)
            && continuation_byte b2 && continuation_byte b3
            && internal_check_utf8 rest3
        | _ => false
        end
      else false
  end.

(** [std::string::utf8(bytes)]: the bytes as a [String], or an abort. *)
Definition string_utf8 (bytes : string) : result string :=
  if internal_check_utf8 bytes then Ok bytes else Abort InvalidUTF8.

(** [coin::create_currency<T>(witness, ...)] starts with
    [assert!(is_one_time_witness(&witness), EBadWitness)].  The one-time
    witness of a module is the struct named after the module in upper
    case, without type parameters, that is passed to the module's [init];
    [one_time] says whether the witness given is one. *)
Definition coin_create_currency (one_time : bool) : result unit :=
  if one_time then Ok tt else Abort BadWitness.

(** ** Module [defi_protocol] *)

Module Defi.

(** Error codes of the module. *)
Definition EInsufficientBalance : Z := 1001.
Definition EInsufficientLiquidity : Z := 1002.
Definition ESlippageTooHigh : Z := 1003.
Definition ENotAuthorized : Z := 1005.

(** *** Integer square root

    [while (guess * guess > x) guess = (guess + x / guess) / 2].  Every
    product, sum and quotient is a checked [u128] operation.  The loop is
    run on a fuel of [sqrt_fuel] rounds; [sqrt_u128_fuel] below shows that
    the fuel never runs out. *)
Fixpoint sqrt_loop (fuel : nat) (x guess : Z) : result Z :=
  match fuel with
  | O => Abort OutOfFuel
  | S fuel' =>
      do sq <- mul128 guess guess;
      if sq >? x then
        do q <- div128 x guess;
        do s <- add128 guess q;
        do guess' <- div128 s 2;
        sqrt_loop fuel' x guess'
      else Ok guess
  end.

Definition sqrt_fuel : nat := 130.

Definition sqrt_u128 (x : Z) : result Z :=
  if x =? 0 then Ok 0
  else
    do guess <- div128 x 2;
    let guess := if guess =? 0 then 1 else guess in
    sqrt_loop sqrt_fuel x guess.


(** *** Balances and coins (framework [iota::balance], [iota::coin]) *)

(** [balance::join]: the sum is a checked [u64] addition. *)
Definition balance_join (self value : Z) : result Z := add64 self value.

(** [balance::split] and [coin::split]: what stays and what is taken. *)
Definition balance_split (self value : Z) : result (Z * Z) :=
  if value <=? self then Ok (self - value, value) else Abort BalanceNotEnough.

(** [coin::mint] on a treasury whose supply is [supply]. *)
Definition coin_mint (supply value : Z) : result Z :=
  if value <? u64_max - supply then Ok (supply + value) else Abort SupplyOverflow.

(** *** State *)

Record LiquidityPool : Type := mkPool {
  token_a_reserve : Z;
  token_b_reserve : Z;
  lp_token_supply : Z;
  swap_fee_rate : Z;
  last_price : Z;
  price_cumulative_last : Z;
  block_timestamp_last : Z;
  k_constant : Z;
  amplification_coefficient : Z;
  is_stable_pool : bool
}.

Record UserProfile : Type := mkProfile {
  owner : address;
  total_liquidity_provided : Z;
  total_volume_traded : Z;
  governance_power : Z;
  yield_farming_score : Z;
  last_activity : Z;
  tier_level : Z;
  fee_discount : Z
}.

(** The part of [ProtocolState] the pool functions read or write; the
    user profiles are the dynamic fields hung on the protocol object. *)
Record ProtocolState : Type := mkProtocol {
  version : Z;
  admin : address;
  total_value_locked : Z;
  trading_fee_rate : Z;
  governance_threshold : Z;
  is_paused : bool;
  profiles : gmap N UserProfile
}.

Record FlashLoan : Type := mkFlashLoan {
  amount : Z;
  fee : Z
}.

Record TokenSwapped : Type := mkTokenSwapped {
  ev_trader : address;
  ev_amount_in : Z;
  ev_amount_out : Z;
  ev_fee_amount : Z;
  ev_price_impact : Z
}.

Record LiquidityAdded : Type := mkLiquidityAdded {
  ev_provider : address;
  ev_token_a_amount : Z;
  ev_token_b_amount : Z;
  ev_lp_tokens_minted : Z
}.

Definition set_reserves (pool : LiquidityPool) (a b : Z) : LiquidityPool :=
  mkPool a b (lp_token_supply pool) (swap_fee_rate pool) (last_price pool)
    (price_cumulative_last pool) (block_timestamp_last pool) (k_constant pool)
    (amplification_coefficient pool) (is_stable_pool pool).

Definition set_last_price (pool : LiquidityPool) (p : Z) : LiquidityPool :=
  mkPool (token_a_reserve pool) (token_b_reserve pool) (lp_token_supply pool)
    (swap_fee_rate pool) p (price_cumulative_last pool)
    (block_timestamp_last pool) (k_constant pool)
    (amplification_coefficient pool) (is_stable_pool pool).

Definition set_supply_k (pool : LiquidityPool) (lp k : Z) : LiquidityPool :=
  mkPool (token_a_reserve pool) (token_b_reserve pool) lp
    (swap_fee_rate pool) (last_price pool) (price_cumulative_last pool)
    (block_timestamp_last pool) k
    (amplification_coefficient pool) (is_stable_pool pool).

Definition set_tvl_profiles (protocol : ProtocolState) (tvl : Z)
    (ps : gmap N UserProfile) : ProtocolState :=
  mkProtocol (version protocol) (admin protocol) tvl (trading_fee_rate protocol)
    (governance_threshold protocol) (is_paused protocol) ps.

(** The product of the two reserves (the quantity the AMM keeps from
    falling). *)
Definition reserve_product (pool : LiquidityPool) : Z :=
  token_a_reserve pool * token_b_reserve pool.

(** *** Pricing *)

Definition calculate_constant_product_output
    (amount_in reserve_in reserve_out fee_rate : Z) : result Z :=
  do keep <- sub64 10000 fee_rate;
  do amount_in_with_fee <- mul64 amount_in keep;
  do numerator <- mul64 amount_in_with_fee reserve_out;
  do scaled <- mul64 reserve_in 10000;
  do denominator <- add64 scaled amount_in_with_fee;
  div64 numerator denominator.

Definition calculate_stable_swap_output
    (amount_in reserve_in reserve_out amplification : Z) : result Z :=
  do scaled <- mul64 amount_in 9970;
  do fee_adjusted_input <- div64 scaled 10000;
  do numerator <- mul64 fee_adjusted_input reserve_out;
  do denominator <- add64 reserve_in fee_adjusted_input;
  div64 numerator denominator.

(** *** Pool creation *)

(** [LPToken<T, U>], the witness [create_liquidity_pool] gives to
    [coin::create_currency], has type parameters and is not named after
    the module ([DEFI_PROTOCOL] is, and [init] receives it): it is not a
    one-time witness. *)
Definition LPToken_is_one_time_witness : bool := false.

(** Returns the pool and the LP coin minted to the sender.  The pool is
    built first, then the LP currency is created and the LP coin minted
    from its fresh treasury. *)
Definition create_liquidity_pool (protocol : ProtocolState)
    (initial_a initial_b : Z) (is_stable : bool) (amplification : Z)
    (sender : address) : result (LiquidityPool * Z) :=
  do _ <- assert (negb (is_paused protocol)) ENotAuthorized;
  do _ <- assert (N.eqb sender (admin protocol)) ENotAuthorized;
  let amount_a := initial_a in
  let amount_b := initial_b in
  do _ <- assert ((amount_a >? 0) && (amount_b >? 0)) EInsufficientLiquidity;
  do k <- mul128 amount_a amount_b;
  do root <- sqrt_u128 k;
  do lp <- cast_u64 root;
  do scaled <- mul64 amount_b 1000000;
  do price <- div64 scaled amount_a;
  do k64 <- cast_u64 k;
  let pool := mkPool amount_a amount_b lp (trading_fee_rate protocol) price
                0 0 k64 amplification is_stable in
  do _ <- coin_create_currency LPToken_is_one_time_witness;
  do _ <- coin_mint 0 (lp_token_supply pool);
  Ok (pool, lp).

(** *** Adding liquidity *)

Record AddLiquidityOutcome : Type := mkAdded {
  added_pool : LiquidityPool;
  added_protocol : ProtocolState;
  added_lp_supply : Z;        (* total supply of the LP treasury afterwards *)
  added_refund_a : Z;
  added_refund_b : Z;
  added_lp_tokens : Z;
  added_event : LiquidityAdded
}.

Definition add_liquidity (pool : LiquidityPool) (protocol : ProtocolState)
    (lp_treasury : Z) (token_a token_b min_lp_tokens : Z) (sender : address)
    : result AddLiquidityOutcome :=
  do _ <- assert (negb (is_paused protocol)) ENotAuthorized;
  let amount_a := token_a in
  let amount_b := token_b in
  let reserve_a := token_a_reserve pool in
  let reserve_b := token_b_reserve pool in
  do '(optimal_a, optimal_b, lp_tokens_to_mint) <-
    (if (reserve_a =? 0) || (reserve_b =? 0) then
       do k <- mul128 amount_a amount_b;
       do root <- sqrt_u128 k;
       do lp_tokens <- cast_u64 root;
       Ok (amount_a, amount_b, lp_tokens)
     else
       do xb <- mul64 amount_a reserve_b;
       do amount_b_optimal <- div64 xb reserve_a;
       do xa <- mul64 amount_b reserve_a;
       do amount_a_optimal <- div64 xa reserve_b;
       if amount_b_optimal <=? amount_b then
         do y <- mul64 amount_a (lp_token_supply pool);
         do lp_tokens <- div64 y reserve_a;
         Ok (amount_a, amount_b_optimal, lp_tokens)
       else
         do y <- mul64 amount_b (lp_token_supply pool);
         do lp_tokens <- div64 y reserve_b;
         Ok (amount_a_optimal, amount_b, lp_tokens));
  do _ <- assert (lp_tokens_to_mint >=? min_lp_tokens) ESlippageTooHigh;
  do '(rest_a, in_a) <- balance_split token_a optimal_a;
  do '(rest_b, in_b) <- balance_split token_b optimal_b;
  do new_reserve_a <- balance_join reserve_a in_a;
  do new_reserve_b <- balance_join reserve_b in_b;
  do new_supply <- add64 (lp_token_supply pool) lp_tokens_to_mint;
  do k <- mul128 new_reserve_a new_reserve_b;
  do k64 <- cast_u64 k;
  do lp_treasury' <- coin_mint lp_treasury lp_tokens_to_mint;
  do tvl1 <- add64 (total_value_locked protocol) optimal_a;
  do tvl <- add64 tvl1 optimal_b;
  do ps <-
    match profiles protocol !! sender with
    | None =>
        do total <- add64 optimal_a optimal_b;
        Ok (<[sender := mkProfile sender total 0 0 0 0 1 0]> (profiles protocol))
    | Some profile =>
        do t1 <- add64 (total_liquidity_provided profile) optimal_a;
        do t2 <- add64 t1 optimal_b;
        Ok (<[sender := mkProfile (owner profile) t2 (total_volume_traded profile)
                          (governance_power profile) (yield_farming_score profile)
                          (last_activity profile) (tier_level profile)
                          (fee_discount profile)]> (profiles protocol))
    end;
  let pool' := set_supply_k (set_reserves pool new_reserve_a new_reserve_b)
                 new_supply k64 in
  Ok (mkAdded pool' (set_tvl_profiles protocol tvl ps) lp_treasury' rest_a rest_b
        lp_tokens_to_mint
        (mkLiquidityAdded sender optimal_a optimal_b lp_tokens_to_mint)).

(** *** Swapping *)

Record SwapOutcome : Type := mkSwapped {
  swapped_pool : LiquidityPool;
  swapped_protocol : ProtocolState;
  swapped_token_out : Z;
  swapped_event : TokenSwapped
}.

Definition update_trader_profile (profile : UserProfile) (amount_in : Z)
    : result UserProfile :=
  do volume <- add64 (total_volume_traded profile) amount_in;
  let '(tier, discount) :=
    if volume >? 100000000000 then (3, 50)
    else if volume >? 10000000000 then (2, 25)
    else (tier_level profile, fee_discount profile) in
  Ok (mkProfile (owner profile) (total_liquidity_provided profile) volume
        (governance_power profile) (yield_farming_score profile) 0 tier discount).

Definition swap_exact_input (pool : LiquidityPool) (protocol : ProtocolState)
    (token_in min_amount_out : Z) (sender : address) : result SwapOutcome :=
  do _ <- assert (negb (is_paused protocol)) ENotAuthorized;
  let amount_in := token_in in
  do _ <- assert (amount_in >? 0) EInsufficientBalance;
  let reserve_in := token_a_reserve pool in
  let reserve_out := token_b_reserve pool in
  do amount_out <-
    (if is_stable_pool pool then
       calculate_stable_swap_output amount_in reserve_in reserve_out
         (amplification_coefficient pool)
     else
       calculate_constant_product_output amount_in reserve_in reserve_out
         (swap_fee_rate pool));
  do _ <- assert (amount_out >? 0) EInsufficientLiquidity;
  do _ <- assert (amount_out >=? min_amount_out) ESlippageTooHigh;
  do pb <- mul64 reserve_out 1000000;
  do price_before <- div64 pb reserve_in;
  do left <- sub64 reserve_out amount_out;
  do pa <- mul64 left 1000000;
  do total_in <- add64 reserve_in amount_in;
  do price_after <- div64 pa total_in;
  do price_impact <-
    (if price_after <? price_before then
       do drop <- sub64 price_before price_after;
       do scaled <- mul64 drop 10000;
       div64 scaled price_before
     else Ok 0);
  do fee_scaled <- mul64 amount_in (swap_fee_rate pool);
  do fee_amount <- div64 fee_scaled 10000;
  do new_reserve_a <- balance_join reserve_in token_in;
  do '(new_reserve_b, token_out) <- balance_split reserve_out amount_out;
  let pool' := set_last_price (set_reserves pool new_reserve_a new_reserve_b)
                 price_after in
  do ps <-
    match profiles protocol !! sender with
    | Some profile =>
        do profile' <- update_trader_profile profile amount_in;
        Ok (<[sender := profile']> (profiles protocol))
    | None => Ok (profiles protocol)
    end;
  Ok (mkSwapped pool'
        (set_tvl_profiles protocol (total_value_locked protocol) ps)
        token_out
        (mkTokenSwapped sender amount_in amount_out fee_amount price_impact)).

(** *** Flash loans

    The pool is a [LiquidityPool<T, T>]; the loan is taken from and
    returned to [token_a_reserve]. *)

Definition flash_loan (pool : LiquidityPool) (loan_amount : Z)
    : result (LiquidityPool * Z * FlashLoan) :=
  let reserve := token_a_reserve pool in
  do tenth <- div64 reserve 10;
  do _ <- assert (loan_amount <=? tenth) EInsufficientLiquidity;
  do scaled <- mul64 loan_amount 9;
  do loan_fee <- div64 scaled 10000;
  do '(rest, loan) <- balance_split reserve loan_amount;
  Ok (set_reserves pool rest (token_b_reserve pool), loan,
      mkFlashLoan loan_amount loan_fee).

Definition repay_flash_loan (pool : LiquidityPool) (repayment : Z)
    (receipt : FlashLoan) : result LiquidityPool :=
  do total_repayment <- add64 (amount receipt) (fee receipt);
  do _ <- assert (repayment >=? total_repayment) EInsufficientBalance;
  do reserve <- balance_join (token_a_reserve pool) repayment;
  Ok (set_reserves pool reserve (token_b_reserve pool)).

(** *** Batch swaps

    [batch_swaps] takes the coins from the back of the vector, prices each
    with the constant-product formula whatever the kind of the pool, and
    hands a coin back instead of aborting when the output is under its
    minimum.  It writes neither [last_price] nor any profile. *)

Definition EInvalidProposal : Z := 1004.
Definition EPriceOracleStale : Z := 1008.
Definition EInvalidTokenType : Z := 1009.

(** What a batch sends to the caller, in order. *)
Inductive batch_transfer : Type :=
| PaidOut (token_out : Z)
| Refunded (token_in : Z).

(** [vector::pop_back]: the vector without its last element, and that
    element; it aborts on an empty vector. *)
Definition vector_pop_back {A : Type} (v : list A) : result (list A * A) :=
  match rev v with
  | [] => Abort VectorOutOfBounds
  | x :: r => Ok (rev r, x)
  end.

(** [vector::destroy_empty] aborts on a vector that is not empty. *)
Definition vector_destroy_empty {A : Type} (v : list A) : result unit :=
  match v with
  | [] => Ok tt
  | _ :: _ => Abort VectorOutOfBounds
  end.

Definition batch_swap_one (pool : LiquidityPool) (token_in min_out : Z)
    (sent : list batch_transfer) : result (LiquidityPool * list batch_transfer) :=
  let amount_in := token_in in
  if amount_in >? 0 then
    let reserve_in := token_a_reserve pool in
    let reserve_out := token_b_reserve pool in
    do amount_out <- calculate_constant_product_output amount_in reserve_in
                       reserve_out (swap_fee_rate pool);
    if amount_out >=? min_out then
      do new_reserve_a <- balance_join reserve_in token_in;
      do '(new_reserve_b, token_out) <- balance_split reserve_out amount_out;
      Ok (set_reserves pool new_reserve_a new_reserve_b, sent ++ [PaidOut token_out])
    else Ok (pool, sent ++ [Refunded token_in])
  else Ok (pool, sent).

Fixpoint batch_swaps_loop (rounds : nat) (pool : LiquidityPool)
    (tokens_in min_amounts_out : list Z) (sent : list batch_transfer)
    : result (LiquidityPool * list Z * list Z * list batch_transfer) :=
  match rounds with
  | O => Ok (pool, tokens_in, min_amounts_out, sent)
  | S rounds' =>
      do '(tokens_in', token_in) <- vector_pop_back tokens_in;
      do '(min_amounts_out', min_out) <- vector_pop_back min_amounts_out;
      do '(pool', sent') <- batch_swap_one pool token_in min_out sent;
      batch_swaps_loop rounds' pool' tokens_in' min_amounts_out' sent'
  end.

Definition batch_swaps (pool : LiquidityPool) (protocol : ProtocolState)
    (tokens_in min_amounts_out : list Z)
    : result (LiquidityPool * list batch_transfer) :=
  do _ <- assert (negb (is_paused protocol)) ENotAuthorized;
  let len := length tokens_in in
  do _ <- assert (Nat.eqb (length min_amounts_out) len) EInvalidTokenType;
  do '(pool', tokens_left, mins_left, sent) <-
    batch_swaps_loop len pool tokens_in min_amounts_out [];
  do _ <- vector_destroy_empty tokens_left;
  do _ <- vector_destroy_empty mins_left;
  Ok (pool', sent).

(** The batch as a sequence of single steps over (coin, minimum) orders,
    and the totals of what a batch sends. *)
Fixpoint batch_fold (pool : LiquidityPool) (orders : list (Z * Z))
    (sent : list batch_transfer) : result (LiquidityPool * list batch_transfer) :=
  match orders with
  | [] => Ok (pool, sent)
  | (token_in, min_out) :: rest =>
      do '(pool', sent') <- batch_swap_one pool token_in min_out sent;
      batch_fold pool' rest sent'
  end.

Definition paid_out_total (sent : list batch_transfer) : Z :=
  foldr (fun t acc => match t with PaidOut v => v + acc | Refunded _ => acc end)
    0 sent.

Definition refunded_total (sent : list batch_transfer) : Z :=
  foldr (fun t acc => match t with PaidOut _ => acc | Refunded v => v + acc end)
    0 sent.

Definition coins_total (coins : list Z) : Z := foldr Z.add 0 coins.

(** *** Administration *)

Definition update_protocol_parameters (protocol : ProtocolState)
    (new_fee_rate new_governance_threshold : option Z) (sender : address)
    : result ProtocolState :=
  do _ <- assert (N.eqb sender (admin protocol)) ENotAuthorized;
  do fee_rate <-
    match new_fee_rate with
    | Some fee_rate =>
        do _ <- assert (fee_rate <=? 1000) EInvalidTokenType;
        Ok fee_rate
    | None => Ok (trading_fee_rate protocol)
    end;
  let threshold :=
    match new_governance_threshold with
    | Some threshold => threshold
    | None => governance_threshold protocol
    end in
  Ok (mkProtocol (version protocol) (admin protocol) (total_value_locked protocol)
        fee_rate threshold (is_paused protocol) (profiles protocol)).

Definition set_protocol_pause (protocol : ProtocolState) (paused : bool)
    (sender : address) : result ProtocolState :=
  do _ <- assert (N.eqb sender (admin protocol)) ENotAuthorized;
  Ok (mkProtocol (version protocol) (admin protocol) (total_value_locked protocol)
        (trading_fee_rate protocol) (governance_threshold protocol) paused
        (profiles protocol)).

Definition transfer_admin (protocol : ProtocolState) (new_admin : address)
    (sender : address) : result ProtocolState :=
  do _ <- assert (N.eqb sender (admin protocol)) ENotAuthorized;
  Ok (mkProtocol (version protocol) new_admin (total_value_locked protocol)
        (trading_fee_rate protocol) (governance_threshold protocol)
        (is_paused protocol) (profiles protocol)).

Definition emergency_pause (protocol : ProtocolState) (reason : list Z)
    (sender : address) : result ProtocolState :=
  do _ <- assert (N.eqb sender (admin protocol)) ENotAuthorized;
  Ok (mkProtocol (version protocol) (admin protocol) (total_value_locked protocol)
        (trading_fee_rate protocol) (governance_threshold protocol) true
        (profiles protocol)).

(** The tier and the discount that go with a traded volume. *)
Definition tier_of_volume (volume : Z) : Z * Z :=
  if volume >? 100000000000 then (3, 50)
  else if volume >? 10000000000 then (2, 25)
  else (1, 0).

Definition tier_matches_volume (profile : UserProfile) : Prop :=
  (tier_level profile, fee_discount profile)
  = tier_of_volume (total_volume_traded profile).

End Defi.

(** ** Module [oracle_aggregator] *)

Module Oracle.

Definition ENotAuthorized : Z := 3001.
Definition EInsufficientDataSources : Z := 3003.
Definition EInvalidConfidence : Z := 3005.
Definition ECircuitBreakerTriggered : Z := 3006.

Definition MIN_CONFIDENCE_THRESHOLD : Z := 70.
Definition MAX_PRICE_DEVIATION : Z := 1000.
Definition MIN_DATA_SOURCES : Z := 3.
Definition TWAP_WINDOW_SIZE : Z := 24.
Definition CIRCUIT_BREAKER_THRESHOLD : Z := 2000.

(** *** State *)

Record PriceSubmission : Type := mkSubmission {
  price : Z;
  confidence : Z;
  timestamp : Z;
  source_id : string;
  signature_hash : list Z
}.

(** [VecMap<address, PriceSubmission>]: entries in insertion order. *)
Abbreviation VecMap := (list (N * PriceSubmission)) (only parsing).

Record PriceFeed : Type := mkFeed {
  feed_pair : string;
  current_price : Z;
  feed_confidence : Z;
  last_update : Z;
  source_count : Z;
  twap_24h : Z;
  volume_weighted_price : Z;
  price_sources : list (N * PriceSubmission);
  is_active : bool
}.

Record OracleNode : Type := mkNode {
  node_address : address;
  reputation_score : Z;
  total_submissions : Z;
  accurate_submissions : Z;
  stake_amount : Z;
  last_submission : Z;
  is_authorized : bool;
  reward_multiplier : Z
}.

Record HourlyPrice : Type := mkHourly {
  hour_timestamp : Z;
  open : Z;
  high : Z;
  low : Z;
  close : Z;
  volume : Z;
  weighted_price : Z
}.

Record DailySummary : Type := mkDaily {
  date : Z;
  avg_price : Z;
  volatility : Z;
  trading_volume : Z;
  price_change_24h : Z
}.

Record PriceHistory : Type := mkHistory {
  hourly_prices : list HourlyPrice;
  daily_summary : list DailySummary;
  max_history_size : Z;
  last_cleanup : Z
}.

Record CircuitBreaker : Type := mkBreaker {
  breaker_pair : string;
  is_triggered : bool;
  trigger_price : Z;
  trigger_timestamp : Z;
  reset_threshold : Z;
  consecutive_anomalies : Z;
  last_normal_price : Z
}.

Record AggregationSettings : Type := mkSettings {
  min_sources : Z;
  confidence_threshold : Z;
  deviation_threshold : Z;
  stale_threshold : Z;
  circuit_breaker_enabled : bool;
  twap_enabled : bool;
  volume_weighting_enabled : bool
}.

Record OracleAggregator : Type := mkAggregator {
  admin : address;
  supported_pairs : gmap string PriceFeed;
  oracle_nodes : gmap N OracleNode;
  price_history : gmap string PriceHistory;
  circuit_breakers : gmap string CircuitBreaker;
  aggregation_settings : AggregationSettings;
  is_paused : bool
}.

(** Events, in the order of their fields in the source. *)
Inductive event : Type :=
| PriceUpdated (pair : string)
    (new_price old_price conf count deviation time : Z)
| CircuitBreakerTriggered (pair : string)
    (trigger previous deviation time : Z)
| OracleNodeRegistered (node : address) (stake reputation time : Z).

Definition set_supported_pairs (a : OracleAggregator)
    (sp : gmap string PriceFeed) : OracleAggregator :=
  mkAggregator (admin a) sp (oracle_nodes a) (price_history a)
    (circuit_breakers a) (aggregation_settings a) (is_paused a).

Definition set_oracle_nodes (a : OracleAggregator)
    (ns : gmap N OracleNode) : OracleAggregator :=
  mkAggregator (admin a) (supported_pairs a) ns (price_history a)
    (circuit_breakers a) (aggregation_settings a) (is_paused a).

Definition set_price_history (a : OracleAggregator)
    (h : gmap string PriceHistory) : OracleAggregator :=
  mkAggregator (admin a) (supported_pairs a) (oracle_nodes a) h
    (circuit_breakers a) (aggregation_settings a) (is_paused a).

Definition set_circuit_breakers (a : OracleAggregator)
    (cb : gmap string CircuitBreaker) : OracleAggregator :=
  mkAggregator (admin a) (supported_pairs a) (oracle_nodes a) (price_history a)
    cb (aggregation_settings a) (is_paused a).

Definition set_settings (a : OracleAggregator)
    (st : AggregationSettings) : OracleAggregator :=
  mkAggregator (admin a) (supported_pairs a) (oracle_nodes a) (price_history a)
    (circuit_breakers a) st (is_paused a).

Definition set_price_sources (f : PriceFeed)
    (srcs : list (N * PriceSubmission)) : PriceFeed :=
  mkFeed (feed_pair f) (current_price f) (feed_confidence f) (last_update f)
    (source_count f) (twap_24h f) (volume_weighted_price f) srcs (is_active f).

Definition set_twap (f : PriceFeed) (twap : Z) : PriceFeed :=
  mkFeed (feed_pair f) (current_price f) (feed_confidence f) (last_update f)
    (source_count f) twap (volume_weighted_price f) (price_sources f)
    (is_active f).

(** The four fields a publishing round overwrites. *)
Definition publish (f : PriceFeed) (p conf time count : Z) : PriceFeed :=
  mkFeed (feed_pair f) p conf time count (twap_24h f)
    (volume_weighted_price f) (price_sources f) (is_active f).

(** *** Framework containers *)

Definition table_borrow {K V} `{Countable K} (t : gmap K V) (k : K) : result V :=
  match t !! k with
  | Some v => Ok v
  | None => Abort TableKeyMissing
  end.

Definition table_add {K V} `{Countable K} (t : gmap K V) (k : K) (v : V)
    : result (gmap K V) :=
  match t !! k with
  | Some _ => Abort TableKeyExists
  | None => Ok (<[k := v]> t)
  end.

Definition vec_map_contains (m : list (N * PriceSubmission)) (k : address) : bool :=
  existsb (fun e => N.eqb (fst e) k) m.

Definition vec_map_insert (m : list (N * PriceSubmission)) (k : address)
    (v : PriceSubmission) : result (list (N * PriceSubmission)) :=
  if vec_map_contains m k then Abort VecMapKeyExists else Ok (m ++ [(k, v)]).

Definition vec_map_size (m : list (N * PriceSubmission)) : Z :=
  Z.of_nat (length m).

Definition vector_borrow {A} (v : list A) (i : nat) : result A :=
  match nth_error v i with
  | Some a => Ok a
  | None => Abort VectorOutOfBounds
  end.

(** *** Initialisation and the roster *)

Definition init (sender : address) : OracleAggregator :=
  mkAggregator sender ∅ ∅ ∅ ∅
    (mkSettings MIN_DATA_SOURCES MIN_CONFIDENCE_THRESHOLD MAX_PRICE_DEVIATION
       (5 * 60 * 1000) true true true)
    false.

Definition register_oracle_node (aggregator : OracleAggregator)
    (stake : Z) (sender : address) : result (OracleAggregator * list event) :=
  do _ <- assert (negb (is_paused aggregator)) ENotAuthorized;
  do _ <- assert (stake >? 0) ENotAuthorized;
  do _ <- assert (negb (bool_decide (is_Some (oracle_nodes aggregator !! sender))))
            ENotAuthorized;
  do nodes <- table_add (oracle_nodes aggregator) sender
                (mkNode sender 100 0 0 stake 0 false 100);
  Ok (set_oracle_nodes aggregator nodes, [OracleNodeRegistered sender stake 100 0]).

Definition authorize_oracle_node (aggregator : OracleAggregator)
    (node : address) (sender : address) : result OracleAggregator :=
  do _ <- assert (N.eqb sender (admin aggregator)) ENotAuthorized;
  do _ <- assert (bool_decide (is_Some (oracle_nodes aggregator !! node)))
            ENotAuthorized;
  do n <- table_borrow (oracle_nodes aggregator) node;
  let n' := mkNode (node_address n) (reputation_score n) (total_submissions n)
              (accurate_submissions n) (stake_amount n) (last_submission n)
              true (reward_multiplier n) in
  Ok (set_oracle_nodes aggregator (<[node := n']> (oracle_nodes aggregator))).

Definition add_price_feed (aggregator : OracleAggregator) (pair : string)
    (sender : address) : result OracleAggregator :=
  do _ <- assert (N.eqb sender (admin aggregator)) ENotAuthorized;
  do _ <- assert (negb (bool_decide (is_Some (supported_pairs aggregator !! pair))))
            ENotAuthorized;
  let price_feed := mkFeed pair 0 0 0 0 0 0 [] true in
  let history := mkHistory [] [] (TWAP_WINDOW_SIZE * 30) 0 in
  do half <- div64 MAX_PRICE_DEVIATION 2;
  let circuit_breaker := mkBreaker pair false 0 0 half 0 0 in
  do sp <- table_add (supported_pairs aggregator) pair price_feed;
  do ph <- table_add (price_history aggregator) pair history;
  do cb <- table_add (circuit_breakers aggregator) pair circuit_breaker;
  Ok (set_circuit_breakers
        (set_price_history (set_supported_pairs aggregator sp) ph) cb).

(** *** Deviation and the breaker *)

Definition calculate_price_deviation (new_price old_price : Z) : result Z :=
  if old_price =? 0 then Ok 0
  else
    do diff <- (if new_price >? old_price then sub64 new_price old_price
                else sub64 old_price new_price);
    do scaled <- mul64 diff 10000;
    div64 scaled old_price.

Definition trigger_circuit_breaker (aggregator : OracleAggregator)
    (pair : string) (trigger previous time : Z)
    : result (OracleAggregator * list event) :=
  do cb <- table_borrow (circuit_breakers aggregator) pair;
  do anomalies <- add64 (consecutive_anomalies cb) 1;
  let cb' := mkBreaker (breaker_pair cb) true trigger time (reset_threshold cb)
               anomalies (last_normal_price cb) in
  do deviation <- calculate_price_deviation trigger previous;
  Ok (set_circuit_breakers aggregator (<[pair := cb']> (circuit_breakers aggregator)),
      [CircuitBreakerTriggered pair trigger previous deviation time]).

(** *** Aggregation *)

(** What the first loop of [aggregate_prices] accumulates. *)
Record Collected : Type := mkCollected {
  valid_prices : list Z;
  valid_confidences : list Z;
  total_weight : Z;
  valid_count : Z
}.

Fixpoint collect_valid (stale current_time : Z)
    (submissions : list PriceSubmission) (acc : Collected) : result Collected :=
  match submissions with
  | [] => Ok acc
  | submission :: rest =>
      do age <- sub64 current_time (timestamp submission);
      do acc' <-
        (if age <=? stale then
           do weight <- add64 (total_weight acc) (confidence submission);
           do count <- add64 (valid_count acc) 1;
           Ok (mkCollected (valid_prices acc ++ [price submission])
                 (valid_confidences acc ++ [confidence submission]) weight count)
         else Ok acc);
      collect_valid stale current_time rest acc'
  end.

(** The second loop: the running sum, one truncating division per entry. *)
Fixpoint weighted_sum (prices confidences : list Z) (acc : Z) : result Z :=
  match prices with
  | [] => Ok acc
  | p :: prices' =>
      match confidences with
      | [] => Abort VectorOutOfBounds
      | c :: confidences' =>
          do product <- mul64 p c;
          do share <- div64 product 100;
          do acc' <- add64 acc share;
          weighted_sum prices' confidences' acc'
      end
  end.

(** [vec_map::into_keys_values] is applied to a copy of the buffer, so the
    feed keeps its buffer until the assignment that clears it.  The source
    computes the deviation where it tests the breaker and again, by the same
    pure call, for the event; it is bound once here.  On the tripping branch
    the function returns before the feed is written. *)
Definition aggregate_prices (aggregator : OracleAggregator) (pair : string)
    (current_time : Z) : result (OracleAggregator * list event) :=
  do price_feed <- table_borrow (supported_pairs aggregator) pair;
  let settings := aggregation_settings aggregator in
  let sources := map fst (price_sources price_feed) in
  let submissions := map snd (price_sources price_feed) in
  do valid <- collect_valid (stale_threshold settings) current_time submissions
                (mkCollected [] [] 0 0);
  let count := valid_count valid in
  do _ <- assert (count >=? min_sources settings) EInsufficientDataSources;
  do sum <- weighted_sum (valid_prices valid) (valid_confidences valid) 0;
  do weighted <-
    (if total_weight valid >? 0 then
       do scaled <- mul64 sum 100;
       div64 scaled (total_weight valid)
     else Ok sum);
  do avg_confidence <- div64 (total_weight valid) count;
  let old_price := current_price price_feed in
  do deviation <-
    (if old_price >? 0 then calculate_price_deviation weighted old_price
     else Ok 0);
  if (old_price >? 0) && circuit_breaker_enabled settings
     && (deviation >? CIRCUIT_BREAKER_THRESHOLD)
  then trigger_circuit_breaker aggregator pair weighted old_price current_time
  else
    let cleared := set_price_sources
                     (publish price_feed weighted avg_confidence current_time count)
                     [] in
    let ev := PriceUpdated pair weighted old_price avg_confidence count
                deviation current_time in
    do first_source <- vector_borrow sources 0;
    do first_submission <- vector_borrow submissions 0;
    do restored <- vec_map_insert (price_sources cleared) first_source
                     first_submission;
    Ok (set_supported_pairs aggregator
          (<[pair := set_price_sources cleared restored]>
             (supported_pairs aggregator)),
        [ev]).

Definition submit_price (aggregator : OracleAggregator) (pair : string)
    (new_price new_confidence : Z) (source : string) (clock : Z)
    (sender : address) : result (OracleAggregator * list event) :=
  do _ <- assert (negb (is_paused aggregator)) ENotAuthorized;
  do _ <- assert (new_confidence <=? 100) EInvalidConfidence;
  let submitter := sender in
  do _ <- assert (bool_decide (is_Some (oracle_nodes aggregator !! submitter)))
            ENotAuthorized;
  do node <- table_borrow (oracle_nodes aggregator) submitter;
  do _ <- assert (is_authorized node) ENotAuthorized;
  do _ <- assert (bool_decide (is_Some (supported_pairs aggregator !! pair)))
            ENotAuthorized;
  let current_time := clock in
  do circuit_breaker <- table_borrow (circuit_breakers aggregator) pair;
  do _ <-
    (if is_triggered circuit_breaker then
       do deviation <- calculate_price_deviation new_price
                         (last_normal_price circuit_breaker);
       assert (deviation <=? reset_threshold circuit_breaker)
         ECircuitBreakerTriggered
     else Ok tt);
  let submission := mkSubmission new_price new_confidence current_time source [] in
  do price_feed <- table_borrow (supported_pairs aggregator) pair;
  do srcs <- vec_map_insert (price_sources price_feed) submitter submission;
  let price_feed' := set_price_sources price_feed srcs in
  do submissions <- add64 (total_submissions node) 1;
  let node' := mkNode (node_address node) (reputation_score node) submissions
                 (accurate_submissions node) (stake_amount node) current_time
                 (is_authorized node) (reward_multiplier node) in
  let aggregator' :=
    set_oracle_nodes
      (set_supported_pairs aggregator
         (<[pair := price_feed']> (supported_pairs aggregator)))
      (<[submitter := node']> (oracle_nodes aggregator)) in
  if vec_map_size srcs >=? min_sources (aggregation_settings aggregator) then
    aggregate_prices aggregator' pair current_time
  else Ok (aggregator', []).

(** *** TWAP and history (defined by the module, called by no entry point) *)

Fixpoint sum_weighted_prices (prices : list HourlyPrice) (acc : Z * Z)
    : result (Z * Z) :=
  match prices with
  | [] => Ok acc
  | p :: rest =>
      do sum <- add64 (fst acc) (weighted_price p);
      do count <- add64 (snd acc) 1;
      sum_weighted_prices rest (sum, count)
  end.

Definition calculate_twap (history : PriceHistory) (hours : Z) : result Z :=
  let prices := hourly_prices history in
  let len := Z.of_nat (length prices) in
  if len =? 0 then Ok 0
  else
    do start_index <- (if len >? hours then sub64 len hours else Ok 0);
    do '(sum, count) <- sum_weighted_prices
                          (drop (Z.to_nat start_index) prices) (0, 0);
    if count >? 0 then div64 sum count else Ok 0.

Definition update_twap (aggregator : OracleAggregator) (pair : string)
    (new_price time : Z) : result OracleAggregator :=
  do history <- table_borrow (price_history aggregator) pair;
  let hourly := mkHourly time new_price new_price new_price new_price 0 new_price in
  let pushed := hourly_prices history ++ [hourly] in
  let kept := if Z.of_nat (length pushed) >? max_history_size history
              then drop 1 pushed else pushed in
  let history' := mkHistory kept (daily_summary history)
                    (max_history_size history) (last_cleanup history) in
  do price_feed <- table_borrow (supported_pairs aggregator) pair;
  do twap <- calculate_twap history' 24;
  Ok (set_supported_pairs
        (set_price_history aggregator
           (<[pair := history']> (price_history aggregator)))
        (<[pair := set_twap price_feed twap]> (supported_pairs aggregator))).

(** *** Administration *)

(** [pair] is the byte vector of the call. *)
Definition reset_circuit_breaker (aggregator : OracleAggregator) (pair : string)
    (sender : address) : result OracleAggregator :=
  do _ <- assert (N.eqb sender (admin aggregator)) ENotAuthorized;
  do pair_string <- string_utf8 pair;
  match circuit_breakers aggregator !! pair_string with
  | Some cb =>
      let cb' := mkBreaker (breaker_pair cb) false (trigger_price cb)
                   (trigger_timestamp cb) (reset_threshold cb) 0
                   (last_normal_price cb) in
      Ok (set_circuit_breakers aggregator
            (<[pair_string := cb']> (circuit_breakers aggregator)))
  | None => Ok aggregator
  end.

Definition set_is_paused (a : OracleAggregator) (paused : bool)
    : OracleAggregator :=
  mkAggregator (admin a) (supported_pairs a) (oracle_nodes a) (price_history a)
    (circuit_breakers a) (aggregation_settings a) paused.

(** Each setting is written only when its argument is [Some]; the
    assertion on the confidence threshold comes after the write of
    [min_sources], which an abort undoes with everything else. *)
Definition update_settings (aggregator : OracleAggregator)
    (new_min_sources new_confidence_threshold new_deviation_threshold : option Z)
    (sender : address) : result OracleAggregator :=
  do _ <- assert (N.eqb sender (admin aggregator)) ENotAuthorized;
  let st := aggregation_settings aggregator in
  let sources :=
    match new_min_sources with
    | Some n => n
    | None => min_sources st
    end in
  do threshold <-
    match new_confidence_threshold with
    | Some threshold =>
        do _ <- assert (threshold <=? 100) EInvalidConfidence;
        Ok threshold
    | None => Ok (confidence_threshold st)
    end;
  let deviation :=
    match new_deviation_threshold with
    | Some d => d
    | None => deviation_threshold st
    end in
  Ok (set_settings aggregator
        (mkSettings sources threshold deviation (stale_threshold st)
           (circuit_breaker_enabled st) (twap_enabled st)
           (volume_weighting_enabled st))).

Definition set_pause (aggregator : OracleAggregator) (paused : bool)
    (sender : address) : result OracleAggregator :=
  do _ <- assert (N.eqb sender (admin aggregator)) ENotAuthorized;
  Ok (set_is_paused aggregator paused).

(** *** Views *)

Record AggregatedPrice : Type := mkAggregated {
  agg_price : Z;
  agg_confidence : Z;
  agg_source_count : Z;
  agg_deviation : Z;
  agg_timestamp : Z;
  is_circuit_breaker_active : bool
}.

Definition get_price (aggregator : OracleAggregator) (pair : string)
    : result AggregatedPrice :=
  if negb (bool_decide (is_Some (supported_pairs aggregator !! pair))) then
    Ok (mkAggregated 0 0 0 0 0 false)
  else
    do price_feed <- table_borrow (supported_pairs aggregator) pair;
    do circuit_breaker <- table_borrow (circuit_breakers aggregator) pair;
    Ok (mkAggregated (current_price price_feed) (feed_confidence price_feed)
          (source_count price_feed) 0 (last_update price_feed)
          (is_triggered circuit_breaker)).

Definition get_twap (aggregator : OracleAggregator) (pair : string) : result Z :=
  if bool_decide (is_Some (supported_pairs aggregator !! pair)) then
    do price_feed <- table_borrow (supported_pairs aggregator) pair;
    Ok (twap_24h price_feed)
  else Ok 0.

Definition is_oracle_healthy (aggregator : OracleAggregator) (pair : string)
    (current_time : Z) : result bool :=
  if negb (bool_decide (is_Some (supported_pairs aggregator !! pair))) then
    Ok false
  else
    do price_feed <- table_borrow (supported_pairs aggregator) pair;
    do circuit_breaker <- table_borrow (circuit_breakers aggregator) pair;
    do age <- sub64 current_time (last_update price_feed);
    let is_fresh := age <=? stale_threshold (aggregation_settings aggregator) in
    let has_confidence :=
      feed_confidence price_feed
      >=? confidence_threshold (aggregation_settings aggregator) in
    let not_breaker := negb (is_triggered circuit_breaker) in
    Ok (is_fresh && has_confidence && not_breaker).

Definition get_node_reputation (aggregator : OracleAggregator) (node : address)
    : result Z :=
  if bool_decide (is_Some (oracle_nodes aggregator !! node)) then
    do oracle_node <- table_borrow (oracle_nodes aggregator) node;
    Ok (reputation_score oracle_node)
  else Ok 0.

(** *** Closed forms used in the statements *)

(** A round published when its only event is a [PriceUpdated]. *)
Definition published (events : list event) : bool :=
  match events with
  | [PriceUpdated _ _ _ _ _ _ _] => true
  | _ => false
  end.

(** A submission is fresh at [current_time] when its age is within the
    stale threshold. *)
Definition is_fresh (stale current_time : Z) (s : PriceSubmission) : bool :=
  current_time - timestamp s <=? stale.

Definition fresh_submissions (stale current_time : Z)
    (submissions : list PriceSubmission) : list PriceSubmission :=
  List.filter (is_fresh stale current_time) submissions.

(** [Σ confidence_i]. *)
Definition confidence_sum (l : list PriceSubmission) : Z :=
  foldr (fun s acc => confidence s + acc) 0 l.

(** [Σ floor(price_i * confidence_i / 100)]: one truncation per entry. *)
Definition share_sum (l : list PriceSubmission) : Z :=
  foldr (fun s acc => price s * confidence s / 100 + acc) 0 l.

(** [Σ price_i * confidence_i], without any truncation. *)
Definition product_sum (l : list PriceSubmission) : Z :=
  foldr (fun s acc => price s * confidence s + acc) 0 l.

(** The last [n] buckets of a history and the truncated mean of their
    weighted prices. *)
Definition last_buckets (n : nat) (l : list HourlyPrice) : list HourlyPrice :=
  drop (length l - n)%nat l.

Definition bucket_sum (l : list HourlyPrice) : Z :=
  foldr (fun b acc => weighted_price b + acc) 0 l.

Definition bucket_mean (l : list HourlyPrice) : Z :=
  bucket_sum l / Z.of_nat (length l).

(** The price and the confidence a round computes from its fresh
    submissions. *)
Definition round_price (fresh : list PriceSubmission) : Z :=
  if confidence_sum fresh >? 0
  then share_sum fresh * 100 / confidence_sum fresh
  else share_sum fresh.

Definition round_confidence (fresh : list PriceSubmission) : Z :=
  confidence_sum fresh / Z.of_nat (length fresh).

(** The aggregator [submit_price] hands to the round: the submission is
    appended to the buffer of [feed] and the statistics of [node] are
    advanced. *)
Definition with_submission (aggregator : OracleAggregator) (pair : string)
    (feed : PriceFeed) (node : OracleNode) (sender : address)
    (submission : PriceSubmission) : OracleAggregator :=
  set_oracle_nodes
    (set_supported_pairs aggregator
       (<[pair := set_price_sources feed
                    (price_sources feed ++ [(sender, submission)])]>
          (supported_pairs aggregator)))
    (<[sender := mkNode (node_address node) (reputation_score node)
                   (total_submissions node + 1) (accurate_submissions node)
                   (stake_amount node) (timestamp submission)
                   (is_authorized node) (reward_multiplier node)]>
       (oracle_nodes aggregator)).

(** The fresh submissions of the buffer of [feed] at [current_time]. *)
Definition round_fresh (aggregator : OracleAggregator) (feed : PriceFeed)
    (current_time : Z) : list PriceSubmission :=
  fresh_submissions (stale_threshold (aggregation_settings aggregator))
    current_time (map snd (price_sources feed)).

(** No breaker of the aggregator has a last normal price recorded. *)
Definition never_normal (aggregator : OracleAggregator) : Prop :=
  map_Forall (fun _ cb => last_normal_price cb = 0)
    (circuit_breakers aggregator).

(** The outcome of a call, with the settings replaced in the aggregator it
    returns. *)
Definition under_settings (settings : AggregationSettings)
    (r : result (OracleAggregator * list event))
    : result (OracleAggregator * list event) :=
  match r with
  | Ok (aggregator, events) => Ok (set_settings aggregator settings, events)
  | Abort e => Abort e
  end.

End Oracle.

(** ** Module [defi_protocol]: yield farming *)

Module Farming.

Record YieldStake : Type := mkStake {
  owner : address;
  staked_amount : Z;
  staked_token_type : string;
  stake_timestamp : Z;
  lock_duration : Z;
  reward_rate : Z;
  accumulated_rewards : Z;
  is_compound_enabled : bool;
  performance_multiplier : Z
}.

(** [YieldFarmingStarted] and [RewardsHarvested], without the object id. *)
Inductive event : Type :=
| YieldFarmingStarted (user : address) (amount : Z) (token_type : string)
    (lock rate time : Z)
| RewardsHarvested (user : address) (reward : Z) (token_type : string)
    (time : Z).

Definition MS_PER_YEAR : Z := 365 * 24 * 60 * 60 * 1000.
Definition MS_PER_90_DAYS : Z := 90 * 24 * 60 * 60 * 1000.

Definition calculate_yield_rewards
    (staked reward_rate_bps time_staked multiplier : Z) : result Z :=
  do scaled <- mul64 staked reward_rate_bps;
  do annual_rewards <- div64 scaled 10000;
  do time_factor <- div64 time_staked MS_PER_YEAR;
  let compound_factor := if time_staked >? MS_PER_90_DAYS then 110 else 100 in
  do over_time <- mul64 annual_rewards time_factor;
  do compounded <- mul64 over_time compound_factor;
  do base_rewards <- div64 compounded 100;
  do boosted <- mul64 base_rewards multiplier;
  div64 boosted 100.

(** The stake is created with [stake_timestamp] 0; the staked coin goes to
    the address of the package.  The protocol is touched only in the
    profile of the sender, when there is one. *)
Definition start_yield_farming (protocol : Defi.ProtocolState)
    (stake_token lock_duration_days : Z) (enable_compound : bool)
    (sender : address)
    : result (Defi.ProtocolState * YieldStake * list event) :=
  do _ <- assert (negb (Defi.is_paused protocol)) Defi.ENotAuthorized;
  do _ <- assert (lock_duration_days >=? 30) Defi.EInvalidTokenType;
  let amount := stake_token in
  do _ <- assert (amount >? 0) Defi.EInsufficientBalance;
  let base_rate := 1000 in
  do extra_days <- sub64 lock_duration_days 30;
  do bonus_rate <- mul64 extra_days 10;
  do rate <- add64 base_rate bonus_rate;
  do hours <- mul64 lock_duration_days 24;
  do minutes <- mul64 hours 60;
  do seconds <- mul64 minutes 60;
  let stake := mkStake sender amount "StakeToken" 0 seconds rate 0
                 enable_compound 100 in
  do ps <-
    match Defi.profiles protocol !! sender with
    | Some profile =>
        do score <- add64 (Defi.yield_farming_score profile) amount;
        Ok (<[sender := Defi.mkProfile (Defi.owner profile)
                          (Defi.total_liquidity_provided profile)
                          (Defi.total_volume_traded profile)
                          (Defi.governance_power profile) score
                          (Defi.last_activity profile) (Defi.tier_level profile)
                          (Defi.fee_discount profile)]> (Defi.profiles protocol))
    | None => Ok (Defi.profiles protocol)
    end;
  Ok (Defi.set_tvl_profiles protocol (Defi.total_value_locked protocol) ps,
      stake,
      [YieldFarmingStarted sender amount "StakeToken" seconds rate 0]).

Record HarvestOutcome : Type := mkHarvest {
  harvested_stake : YieldStake;
  harvested_reserve : Z;     (* protocol.treasury.yld_reserve afterwards *)
  harvested_supply : Z;      (* total supply of the YLD treasury afterwards *)
  harvested_payout : Z;      (* YLD coin transferred to the sender *)
  harvested_events : list event
}.

(** [harvest_rewards] reads the protocol only for [treasury.yld_reserve],
    which is given here as the balance itself. *)
Definition harvest_rewards (stake : YieldStake) (yld_reserve yld_treasury : Z)
    (clock : Z) (sender : address) : result HarvestOutcome :=
  do _ <- assert (N.eqb (owner stake) sender) Defi.ENotAuthorized;
  let current_time := clock in
  do time_staked <- sub64 current_time (stake_timestamp stake);
  do rewards <- calculate_yield_rewards (staked_amount stake) (reward_rate stake)
                  time_staked (performance_multiplier stake);
  if rewards >? 0 then
    do supply <- Defi.coin_mint yld_treasury rewards;
    do '(staked, reserve, payout) <-
      (if is_compound_enabled stake then
         do staked <- add64 (staked_amount stake) rewards;
         do reserve <- Defi.balance_join yld_reserve rewards;
         Ok (staked, reserve, 0)
       else Ok (staked_amount stake, yld_reserve, rewards));
    do accumulated <- add64 (accumulated_rewards stake) rewards;
    Ok (mkHarvest
          (mkStake (owner stake) staked (staked_token_type stake)
             (stake_timestamp stake) (lock_duration stake) (reward_rate stake)
             accumulated (is_compound_enabled stake)
             (performance_multiplier stake))
          reserve supply payout
          [RewardsHarvested sender rewards "YLD" current_time])
  else Ok (mkHarvest stake yld_reserve yld_treasury 0 []).

End Farming.

(** ** Module [defi_protocol]: the price oracle registry *)

Module Registry.

Record PriceOracle : Type := mkOracle {
  asset_pair : string;
  price : Z;
  confidence : Z;
  last_update : Z;
  update_frequency : Z;
  source_count : Z;
  deviation_threshold : Z
}.

Record OracleRegistry : Type := mkRegistry {
  oracles : gmap string PriceOracle;
  authorized_updaters : gmap N bool;
  global_confidence_threshold : Z;
  max_price_deviation : Z
}.

(** [PriceOracleUpdated], fields in the order of the source. *)
Inductive event : Type :=
| PriceOracleUpdated (pair : string) (old_price new_price conf : Z)
    (updater : address) (time : Z).

Definition set_oracles (r : OracleRegistry) (os : gmap string PriceOracle)
    : OracleRegistry :=
  mkRegistry os (authorized_updaters r) (global_confidence_threshold r)
    (max_price_deviation r).

(** The registry of a freshly initialised protocol. *)
Definition init : OracleRegistry := mkRegistry ∅ ∅ 80 500.

Definition add_oracle_updater (protocol : Defi.ProtocolState)
    (registry : OracleRegistry) (updater : address) (sender : address)
    : result OracleRegistry :=
  do _ <- assert (N.eqb sender (Defi.admin protocol)) Defi.ENotAuthorized;
  do updaters <- Oracle.table_add (authorized_updaters registry) updater true;
  Ok (mkRegistry (oracles registry) updaters
        (global_confidence_threshold registry) (max_price_deviation registry)).

(** The oracle both update functions write. *)
Definition fresh_oracle (pair : string) (new_price conf time : Z) : PriceOracle :=
  mkOracle pair new_price conf time 60000 1 200.

Definition update_price_oracle (registry : OracleRegistry) (pair : string)
    (new_price conf : Z) (clock : Z) (sender : address)
    : result (OracleRegistry * list event) :=
  let updater := sender in
  do _ <- assert (bool_decide (is_Some (authorized_updaters registry !! updater)))
            Defi.ENotAuthorized;
  do _ <- assert (conf <=? 100) Defi.EInvalidTokenType;
  let current_time := clock in
  do old_price <-
    (if bool_decide (is_Some (oracles registry !! pair)) then
       do oracle <- Oracle.table_borrow (oracles registry) pair;
       Ok (price oracle)
     else Ok 0);
  do _ <-
    (if old_price >? 0 then
       do diff <- (if new_price >? old_price then sub64 new_price old_price
                   else sub64 old_price new_price);
       do scaled <- mul64 diff 10000;
       do deviation <- div64 scaled old_price;
       assert (deviation <=? max_price_deviation registry) Defi.EPriceOracleStale
     else Ok tt);
  let oracle := fresh_oracle pair new_price conf current_time in
  Ok (set_oracles registry (<[pair := oracle]> (oracles registry)),
      [PriceOracleUpdated pair old_price new_price conf updater current_time]).

(** [asset_pairs] holds the byte vectors of the call; each is converted
    when its turn comes. *)
Fixpoint batch_update_loop (registry : OracleRegistry) (current_time : Z)
    (asset_pairs : list string) (prices confidences : list Z) (i : nat)
    (rounds : nat) : result OracleRegistry :=
  match rounds with
  | O => Ok registry
  | S rounds' =>
      do bytes <- Oracle.vector_borrow asset_pairs i;
      do pair <- string_utf8 bytes;
      do new_price <- Oracle.vector_borrow prices i;
      do conf <- Oracle.vector_borrow confidences i;
      do _ <- assert (conf <=? 100) Defi.EInvalidTokenType;
      let oracle := fresh_oracle pair new_price conf current_time in
      batch_update_loop
        (set_oracles registry (<[pair := oracle]> (oracles registry)))
        current_time asset_pairs prices confidences (S i) rounds'
  end.

Definition batch_update_oracles (registry : OracleRegistry)
    (asset_pairs : list string) (prices confidences : list Z) (clock : Z)
    (sender : address) : result OracleRegistry :=
  let updater := sender in
  do _ <- assert (bool_decide (is_Some (authorized_updaters registry !! updater)))
            Defi.ENotAuthorized;
  let current_time := clock in
  let len := length asset_pairs in
  do _ <- assert (Nat.eqb (length prices) len) Defi.EInvalidTokenType;
  do _ <- assert (Nat.eqb (length confidences) len) Defi.EInvalidTokenType;
  batch_update_loop registry current_time asset_pairs prices confidences 0 len.

Definition get_aggregated_oracle_price (registry : OracleRegistry)
    (base_asset quote_asset : string) : result (Z * Z) :=
  let pair_forward := String.append (String.append base_asset "/") quote_asset in
  let pair_reverse := String.append (String.append quote_asset "/") base_asset in
  if bool_decide (is_Some (oracles registry !! pair_forward)) then
    do oracle <- Oracle.table_borrow (oracles registry) pair_forward;
    Ok (price oracle, confidence oracle)
  else if bool_decide (is_Some (oracles registry !! pair_reverse)) then
    do oracle <- Oracle.table_borrow (oracles registry) pair_reverse;
    do unit <- mul64 1000000000000 1000000;
    do inverse_price <- div64 unit (price oracle);
    Ok (inverse_price, confidence oracle)
  else Ok (0, 0).

Definition get_oracle_price (registry : OracleRegistry) (pair : string)
    : result (Z * Z * Z) :=
  if bool_decide (is_Some (oracles registry !! pair)) then
    do oracle <- Oracle.table_borrow (oracles registry) pair;
    Ok (price oracle, confidence oracle, last_update oracle)
  else Ok (0, 0, 0).

Definition is_oracle_stale (registry : OracleRegistry) (pair : string)
    (current_time max_staleness : Z) : result bool :=
  if bool_decide (is_Some (oracles registry !! pair)) then
    do oracle <- Oracle.table_borrow (oracles registry) pair;
    do age <- sub64 current_time (last_update oracle);
    Ok (age >? max_staleness)
  else Ok true.

End Registry.

(** ** Module [defi_protocol]: governance *)

Module Governance.

Record GovernanceProposal : Type := mkProposal {
  proposer : address;
  title : string;
  description : string;
  proposal_type : Z;
  execution_data : list Z;
  voting_start : Z;
  voting_end : Z;
  yes_votes : Z;
  no_votes : Z;
  abstain_votes : Z;
  total_voting_power : Z;
  is_executed : bool;
  execution_timestamp : option Z
}.

(** [active_proposals] is keyed by the object id of the proposal, a
    number here. *)
Record GovernanceState : Type := mkGovernance {
  active_proposals : gmap N bool;
  proposal_count : Z;
  voting_delay : Z;
  voting_period : Z;
  execution_delay : Z;
  quorum_threshold : Z
}.

(** The governance state of a freshly initialised protocol. *)
Definition init : GovernanceState := mkGovernance ∅ 0 17280 120960 172800 4000.

(** [proposal_id] is the id [object::new] gives the proposal. *)
Definition create_proposal (protocol : Defi.ProtocolState)
    (governance : GovernanceState) (dfi_tokens : Z) (new_title new_description : string)
    (new_type : Z) (data : list Z) (clock : Z) (sender : address)
    (proposal_id : N) : result (GovernanceState * GovernanceProposal) :=
  do _ <- assert (negb (Defi.is_paused protocol)) Defi.ENotAuthorized;
  do _ <- assert (dfi_tokens >=? Defi.governance_threshold protocol)
            Defi.ENotAuthorized;
  do _ <- assert ((new_type >=? 1) && (new_type <=? 3)) Defi.EInvalidProposal;
  let current_time := clock in
  do start <- add64 current_time (voting_delay governance);
  do stop <- add64 start (voting_period governance);
  let proposal := mkProposal sender new_title new_description new_type data
                    start stop 0 0 0 0 false None in
  do active <- Oracle.table_add (active_proposals governance) proposal_id true;
  do count <- add64 (proposal_count governance) 1;
  Ok (mkGovernance active count (voting_delay governance)
        (voting_period governance) (execution_delay governance)
        (quorum_threshold governance),
      proposal).

Definition set_votes (p : GovernanceProposal) (yes no abstain total : Z)
    : GovernanceProposal :=
  mkProposal (proposer p) (title p) (description p) (proposal_type p)
    (execution_data p) (voting_start p) (voting_end p) yes no abstain total
    (is_executed p) (execution_timestamp p).

(** [dfi_tokens] is the value of the coin shown by the voter; the coin is
    only borrowed, and no record of the voter is kept. *)
Definition cast_vote (proposal : GovernanceProposal) (dfi_tokens vote_type : Z)
    (clock : Z) : result GovernanceProposal :=
  do _ <- assert ((vote_type >=? 1) && (vote_type <=? 3)) Defi.EInvalidProposal;
  let current_time := clock in
  do _ <- assert (current_time >=? voting_start proposal) Defi.EInvalidProposal;
  do _ <- assert (current_time <=? voting_end proposal) Defi.EInvalidProposal;
  let voting_power := dfi_tokens in
  do _ <- assert (voting_power >? 0) Defi.EInsufficientBalance;
  do '(yes, no, abstain) <-
    (if vote_type =? 1 then
       do yes <- add64 (yes_votes proposal) voting_power;
       Ok (yes, no_votes proposal, abstain_votes proposal)
     else if vote_type =? 2 then
       do no <- add64 (no_votes proposal) voting_power;
       Ok (yes_votes proposal, no, abstain_votes proposal)
     else
       do abstain <- add64 (abstain_votes proposal) voting_power;
       Ok (yes_votes proposal, no_votes proposal, abstain));
  do total <- add64 (total_voting_power proposal) voting_power;
  Ok (set_votes proposal yes no abstain total).

(** A ballot: the value of the coin shown, the vote and the time. *)
Definition cast_votes (proposal : GovernanceProposal)
    (ballots : list (Z * Z * Z)) : result GovernanceProposal :=
  foldl (fun acc '(power, vote, time) =>
           do p <- acc; cast_vote p power vote time)
    (Ok proposal) ballots.

(** The voting power of a list of ballots. *)
Definition ballots_power (ballots : list (Z * Z * Z)) : Z :=
  foldr (fun b acc => fst (fst b) + acc) 0 ballots.

End Governance.

(** ** Reference states

    Small concrete states on which the statements below are exercised. *)

Definition or_else {A : Type} (r : result A) (default : A) : A :=
  match r with
  | Ok a => a
  | Abort _ => default
  end.

Module Demo.

(** A protocol run by address 7 at the initial fee of 30 bps, without
    profiles. *)
Definition protocol : Defi.ProtocolState :=
  Defi.mkProtocol 1 7%N 0 30 100000000000 false ∅.

(** The pool of the specification's scenarios: 1,000,000 on each side. *)
Definition pool : Defi.LiquidityPool :=
  Defi.mkPool 1000000 1000000 1000000 30 1000000 0 0 1000000000000 0 false.


Definition tall_pool : Defi.LiquidityPool :=
  Defi.mkPool 1048576 17592186044415 4294967295 30 16777215999999 0 0
    18446744073708503040 0 false.

(** The aggregator after deployment by address 1, with reporters 11 to 14
    registered and authorised and the pair [IOTA/USD] added. *)
Definition pair : string := "IOTA/USD".

Definition enrol (aggregator : Oracle.OracleAggregator) (node : address)
    : Oracle.OracleAggregator :=
  let registered :=
    fst (or_else (Oracle.register_oracle_node aggregator 500 node)
           (aggregator, [])) in
  or_else (Oracle.authorize_oracle_node registered node 1%N) registered.

Definition enrolled : Oracle.OracleAggregator :=
  enrol (enrol (enrol (enrol (Oracle.init 1%N) 11%N) 12%N) 13%N) 14%N.

Definition ready : Oracle.OracleAggregator :=
  or_else (Oracle.add_price_feed enrolled pair 1%N) enrolled.

Definition submit (aggregator : Oracle.OracleAggregator) (p c t : Z)
    (node : address) : Oracle.OracleAggregator :=
  fst (or_else (Oracle.submit_price aggregator pair p c "feed" t node)
         (aggregator, [])).

(** Two submissions are buffered; the third, by reporter 13, completes the
    first round. *)
Definition two_buffered : Oracle.OracleAggregator :=
  submit (submit ready 199 1 1000 11%N) 199 1 2000 12%N.

Definition round1 : Oracle.OracleAggregator :=
  submit two_buffered 199 1 3000 13%N.

(** The three submissions of the first round, and the aggregator as the
    round finds it, with all three in the buffer. *)
Definition first_round : list Oracle.PriceSubmission :=
  [Oracle.mkSubmission 199 1 1000 "feed" [];
   Oracle.mkSubmission 199 1 2000 "feed" [];
   Oracle.mkSubmission 199 1 3000 "feed" []].

Definition three_buffered : Oracle.OracleAggregator :=
  Oracle.set_supported_pairs two_buffered
    (<[pair := Oracle.mkFeed pair 0 0 0 0 0 0
                 (zip [11%N; 12%N; 13%N] first_round) true]>
       (Oracle.supported_pairs two_buffered)).

(** A second round at four times the price trips the breaker. *)
Definition tripped : Oracle.OracleAggregator :=
  submit (submit round1 800 100 4000 12%N) 800 100 5000 13%N.


(** A stable pool with the reserves of [pool]. *)
Definition stable_pool : Defi.LiquidityPool :=
  Defi.mkPool 1000000 1000000 1000000 30 1000000 0 0 1000000000000 100 true.

(** The protocol with a profile for the trader 9, who has traded just
    under the volume of the second tier. *)
Definition trader_profile : Defi.UserProfile :=
  Defi.mkProfile 9%N 0 9999995000 0 0 0 1 0.

Definition protocol_with_trader : Defi.ProtocolState :=
  Defi.mkProtocol 1 7%N 0 30 100000000000 false {[ 9%N := trader_profile ]}.

(** Three coins for a batch, with their minimum outputs: the second
    minimum is out of reach and the third coin is empty. *)
Definition batch_coins : list Z := [1000; 2000; 0].
Definition batch_minimums : list Z := [0; 5000; 0].

(** A stake of 1,000,000 by address 9, as [start_yield_farming] makes it
    for a lock of 30 days, without compounding, and a stake of [2^63] made
    the same way. *)
Definition stake : Farming.YieldStake :=
  Farming.mkStake 9%N 1000000 "StakeToken" 0 2592000 1000 0 false 100.

(** A name of one byte, [0xFF], which is not valid UTF-8. *)
Definition invalid_name : string :=
  String.String (Ascii.ascii_of_N 255) String.EmptyString.

Definition large_stake : Farming.YieldStake :=
  Farming.mkStake 9%N 9223372036854775808 "StakeToken" 0 2592000 1000 0 false
    100.

(** A registry with the updater 5 and an oracle for [IOTA/USD] at the
    price 100. *)
Definition registry : Registry.OracleRegistry :=
  Registry.mkRegistry {[ pair := Registry.fresh_oracle pair 100 90 1000 ]}
    {[ 5%N := true ]} 80 500.

(** A proposal created at time 1000 under the initial governance state. *)
Definition proposal : Governance.GovernanceProposal :=
  Governance.mkProposal 9%N "fee" "lower the fee" 1 [] 18280 139240 0 0 0 0
    false None.

End Demo.

(** ** Checked arithmetic: inversion lemmas *)

Lemma checked_Ok max v r : checked max v = Ok r -> r = v /\ 0 <= v <= max.
Proof.
  unfold checked. destruct (Z.leb_spec 0 v), (Z.leb_spec v max); simpl;
    intros E; inversion E; subst; lia.
Qed.

Lemma checked_in max v : 0 <= v <= max -> checked max v = Ok v.
Proof.
  unfold checked. intros [Hlo Hhi].
  destruct (Z.leb_spec 0 v), (Z.leb_spec v max); simpl; auto; lia.
Qed.

Lemma checked_out max v : v < 0 \/ max < v -> checked max v = Abort ArithmeticError.
Proof.
  unfold checked. intros Hv.
  destruct (Z.leb_spec 0 v), (Z.leb_spec v max); simpl; auto; lia.
Qed.

Lemma div64_Ok a b r : div64 a b = Ok r -> r = a / b /\ b <> 0.
Proof.
  unfold div64. destruct (Z.eqb_spec b 0); intros H; inversion H; auto.
Qed.

Lemma div64_pos a b : b <> 0 -> div64 a b = Ok (a / b).
Proof. unfold div64. destruct (Z.eqb_spec b 0); congruence. Qed.

Lemma bind_Ok {A B} (m : result A) (k : A -> result B) b :
  bind m k = Ok b -> exists a, m = Ok a /\ k a = Ok b.
Proof. destruct m; simpl; intros H; [eauto | discriminate]. Qed.

Lemma assert_Ok b code u : assert b code = Ok u -> b = true.
Proof. destruct b; simpl; [auto | discriminate]. Qed.

Lemma assert_false code : assert false code = Abort (AssertionFailed code).
Proof. reflexivity. Qed.

Lemma bind_aborts {A B} (m : result A) (k : A -> result B) :
  aborts m -> aborts (bind m k).
Proof. intros [e ->]. exists e. reflexivity. Qed.

Lemma aborts_not_Ok {A} (r : result A) a : aborts r -> r <> Ok a.
Proof. intros [e ->]. discriminate. Qed.

Lemma result_cases {A} (r : result A) : succeeds r \/ aborts r.
Proof. destruct r; [left | right]; eexists; reflexivity. Qed.

(** Peel the binds of a successful computation, then turn every checked
    operation that succeeded into the equation and the bounds it stands
    for. *)
Ltac peel H :=
  repeat match type of H with
  | bind _ _ = Ok _ =>
      let x := fresh "v" in
      let Hx := fresh "Hv" in
      apply bind_Ok in H as (x & Hx & H)
  | (let '(_, _) := ?p in _) = Ok _ => destruct p
  end.

Ltac arith_facts :=
  repeat match goal with
  | H : add64 _ _ = Ok _ |- _ => apply checked_Ok in H as [? ?]
  | H : sub64 _ _ = Ok _ |- _ => apply checked_Ok in H as [? ?]
  | H : mul64 _ _ = Ok _ |- _ => apply checked_Ok in H as [? ?]
  | H : add128 _ _ = Ok _ |- _ => apply checked_Ok in H as [? ?]
  | H : mul128 _ _ = Ok _ |- _ => apply checked_Ok in H as [? ?]
  | H : cast_u64 _ = Ok _ |- _ => apply checked_Ok in H as [? ?]
  | H : Defi.balance_join _ _ = Ok _ |- _ => apply checked_Ok in H as [? ?]
  | H : div64 _ _ = Ok _ |- _ => apply div64_Ok in H as [? ?]
  | H : div128 _ _ = Ok _ |- _ => apply div64_Ok in H as [? ?]
  | H : assert _ _ = Ok _ |- _ =>
      apply assert_Ok in H;
      rewrite ?andb_true_iff, ?negb_true_iff, ?Z.gtb_lt, ?Z.geb_le, ?Z.leb_le,
        ?Z.ltb_lt, ?N.eqb_eq in H
  end.

(** ** The square root loop *)

Section Sqrt.
Import Defi.

(** One Newton step from above stays above the root and halves the
    distance to it. *)
Lemma newton_step x g :
  0 <= x -> Z.sqrt x < g ->
  Z.sqrt x <= (g + x / g) / 2 /\ (g + x / g) / 2 - Z.sqrt x <= (g - Z.sqrt x) / 2.
Proof.
  intros Hx Hg.
  pose proof (Z.sqrt_spec x Hx) as [Hlo Hhi]. cbv zeta in Hlo, Hhi.
  pose proof (Z.sqrt_nonneg x) as Hs.
  set (s := Z.sqrt x) in *.
  assert (Hgpos : 0 < g) by lia.
  assert (Hq : x / g <= s).
  { apply Z.lt_succ_r. apply Z.div_lt_upper_bound; [lia | nia]. }
  pose proof (Z.mul_div_le x g Hgpos) as Hq1.
  pose proof (Z.mul_succ_div_gt x g Hgpos) as Hq2.
  set (q := x / g) in *.
  split.
  - apply Z.div_le_lower_bound; [lia |].
    destruct (Z.le_gt_cases (2 * s) (g + q)) as [|Hc]; [lia |].
    exfalso. nia.
  - apply Z.div_le_lower_bound; [lia |].
    pose proof (Z.mul_div_le (g + q) 2 ltac:(lia)).
    pose proof (Z.mul_div_le (g - s) 2 ltac:(lia)).
    pose proof (Z.mul_succ_div_gt (g - s) 2 ltac:(lia)).
    pose proof (Z.mul_succ_div_gt (g + q) 2 ltac:(lia)).
    lia.
Qed.

(** From a guess at or above the root whose square fits a [u128], the loop
    reaches the root once the fuel covers the binary length of the
    distance. *)
Lemma sqrt_loop_reaches fuel : forall x g,
  0 < x -> Z.sqrt x <= g -> 0 < g -> g * g <= u128_max ->
  g - Z.sqrt x < 2 ^ Z.of_nat fuel ->
  sqrt_loop (S fuel) x g = Ok (Z.sqrt x).
Proof.
  induction fuel as [|fuel IH]; intros x g Hx Hs Hg Hsq Hdist.
  - assert (g = Z.sqrt x) as -> by (change (2 ^ Z.of_nat 0) with 1 in Hdist; lia).
    pose proof (Z.sqrt_spec x ltac:(lia)) as [Hlo _]. cbv zeta in Hlo.
    simpl. unfold mul128. rewrite checked_in by lia. simpl.
    destruct (Z.gtb_spec (Z.sqrt x * Z.sqrt x) x); [lia | reflexivity].
  - pose proof (Z.sqrt_spec x ltac:(lia)) as [Hlo Hhi]. cbv zeta in Hlo, Hhi.
    change (sqrt_loop (S (S fuel)) x g) with
      (do sq <- mul128 g g;
       if sq >? x then
         do q <- div128 x g;
         do s <- add128 g q;
         do g' <- div128 s 2;
         sqrt_loop (S fuel) x g'
       else Ok g).
    unfold mul128. rewrite checked_in by lia. cbn [bind].
    destruct (Z.gtb_spec (g * g) x) as [Hgt | Hle].
    + assert (Hlt : Z.sqrt x < g) by nia.
      destruct (newton_step x g ltac:(lia) Hlt) as [Hge Hhalf].
      assert (Hq : x / g <= Z.sqrt x).
      { apply Z.lt_succ_r. apply Z.div_lt_upper_bound; [lia | nia]. }
      assert (Hq0 : 0 <= x / g) by (apply Z.div_pos; lia).
      unfold div128 at 1. destruct (Z.eqb_spec g 0); [lia |]. cbn [bind].
      unfold add128. rewrite checked_in; [| split; [lia | ]].
      2:{ destruct (Z.eq_dec g 1) as [-> | ]; [unfold u128_max; lia | nia]. }
      cbn [bind]. unfold div128. change (2 =? 0) with false. cbn [bind].
      assert (Hle' : (g + x / g) / 2 <= g).
      { apply Z.div_le_upper_bound; lia. }
      apply IH; try lia.
      * pose proof (Z.sqrt_pos x). lia.
      * nia.
      * rewrite Nat2Z.inj_succ, Z.pow_succ_r in Hdist by lia.
        assert ((g - Z.sqrt x) / 2 < 2 ^ Z.of_nat fuel).
        { apply Z.div_lt_upper_bound; lia. }
        lia.
    + assert (g = Z.sqrt x) as -> by nia. reflexivity.
Qed.

(** Below [2^65] the first guess [x / 2] squares inside a [u128] and the
    function returns the truncated square root. *)
Lemma sqrt_u128_small x :
  0 <= x < 2 ^ 65 -> sqrt_u128 x = Ok (Z.sqrt x).
Proof.
  intros [H0 H1]. unfold sqrt_u128.
  destruct (Z.eqb_spec x 0) as [-> | Hne]; [reflexivity |].
  unfold div128. change (2 =? 0) with false. cbn [bind].
  pose proof (Z.sqrt_spec x H0) as [Hlo Hhi]. cbv zeta in Hlo, Hhi.
  pose proof (Z.sqrt_nonneg x) as Hs.
  assert (Hhalf : x / 2 < 2 ^ 64).
  { apply Z.div_lt_upper_bound; lia. }
  assert (Hhalf0 : 0 <= x / 2) by (apply Z.div_pos; lia).
  pose proof (Z.mul_succ_div_gt x 2 ltac:(lia)) as Hd.
  apply sqrt_loop_reaches.
  - lia.
  - destruct (Z.eqb_spec (x / 2) 0) as [E | E]; [nia |].
    destruct (Z.le_gt_cases (Z.sqrt x) 1); [lia | nia].
  - destruct (Z.eqb_spec (x / 2) 0); lia.
  - destruct (Z.eqb_spec (x / 2) 0); [unfold u128_max; lia |].
    unfold u128_max.
    assert (x / 2 <= 2 ^ 64 - 1) by lia.
    change (2 ^ 64) with 18446744073709551616 in *. nia.
  - destruct (Z.eqb_spec (x / 2) 0).
    + change (Z.of_nat 129) with 129. change (2 ^ 129) with 680564733841876926926749214863536422912. lia.
    + change (Z.of_nat 129) with 129. change (2 ^ 129) with 680564733841876926926749214863536422912.
      change (2 ^ 64) with 18446744073709551616 in *. lia.
Qed.

(** From [2^65] on, the very first square [guess * guess] leaves the
    [u128] range and the function aborts. *)
Lemma sqrt_u128_large x :
  2 ^ 65 <= x -> sqrt_u128 x = Abort ArithmeticError.
Proof.
  intros Hx. unfold sqrt_u128.
  change (2 ^ 65) with 36893488147419103232 in Hx.
  destruct (Z.eqb_spec x 0); [lia |].
  unfold div128. change (2 =? 0) with false. cbn [bind].
  assert (Hhalf : 18446744073709551616 <= x / 2).
  { apply Z.div_le_lower_bound; lia. }
  destruct (Z.eqb_spec (x / 2) 0); [lia |].
  change sqrt_fuel with (S 129).
  cbn [sqrt_loop]. unfold mul128. rewrite checked_out; [reflexivity |].
  right. unfold u128_max. nia.
Qed.

(** The fuel of the model never runs out: on every input the loop has
    ended, with a value or with an arithmetic abort, before then. *)
Lemma sqrt_u128_fuel x : 0 <= x -> sqrt_u128 x <> Abort OutOfFuel.
Proof.
  intros Hx. destruct (Z.lt_ge_cases x (2 ^ 65)).
  - rewrite sqrt_u128_small by lia. discriminate.
  - rewrite sqrt_u128_large by lia. discriminate.
Qed.

End Sqrt.

(** ** The pool: swaps *)

Section Pool.
Import Defi.

Lemma balance_split_Ok self value rest taken :
  balance_split self value = Ok (rest, taken) ->
  rest = self - value /\ taken = value /\ value <= self.
Proof.
  unfold balance_split. destruct (Z.leb_spec value self); intros E;
    inversion E; subst; auto.
Qed.

(** The algebra of one constant-product swap: with the output rounded
    down and a fee between 0 and 100%, the product of the reserves does not
    fall, and it rises as soon as the fee is positive. *)
Lemma constant_product_step rin rout ain f aout :
  0 < rin -> 0 < rout -> 0 < ain -> 0 <= f <= 10000 ->
  aout = (ain * (10000 - f) * rout) / (rin * 10000 + ain * (10000 - f)) ->
  0 <= aout < rout /\
  rin * rout <= (rin + ain) * (rout - aout) /\
  (0 < f -> rin * rout < (rin + ain) * (rout - aout)).
Proof.
  intros Hrin Hrout Hain Hf ->.
  set (a' := ain * (10000 - f)).
  set (d := rin * 10000 + a').
  assert (Ha' : 0 <= a') by (unfold a'; nia).
  assert (Hd : 0 < d) by (unfold d; lia).
  pose proof (Z.mul_div_le (a' * rout) d Hd) as Hfloor.
  assert (H0 : 0 <= a' * rout / d) by (apply Z.div_pos; nia).
  set (aout := a' * rout / d) in *.
  assert (Hlt : aout < rout).
  { destruct (Z.lt_ge_cases aout rout) as [|Hge]; [assumption | exfalso].
    assert (rout * d <= aout * d) by nia.
    assert (a' * rout < rout * d) by (unfold d; nia).
    lia. }
  assert (Hid : 10000 * ((rin + ain) * (rout - aout) - rin * rout)
                = (a' * rout - d * aout) + ain * f * (rout - aout)).
  { unfold d, a'. ring. }
  assert (Hfee : 0 <= ain * f * (rout - aout)) by nia.
  split; [lia |]. split; [lia |].
  intros Hpos. assert (0 < ain * f * (rout - aout)) by nia. lia.
Qed.

Lemma calculate_constant_product_output_Ok ain rin rout f out :
  calculate_constant_product_output ain rin rout f = Ok out ->
  f <= 10000 /\
  out = (ain * (10000 - f) * rout) / (rin * 10000 + ain * (10000 - f)).
Proof.
  unfold calculate_constant_product_output. intros H.
  peel H. arith_facts. subst. split; [lia | reflexivity].
Qed.

Lemma swap_exact_input_reserves pool protocol token_in min_out sender out :
  swap_exact_input pool protocol token_in min_out sender = Ok out ->
  exists amount_out,
    (if is_stable_pool pool
     then calculate_stable_swap_output token_in (token_a_reserve pool)
            (token_b_reserve pool) (amplification_coefficient pool)
     else calculate_constant_product_output token_in (token_a_reserve pool)
            (token_b_reserve pool) (swap_fee_rate pool)) = Ok amount_out /\
    0 < amount_out /\ min_out <= amount_out /\
    swapped_token_out out = amount_out /\
    token_a_reserve (swapped_pool out) = token_a_reserve pool + token_in /\
    token_b_reserve (swapped_pool out) = token_b_reserve pool - amount_out.
Proof.
  unfold swap_exact_input. intros H. peel H.
  match goal with Hs : balance_split _ _ = Ok _ |- _ =>
    apply balance_split_Ok in Hs as (-> & -> & ?) end.
  arith_facts. inversion H; subst; clear H. cbn.
  eexists; split; [eassumption |]. repeat split; lia.
Qed.

End Pool.

(** ** The pool: statements *)

Section PoolClaims.
Import Defi.

(** C1. Every successful [swap_exact_input] on a non-stable pool with
    positive reserves and a positive input leaves the product of the two
    reserves at least as large as before, and strictly larger when the
    pool's fee rate is positive. *)
Theorem swap_exact_input_reserve_product
    pool protocol token_in min_amount_out sender out :
  in_u64 (swap_fee_rate pool) ->
  is_stable_pool pool = false ->
  0 < token_a_reserve pool -> 0 < token_b_reserve pool -> 0 < token_in ->
  swap_exact_input pool protocol token_in min_amount_out sender = Ok out ->
  reserve_product pool <= reserve_product (swapped_pool out) /\
  (0 < swap_fee_rate pool ->
   reserve_product pool < reserve_product (swapped_pool out)).
Proof.
  intros [Hfee _] Hstable Ha Hb Hin Hswap.
  apply swap_exact_input_reserves in Hswap
    as (amount_out & Hout & _ & _ & _ & Hra & Hrb).
  rewrite Hstable in Hout.
  apply calculate_constant_product_output_Ok in Hout as [Hmax Hout].
  unfold reserve_product. rewrite Hra, Hrb.
  destruct (constant_product_step (token_a_reserve pool) (token_b_reserve pool)
              token_in (swap_fee_rate pool) amount_out) as (_ & Hle & Hlt);
    auto.
Qed.

Lemma swap_exact_input_reserve_product_witness :
  exists out,
    swap_exact_input Demo.pool Demo.protocol 10000 0 9%N = Ok out /\
    swapped_token_out out = 9871 /\
    reserve_product Demo.pool < reserve_product (swapped_pool out).
Proof.
  eexists. split; [vm_compute; reflexivity |]. split; [reflexivity |].
  apply (swap_exact_input_reserve_product Demo.pool Demo.protocol 10000 0 9%N).
  - split; vm_compute; discriminate.
  - reflexivity.
  - reflexivity.
  - reflexivity.
  - reflexivity.
  - vm_compute; reflexivity.
  - reflexivity.
Defined.

(** *** Flash loans *)

Lemma flash_loan_Ok pool loan_amount pool1 coin receipt :
  flash_loan pool loan_amount = Ok (pool1, coin, receipt) ->
  loan_amount <= token_a_reserve pool / 10 /\
  0 <= loan_amount * 9 <= u64_max /\
  coin = loan_amount /\
  amount receipt = loan_amount /\
  fee receipt = loan_amount * 9 / 10000 /\
  token_a_reserve pool1 = token_a_reserve pool - loan_amount /\
  token_b_reserve pool1 = token_b_reserve pool.
Proof.
  unfold flash_loan. intros H. peel H.
  match goal with Hs : balance_split _ _ = Ok _ |- _ =>
    apply balance_split_Ok in Hs as (-> & -> & ?) end.
  arith_facts. inversion H; subst; clear H. cbn. repeat split; lia.
Qed.

Lemma flash_loan_too_large pool loan_amount :
  token_a_reserve pool < 10 * loan_amount ->
  flash_loan pool loan_amount = Abort (AssertionFailed EInsufficientLiquidity).
Proof.
  intros Hbig. unfold flash_loan.
  rewrite div64_pos by lia. cbn [bind].
  assert (Hq : token_a_reserve pool / 10 < loan_amount).
  { apply Z.div_lt_upper_bound; lia. }
  destruct (Z.leb_spec loan_amount (token_a_reserve pool / 10)); [lia |].
  reflexivity.
Qed.

Lemma repay_flash_loan_short pool repayment receipt :
  in_u64 (amount receipt + fee receipt) ->
  repayment < amount receipt + fee receipt ->
  repay_flash_loan pool repayment receipt
  = Abort (AssertionFailed EInsufficientBalance).
Proof.
  intros Hsum Hshort. unfold repay_flash_loan, add64.
  rewrite checked_in by exact Hsum. cbn [bind].
  destruct (Z.geb_spec repayment (amount receipt + fee receipt)); [lia |].
  reflexivity.
Qed.

Lemma repay_flash_loan_covered pool repayment receipt :
  in_u64 (amount receipt + fee receipt) ->
  in_u64 (token_a_reserve pool + repayment) ->
  amount receipt + fee receipt <= repayment ->
  repay_flash_loan pool repayment receipt
  = Ok (set_reserves pool (token_a_reserve pool + repayment)
          (token_b_reserve pool)).
Proof.
  intros Hsum Hroom Hcover. unfold repay_flash_loan, add64, balance_join, add64.
  rewrite checked_in by exact Hsum. cbn [bind].
  destruct (Z.geb_spec repayment (amount receipt + fee receipt)); [| lia].
  cbn [assert bind]. rewrite checked_in by exact Hroom. reflexivity.
Qed.

Lemma repay_flash_loan_enough pool repayment receipt :
  in_u64 (amount receipt + fee receipt) ->
  amount receipt + fee receipt <= repayment ->
  repay_flash_loan pool repayment receipt
  <> Abort (AssertionFailed EInsufficientBalance).
Proof.
  intros Hsum Hcover. unfold repay_flash_loan, add64, balance_join, add64.
  rewrite checked_in by exact Hsum. cbn [bind].
  destruct (Z.geb_spec repayment (amount receipt + fee receipt)); [| lia].
  cbn [assert bind]. unfold checked.
  destruct ((0 <=? token_a_reserve pool + repayment)
            && (token_a_reserve pool + repayment <=? u64_max));
    cbn [bind]; discriminate.
Qed.

(** C7. [flash_loan] fails whenever the requested amount exceeds one tenth
    of the reserve.  For a receipt issued by [flash_loan], [repay_flash_loan]
    fails with [EInsufficientBalance] exactly when the repayment is below
    the principal plus [floor(amount * 9 / 10000)]; it fails at all exactly
    then, given that the reserve joined with the repayment is a [u64]
    (both are balances of one coin type, whose supply is a [u64]); and a
    successful repayment adds the whole repayment coin to the reserve.  On
    a reserve of 1,000,000 a loan of 100,000 is granted, a repayment of
    100,089 fails and one of 100,090 succeeds and leaves 1,000,090 in the
    reserve. *)
Theorem flash_loan_repayment_threshold pool loan_amount :
  in_u64 (token_a_reserve pool) -> 0 <= loan_amount ->
  (token_a_reserve pool < 10 * loan_amount -> aborts (flash_loan pool loan_amount)) /\
  (forall pool1 coin receipt,
     flash_loan pool loan_amount = Ok (pool1, coin, receipt) ->
     forall pool2 repayment,
       (repay_flash_loan pool2 repayment receipt
        = Abort (AssertionFailed EInsufficientBalance) <->
        repayment < loan_amount + loan_amount * 9 / 10000) /\
       (in_u64 (token_a_reserve pool2 + repayment) ->
        (aborts (repay_flash_loan pool2 repayment receipt) <->
         repayment < loan_amount + loan_amount * 9 / 10000)) /\
       (forall pool3, repay_flash_loan pool2 repayment receipt = Ok pool3 ->
          token_a_reserve pool3 = token_a_reserve pool2 + repayment)) /\
  (token_a_reserve pool = 1000000 -> loan_amount = 100000 ->
   exists pool1 receipt,
     flash_loan pool loan_amount = Ok (pool1, 100000, receipt) /\
     token_a_reserve pool1 = 900000 /\
     aborts (repay_flash_loan pool1 100089 receipt) /\
     exists pool2, repay_flash_loan pool1 100090 receipt = Ok pool2 /\
                   token_a_reserve pool2 = 1000000 + 90).
Proof.
  intros Hres Hamt. split; [| split].
  - intros Hbig. eexists. apply flash_loan_too_large. exact Hbig.
  - intros pool1 coin receipt Hloan pool2 repayment.
    apply flash_loan_Ok in Hloan as (Hle & Hnine & _ & Ha & Hf & _ & _).
    assert (Hfee : 0 <= loan_amount * 9 / 10000 <= loan_amount).
    { split; [apply Z.div_pos; lia |].
      apply Z.div_le_upper_bound; lia. }
    assert (Htenth : token_a_reserve pool / 10 <= u64_max / 10).
    { apply Z.div_le_mono; [lia | apply Hres]. }
    assert (Hsum : in_u64 (amount receipt + fee receipt)).
    { rewrite Ha, Hf. unfold in_u64, u64_max in *.
      change (18446744073709551615 / 10) with 1844674407370955161 in Htenth.
      lia. }
    assert (Hshort : repayment < loan_amount + loan_amount * 9 / 10000 ->
                     repay_flash_loan pool2 repayment receipt
                     = Abort (AssertionFailed EInsufficientBalance)).
    { intros Hlt. apply repay_flash_loan_short; [exact Hsum |].
      rewrite Ha, Hf. exact Hlt. }
    split; [| split].
    + split; [| exact Hshort].
      intros Hab. destruct (Z.lt_ge_cases repayment
                              (loan_amount + loan_amount * 9 / 10000))
        as [| Hge]; [assumption | exfalso].
      apply (repay_flash_loan_enough pool2 repayment receipt Hsum);
        [rewrite Ha, Hf; lia | exact Hab].
    + intros Hroom. split.
      * intros Hab. destruct (Z.lt_ge_cases repayment
                                (loan_amount + loan_amount * 9 / 10000))
          as [| Hge]; [assumption | exfalso].
        rewrite repay_flash_loan_covered in Hab by (auto; rewrite ?Ha, ?Hf; lia).
        destruct Hab as [e He]. discriminate.
      * intros Hlt. eexists. apply Hshort. exact Hlt.
    + intros pool3 Hrepay. unfold repay_flash_loan in Hrepay.
      peel Hrepay. arith_facts. inversion Hrepay; subst. cbn. lia.
  - intros Hr ->. unfold flash_loan, repay_flash_loan. rewrite Hr. cbn.
    do 2 eexists. split; [reflexivity |]. cbn. split; [reflexivity |].
    split; [eexists; reflexivity |].
    eexists. split; reflexivity.
Qed.

Lemma flash_loan_repayment_threshold_witness :
  aborts (flash_loan Demo.pool 100001) /\
  exists pool1 receipt,
    flash_loan Demo.pool 100000 = Ok (pool1, 100000, receipt) /\
    aborts (repay_flash_loan pool1 100089 receipt) /\
    exists pool2, repay_flash_loan pool1 100090 receipt = Ok pool2 /\
                  token_a_reserve pool2 = 1000090.
Proof.
  split.
  - apply (flash_loan_repayment_threshold Demo.pool 100001).
    + split; vm_compute; discriminate.
    + vm_compute; discriminate.
    + reflexivity.
  - destruct (flash_loan_repayment_threshold Demo.pool 100000) as (_ & _ & Hex).
    + split; vm_compute; discriminate.
    + vm_compute; discriminate.
    + destruct (Hex eq_refl eq_refl) as (pool1 & receipt & H1 & _ & H2 & H3).
      exists pool1, receipt. auto.
Defined.

(** *** Pool creation and the LP supply *)

(** Creation never gets past the LP currency: whatever the guards and the
    arithmetic let through stops at [coin::create_currency]. *)
Lemma create_liquidity_pool_never_succeeds protocol a b stable amp sender :
  aborts (create_liquidity_pool protocol a b stable amp sender).
Proof.
  destruct (result_cases (create_liquidity_pool protocol a b stable amp sender))
    as [[[pool lp] Hok] | Hab]; [exfalso | exact Hab].
  unfold create_liquidity_pool in Hok. peel Hok.
  match goal with Hc : coin_create_currency _ = Ok _ |- _ => discriminate Hc end.
Qed.

Lemma create_liquidity_pool_zero protocol a b stable amp sender :
  a = 0 \/ b = 0 ->
  is_paused protocol = false -> sender = admin protocol ->
  create_liquidity_pool protocol a b stable amp sender
  = Abort (AssertionFailed EInsufficientLiquidity).
Proof.
  intros Hz Hp ->.
  assert (Hguard : (a >? 0) && (b >? 0) = false).
  { destruct Hz as [-> | ->]; [reflexivity | apply andb_false_r]. }
  unfold create_liquidity_pool.
  rewrite Hp, N.eqb_refl, Hguard. reflexivity.
Qed.

(** Where the root is computed and everything fits, the abort is the one
    of the LP currency. *)
Lemma create_liquidity_pool_small protocol a b stable amp sender :
  is_paused protocol = false -> sender = admin protocol ->
  0 < a -> 0 < b -> a * b <= u64_max -> b * 1000000 <= u64_max ->
  create_liquidity_pool protocol a b stable amp sender = Abort BadWitness.
Proof.
  intros Hp -> Ha Hb Hk Hprice. unfold create_liquidity_pool.
  rewrite Hp, N.eqb_refl. cbn [negb assert bind].
  destruct (Z.gtb_spec a 0); [| lia]. destruct (Z.gtb_spec b 0); [| lia].
  cbn [andb assert bind].
  assert (Hprod : 0 < a * b) by nia.
  unfold mul128. rewrite checked_in by (unfold u64_max, u128_max in *; lia).
  cbn [bind].
  rewrite sqrt_u128_small
    by (unfold u64_max in Hk; change (2 ^ 65) with 36893488147419103232; lia).
  cbn [bind].
  pose proof (Z.sqrt_nonneg (a * b)).
  pose proof (Z.sqrt_le_lin (a * b) ltac:(lia)).
  unfold cast_u64, mul64. rewrite !checked_in by lia. cbn [bind].
  rewrite div64_pos by lia. reflexivity.
Qed.

(** [sqrt_u128] does not return the root on every input.  At [x = 2^65],
    the product of the deposits [2^33] and [2^32], the first guess is
    [2^64] and its square overflows. *)
Lemma sqrt_u128_not_total :
  in_u128 (2 ^ 65) /\
  sqrt_u128 (2 ^ 65) = Abort ArithmeticError /\
  Z.sqrt (2 ^ 65) = 6074000999 /\
  sqrt_u128 (2 ^ 65) <> Ok (Z.sqrt (2 ^ 65)) /\
  create_liquidity_pool Demo.protocol (2 ^ 33) (2 ^ 32) false 0 7%N
  = Abort ArithmeticError.
Proof.
  split; [split; vm_compute; discriminate |].
  split; [vm_compute; reflexivity |].
  split; [vm_compute; reflexivity |].
  split; [vm_compute; discriminate | vm_compute; reflexivity].
Qed.

(** C8, evaluated on the code: the claim is that a creation with two
    deposits above zero sets the LP supply to the truncated square root of
    their product, [sqrt_u128] returning that root on every input.  With
    the deposits of the repository's own creation test, 100,000,000,000 of
    each coin by the admin, the product [10^22] fits a [u128] and its root
    is [10^11], yet [sqrt_u128] aborts on it, the square of its first guess
    overflowing, and so does the creation; the smallest failing input of
    [sqrt_u128] is [2^65].  A creation whose arithmetic goes through, such
    as 1,000,000 of each coin, aborts too, where it creates the LP
    currency. *)
Theorem create_liquidity_pool_aborts_on_test_deposits :
  in_u128 (100000000000 * 100000000000) /\
  Z.sqrt (100000000000 * 100000000000) = 100000000000 /\
  sqrt_u128 (100000000000 * 100000000000) = Abort ArithmeticError /\
  create_liquidity_pool Demo.protocol 100000000000 100000000000 false 100 7%N
  = Abort ArithmeticError /\
  sqrt_u128 (2 ^ 65 - 1) = Ok (Z.sqrt (2 ^ 65 - 1)) /\
  sqrt_u128 (2 ^ 65) = Abort ArithmeticError /\
  create_liquidity_pool Demo.protocol 1000000 1000000 false 0 7%N
  = Abort BadWitness.
Proof.
  split; [split; vm_compute; discriminate |].
  split; [vm_compute; reflexivity |].
  split; [vm_compute; reflexivity |].
  split; [vm_compute; reflexivity |].
  split; [apply sqrt_u128_small; split; vm_compute; [discriminate | reflexivity] |].
  split; [vm_compute; reflexivity |].
  apply create_liquidity_pool_small;
    first [reflexivity | vm_compute; discriminate].
Qed.

(** *** The ceiling on the reserve product *)




End PoolClaims.

(** ** The oracle: aggregation rounds *)

Section Rounds.
Import Oracle.

Lemma table_borrow_Ok {K V} `{Countable K} (t : gmap K V) k v :
  table_borrow t k = Ok v -> t !! k = Some v.
Proof. unfold table_borrow. destruct (t !! k); intros E; inversion E; auto. Qed.

Lemma table_borrow_Some {K V} `{Countable K} (t : gmap K V) k v :
  t !! k = Some v -> table_borrow t k = Ok v.
Proof. unfold table_borrow. intros ->. reflexivity. Qed.

Lemma collect_valid_Ok stale t subs : forall acc acc',
  collect_valid stale t subs acc = Ok acc' ->
  valid_prices acc'
  = valid_prices acc ++ map price (fresh_submissions stale t subs) /\
  valid_confidences acc'
  = valid_confidences acc ++ map confidence (fresh_submissions stale t subs) /\
  total_weight acc'
  = total_weight acc + confidence_sum (fresh_submissions stale t subs) /\
  valid_count acc'
  = valid_count acc + Z.of_nat (length (fresh_submissions stale t subs)).
Proof.
  induction subs as [| s subs IH]; intros acc acc' H.
  - inversion H; subst. cbn. rewrite !app_nil_r. repeat split; lia.
  - cbn [collect_valid] in H. peel H. arith_facts. subst.
    unfold fresh_submissions, is_fresh in *. cbn [List.filter].
    match goal with Hc : (if ?b then _ else _) = Ok _ |- _ =>
      destruct b eqn:Hage end.
    + match goal with Hc : bind _ _ = Ok _ |- _ => peel Hc; arith_facts;
        inversion Hc; subst; clear Hc end.
      apply IH in H as (Hp & Hc & Hw & Hn).
      cbn [valid_prices valid_confidences total_weight valid_count] in Hp, Hc, Hw, Hn.
      rewrite Hp, Hc, Hw, Hn, <- !app_assoc.
      cbn [map length app]. rewrite Nat2Z.inj_succ.
      unfold confidence_sum; cbn [foldr].
      repeat split; try reflexivity; lia.
    + match goal with Hc : Ok _ = Ok _ |- _ => inversion Hc; subst; clear Hc end.
      apply IH in H. exact H.
Qed.

Lemma weighted_sum_Ok l : forall acc r,
  weighted_sum (map price l) (map confidence l) acc = Ok r ->
  r = acc + share_sum l.
Proof.
  induction l as [| s l IH]; intros acc r H.
  - inversion H; subst. cbn. lia.
  - cbn [map weighted_sum] in H. peel H. arith_facts. subst.
    apply IH in H. unfold share_sum in *. cbn [foldr]. lia.
Qed.

Lemma trigger_circuit_breaker_Ok aggregator pair p old t aggregator' events :
  trigger_circuit_breaker aggregator pair p old t = Ok (aggregator', events) ->
  exists cb deviation,
    circuit_breakers aggregator !! pair = Some cb /\
    events = [CircuitBreakerTriggered pair p old deviation t] /\
    aggregator'
    = set_circuit_breakers aggregator
        (<[pair := mkBreaker (breaker_pair cb) true p t (reset_threshold cb)
                     (consecutive_anomalies cb + 1) (last_normal_price cb)]>
           (circuit_breakers aggregator)).
Proof.
  unfold trigger_circuit_breaker. intros H. peel H.
  match goal with Hb : table_borrow _ _ = Ok _ |- _ =>
    apply table_borrow_Ok in Hb end.
  arith_facts. subst. inversion H; subst; clear H.
  do 2 eexists. split; [eassumption |]. split; reflexivity.
Qed.

(** What a successful round did: it either tripped the breaker, leaving
    the feed alone, or published the price and the confidence computed from
    the fresh submissions and left the first entry of the old buffer in
    the new one. *)
Lemma aggregate_prices_Ok aggregator pair t aggregator' events :
  aggregate_prices aggregator pair t = Ok (aggregator', events) ->
  exists feed,
    supported_pairs aggregator !! pair = Some feed /\
    min_sources (aggregation_settings aggregator)
    <= Z.of_nat (length (round_fresh aggregator feed t)) /\
    length (round_fresh aggregator feed t) <> 0%nat /\
    ((published events = false /\
      0 < current_price feed /\
      (exists deviation,
         calculate_price_deviation
           (round_price (round_fresh aggregator feed t)) (current_price feed)
         = Ok deviation /\
         CIRCUIT_BREAKER_THRESHOLD < deviation) /\
      trigger_circuit_breaker aggregator pair
        (round_price (round_fresh aggregator feed t)) (current_price feed) t
      = Ok (aggregator', events))
     \/
     (exists first deviation,
        head (price_sources feed) = Some first /\
        (0 < current_price feed ->
         circuit_breaker_enabled (aggregation_settings aggregator) = true ->
         calculate_price_deviation
           (round_price (round_fresh aggregator feed t)) (current_price feed)
         = Ok deviation /\
         deviation <= CIRCUIT_BREAKER_THRESHOLD) /\
        events = [PriceUpdated pair (round_price (round_fresh aggregator feed t))
                    (current_price feed)
                    (round_confidence (round_fresh aggregator feed t))
                    (Z.of_nat (length (round_fresh aggregator feed t)))
                    deviation t] /\
        aggregator'
        = set_supported_pairs aggregator
            (<[pair := set_price_sources
                         (publish feed (round_price (round_fresh aggregator feed t))
                            (round_confidence (round_fresh aggregator feed t)) t
                            (Z.of_nat (length (round_fresh aggregator feed t))))
                         [first]]>
               (supported_pairs aggregator)))).
Proof.
  unfold aggregate_prices. intros H.
  apply bind_Ok in H as (feed & Hfeed & H). apply table_borrow_Ok in Hfeed.
  apply bind_Ok in H as (valid & Hvalid & H).
  apply collect_valid_Ok in Hvalid as (Hp & Hc & Hw & Hn).
  cbn [valid_prices valid_confidences total_weight valid_count app] in Hp, Hc, Hw, Hn.
  rewrite Z.add_0_l in Hw, Hn.
  fold (round_fresh aggregator feed t) in Hp, Hc, Hw, Hn.
  remember (round_fresh aggregator feed t) as fresh eqn:Hfresh in *.
  rewrite Hp, Hc, Hw, Hn in H. clear Hp Hc Hw Hn valid.
  apply bind_Ok in H as (u & Hmin & H). arith_facts.
  apply bind_Ok in H as (sum & Hsum & H).
  apply weighted_sum_Ok in Hsum. rewrite Z.add_0_l in Hsum. subst sum.
  apply bind_Ok in H as (weighted & Hweighted & H).
  assert (Hprice : weighted = round_price fresh).
  { unfold round_price.
    destruct (confidence_sum fresh >? 0).
    - peel Hweighted. arith_facts. subst. reflexivity.
    - inversion Hweighted; subst. reflexivity. }
  apply bind_Ok in H as (avg & Havg & H). arith_facts.
  assert (Hconf : avg = round_confidence fresh) by (subst avg; reflexivity).
  apply bind_Ok in H as (deviation & Hdev & H).
  exists feed. rewrite <- Hfresh. split; [exact Hfeed |].
  split; [exact Hmin |].
  split; [lia |].
  destruct ((current_price feed >? 0) && circuit_breaker_enabled _
            && (deviation >? CIRCUIT_BREAKER_THRESHOLD)) eqn:Htrip.
  - left. rewrite !andb_true_iff, !Z.gtb_lt in Htrip.
    destruct Htrip as [[Hold _] Hbig].
    destruct (Z.gtb_spec (current_price feed) 0) as [_ | ?]; [| lia].
    rewrite Hprice in H, Hdev.
    split; [| split; [exact Hold | split; [eauto | exact H]]].
    apply trigger_circuit_breaker_Ok in H as (cb & d & _ & -> & _). reflexivity.
  - right.
    assert (Hcalm : 0 < current_price feed ->
                    circuit_breaker_enabled (aggregation_settings aggregator) = true ->
                    calculate_price_deviation weighted (current_price feed)
                    = Ok deviation /\ deviation <= CIRCUIT_BREAKER_THRESHOLD).
    { intros Hold Hen. rewrite Hen in Htrip.
      destruct (Z.gtb_spec (current_price feed) 0) as [_ | ?]; [| lia].
      destruct (Z.gtb_spec deviation CIRCUIT_BREAKER_THRESHOLD);
        [discriminate | auto]. }
    clear Hdev. rewrite Hprice in Hcalm.
    peel H.
    repeat match goal with
    | Hb : vector_borrow _ _ = Ok _ |- _ => unfold vector_borrow in Hb
    end.
    destruct (price_sources feed) as [| [k s] rest] eqn:Hsrc; [discriminate |].
    cbn in *.
    repeat match goal with
    | Hb : Ok _ = Ok _ |- _ => inversion Hb; subst; clear Hb
    end.
    do 2 eexists. split; [reflexivity |]. split; [exact Hcalm |].
    split; reflexivity.
Qed.

End Rounds.

(** ** The oracle: submissions *)

Section Submissions.
Import Oracle.

Lemma vec_map_insert_Ok m k v m' :
  vec_map_insert m k v = Ok m' ->
  vec_map_contains m k = false /\ m' = m ++ [(k, v)].
Proof.
  unfold vec_map_insert. destruct (vec_map_contains m k); intros E;
    inversion E; auto.
Qed.


Lemma bool_decide_is_Some {A} (o : option A) :
  bool_decide (is_Some o) = true -> exists a, o = Some a.
Proof. intros Hd. apply bool_decide_eq_true in Hd as [a Ha]. eauto. Qed.

(** What a successful [submit_price] went through. *)
Lemma submit_price_Ok aggregator pair p c src t sender aggregator' events :
  submit_price aggregator pair p c src t sender = Ok (aggregator', events) ->
  exists node feed cb,
    is_paused aggregator = false /\ c <= 100 /\
    oracle_nodes aggregator !! sender = Some node /\
    is_authorized node = true /\
    supported_pairs aggregator !! pair = Some feed /\
    circuit_breakers aggregator !! pair = Some cb /\
    (is_triggered cb = true ->
     exists deviation,
       calculate_price_deviation p (last_normal_price cb) = Ok deviation /\
       deviation <= reset_threshold cb) /\
    vec_map_contains (price_sources feed) sender = false /\
    let buffered := with_submission aggregator pair feed node sender
                      (mkSubmission p c t src []) in
    if Z.of_nat (length (price_sources feed) + 1)
       >=? min_sources (aggregation_settings aggregator)
    then aggregate_prices buffered pair t = Ok (aggregator', events)
    else aggregator' = buffered /\ events = [].
Proof.
  unfold submit_price. intros H.
  apply bind_Ok in H as (u1 & Hpaused & H).
  apply bind_Ok in H as (u2 & Hconf & H).
  apply bind_Ok in H as (u3 & Hknown & H).
  apply bind_Ok in H as (node & Hnode & H).
  apply bind_Ok in H as (u4 & Hauth & H).
  apply bind_Ok in H as (u5 & Hpair & H).
  apply bind_Ok in H as (cb & Hcb & H).
  apply bind_Ok in H as (u6 & Hguard & H).
  apply bind_Ok in H as (feed & Hfeed & H).
  apply bind_Ok in H as (srcs & Hins & H).
  apply bind_Ok in H as (count & Hcount & H).
  apply table_borrow_Ok in Hnode, Hcb, Hfeed.
  apply vec_map_insert_Ok in Hins as [Hfree ->].
  arith_facts. subst count.
  exists node, feed, cb.
  repeat (split; [assumption |]).
  split.
  { intros Htrip. rewrite Htrip in Hguard. peel Hguard. arith_facts. eauto. }
  split; [exact Hfree |].
  unfold vec_map_size in H. rewrite length_app in H. cbn [length] in H.
  cbv zeta. unfold with_submission. cbn [timestamp].
  destruct (Z.of_nat (length (price_sources feed) + 1)
            >=? min_sources (aggregation_settings aggregator)).
  - exact H.
  - inversion H; subst. split; reflexivity.
Qed.

(** A reporter with a buffered submission cannot submit. *)
Lemma submit_price_duplicate aggregator pair p c src t sender feed :
  supported_pairs aggregator !! pair = Some feed ->
  vec_map_contains (price_sources feed) sender = true ->
  aborts (submit_price aggregator pair p c src t sender).
Proof.
  intros Hfeed Hdup.
  destruct (result_cases (submit_price aggregator pair p c src t sender))
    as [[[aggregator' events] Hok] | Hab]; [exfalso | exact Hab].
  apply submit_price_Ok in Hok
    as (node & feed' & cb & _ & _ & _ & _ & Hfeed' & _ & _ & Hfree & _).
  rewrite Hfeed in Hfeed'. inversion Hfeed'; subst. congruence.
Qed.


(** After a published round the buffer of the pair holds exactly the
    entry that was first in the buffer the round aggregated. *)
Lemma published_round_buffer aggregator pair t aggregator' events feed :
  aggregate_prices aggregator pair t = Ok (aggregator', events) ->
  published events = true ->
  supported_pairs aggregator !! pair = Some feed ->
  exists first feed',
    head (price_sources feed) = Some first /\
    supported_pairs aggregator' !! pair = Some feed' /\
    price_sources feed' = [first] /\
    current_price feed' = round_price (round_fresh aggregator feed t) /\
    feed_confidence feed' = round_confidence (round_fresh aggregator feed t) /\
    source_count feed' = Z.of_nat (length (round_fresh aggregator feed t)) /\
    last_update feed' = t /\
    twap_24h feed' = twap_24h feed /\
    price_history aggregator' = price_history aggregator /\
    circuit_breakers aggregator' = circuit_breakers aggregator.
Proof.
  intros Hround Hpub Hfeed.
  apply aggregate_prices_Ok in Hround as (feed0 & Hfeed0 & _ & _ & Hcases).
  rewrite Hfeed in Hfeed0. inversion Hfeed0; subst feed0; clear Hfeed0.
  destruct Hcases as [(Hnot & _) | (first & deviation & Hhead & _ & -> & ->)];
    [congruence |].
  eexists first, _. split; [exact Hhead |].
  split; [cbn; apply lookup_insert_eq |].
  cbn. repeat split; reflexivity.
Qed.

(** Once the buffer of a pair is not empty, no successful [submit_price]
    changes its first entry: a submission is appended behind it, a tripped
    round leaves the buffer alone, and a published round keeps exactly the
    first entry. *)
Lemma buffer_head_is_kept aggregator pair p c src t sender aggregator' events
    feed first :
  supported_pairs aggregator !! pair = Some feed ->
  head (price_sources feed) = Some first ->
  submit_price aggregator pair p c src t sender = Ok (aggregator', events) ->
  exists feed',
    supported_pairs aggregator' !! pair = Some feed' /\
    head (price_sources feed') = Some first.
Proof.
  intros Hfeed Hhead H.
  apply submit_price_Ok in H
    as (node & feed0 & cb & _ & _ & _ & _ & Hfeed0 & _ & _ & _ & Hround).
  rewrite Hfeed in Hfeed0. inversion Hfeed0; subst feed0; clear Hfeed0.
  cbv zeta in Hround.
  set (sub := mkSubmission p c t src []) in *.
  assert (Hb : supported_pairs (with_submission aggregator pair feed node sender sub)
               !! pair
               = Some (set_price_sources feed (price_sources feed ++ [(sender, sub)])))
    by (cbn; apply lookup_insert_eq).
  assert (Hh : head (price_sources feed ++ [(sender, sub)]) = Some first).
  { destruct (price_sources feed); [discriminate | exact Hhead]. }
  destruct (Z.of_nat (length (price_sources feed) + 1)
            >=? min_sources (aggregation_settings aggregator)).
  - apply aggregate_prices_Ok in Hround as (feed1 & Hfeed1 & _ & _ & Hcases).
    rewrite Hb in Hfeed1. inversion Hfeed1; subst feed1; clear Hfeed1.
    destruct Hcases as [(_ & _ & _ & Htrip) | (first' & d & Hhead' & _ & _ & ->)].
    + apply trigger_circuit_breaker_Ok in Htrip as (cb' & d & _ & _ & ->).
      eexists. split; [exact Hb | exact Hh].
    + cbn [price_sources set_price_sources] in Hhead'.
      rewrite Hh in Hhead'. inversion Hhead'; subst first'.
      eexists. split; [cbn; apply lookup_insert_eq | reflexivity].
  - destruct Hround as [-> _]. eexists. split; [exact Hb | exact Hh].
Qed.

End Submissions.

(** ** The oracle: statements *)

Section OracleClaims.
Import Oracle.

(** *** The breaker guard of [submit_price] *)

Lemma calculate_price_deviation_Ok p old d :
  0 <= p -> 0 < old ->
  calculate_price_deviation p old = Ok d ->
  d = Z.abs (p - old) * 10000 / old.
Proof.
  intros Hp Hold. unfold calculate_price_deviation.
  destruct (Z.eqb_spec old 0); [lia |].
  destruct (Z.gtb_spec p old); intros Hd; peel Hd; arith_facts; subst;
    f_equal; f_equal; lia.
Qed.

(** C2, evaluated on the code: the claim is that, with the breaker of a
    pair tripped, a submission that deviates from the last normal price by
    more than the reset threshold is accepted but kept out of the round.
    The guard of [submit_price] measures the deviation against the
    breaker's [last_normal_price], which no function writes after
    [add_price_feed] has set it to 0, so it measures 0 for every price.
    With the breaker of [IOTA/USD] tripped at a served price of 100 and a
    reset threshold of 500, the submission of 100,000 by reporter 14 is
    accepted, joins the buffer and is counted in the round that runs at
    once: the round's price, 33,754, is the one of all four submissions.
    With [min_sources] lowered to 1 and the older submissions stale, a
    submission of 110, twice the reset threshold away from 100, forms the
    round alone and is published, the breaker staying tripped. *)
Theorem tripped_breaker_admits_any_price :
  (exists cb feed,
     circuit_breakers Demo.tripped !! Demo.pair = Some cb /\
     is_triggered cb = true /\ reset_threshold cb = 500 /\
     last_normal_price cb = 0 /\
     supported_pairs Demo.tripped !! Demo.pair = Some feed /\
     current_price feed = 100 /\
     map fst (price_sources feed) = [11%N; 12%N; 13%N]) /\
  calculate_price_deviation 100000 0 = Ok 0 /\
  (exists aggregator' feed',
     submit_price Demo.tripped Demo.pair 100000 100 "feed" 6000 14%N
     = Ok (aggregator',
           [CircuitBreakerTriggered Demo.pair 33754 100 3365400 6000]) /\
     supported_pairs aggregator' !! Demo.pair = Some feed' /\
     map fst (price_sources feed') = [11%N; 12%N; 13%N; 14%N] /\
     last (price_sources feed')
     = Some (14%N, mkSubmission 100000 100 6000 "feed" []) /\
     round_price (map snd (price_sources feed')) = 33754) /\
  (exists relaxed published cb',
     update_settings Demo.tripped (Some 1) None None 1%N = Ok relaxed /\
     submit_price relaxed Demo.pair 110 100 "feed" 400000 14%N
     = Ok (published, [PriceUpdated Demo.pair 110 100 100 1 1000 400000]) /\
     circuit_breakers published !! Demo.pair = Some cb' /\
     is_triggered cb' = true).
Proof.
  split.
  { do 2 eexists. do 6 (split; [vm_compute; reflexivity |]).
    vm_compute; reflexivity. }
  split; [vm_compute; reflexivity |].
  split.
  { do 2 eexists. do 4 (split; [vm_compute; reflexivity |]).
    vm_compute; reflexivity. }
  do 3 eexists. do 3 (split; [vm_compute; reflexivity |]).
  vm_compute; reflexivity.
Qed.

(** *** What [add_price_feed] creates *)

Lemma table_add_Ok {K V} `{Countable K} (t : gmap K V) k v t' :
  table_add t k v = Ok t' -> t !! k = None /\ t' = <[k := v]> t.
Proof.
  unfold table_add. destruct (t !! k); intros E; inversion E; auto.
Qed.

Lemma add_price_feed_Ok aggregator pair sender aggregator' :
  add_price_feed aggregator pair sender = Ok aggregator' ->
  sender = admin aggregator /\
  supported_pairs aggregator' !! pair = Some (mkFeed pair 0 0 0 0 0 0 [] true) /\
  price_history aggregator' !! pair = Some (mkHistory [] [] 720 0) /\
  circuit_breakers aggregator' !! pair
  = Some (mkBreaker pair false 0 0 500 0 0).
Proof.
  unfold add_price_feed. intros H. peel H.
  repeat match goal with Ht : table_add _ _ _ = Ok _ |- _ =>
    apply table_add_Ok in Ht as [_ ->] end.
  match goal with Hd : div64 _ _ = Ok _ |- _ => cbv in Hd; inversion Hd; subst end.
  arith_facts. inversion H; subst; clear H. cbn.
  rewrite !lookup_insert_eq. repeat split; reflexivity.
Qed.

(** C3 (amended). For every pair, [add_price_feed] creates a breaker whose
    reset threshold is 500 basis points (5%, half of [MAX_PRICE_DEVIATION])
    and a price history, empty, whose capacity is 24 x 30 = 720 hourly
    buckets.  The trip threshold is not stored in the breaker: it is the
    constant 2000 basis points (20%) that every round compares the
    deviation with, tripping above it and publishing at or below it. *)
Theorem add_price_feed_thresholds :
  (forall aggregator pair sender aggregator',
     add_price_feed aggregator pair sender = Ok aggregator' ->
     exists cb history,
       circuit_breakers aggregator' !! pair = Some cb /\
       is_triggered cb = false /\
       reset_threshold cb = 500 /\
       reset_threshold cb = MAX_PRICE_DEVIATION / 2 /\
       price_history aggregator' !! pair = Some history /\
       hourly_prices history = [] /\
       max_history_size history = 24 * 30) /\
  CIRCUIT_BREAKER_THRESHOLD = 2000 /\
  (forall aggregator pair t aggregator' events feed,
     aggregate_prices aggregator pair t = Ok (aggregator', events) ->
     supported_pairs aggregator !! pair = Some feed ->
     0 < current_price feed ->
     circuit_breaker_enabled (aggregation_settings aggregator) = true ->
     exists deviation,
       calculate_price_deviation (round_price (round_fresh aggregator feed t))
         (current_price feed) = Ok deviation /\
       (published events = false <-> 2000 < deviation)).
Proof.
  split; [| split].
  - intros aggregator pair sender aggregator' H.
    apply add_price_feed_Ok in H as (_ & _ & Hh & Hcb).
    exists (mkBreaker pair false 0 0 500 0 0), (mkHistory [] [] 720 0).
    split; [exact Hcb |]. do 3 (split; [reflexivity |]).
    split; [exact Hh |]. split; reflexivity.
  - reflexivity.
  - intros aggregator pair t aggregator' events feed H Hfeed Hold Hen.
    apply aggregate_prices_Ok in H as (feed0 & Hfeed0 & _ & _ & Hcases).
    rewrite Hfeed in Hfeed0. inversion Hfeed0; subst feed0; clear Hfeed0.
    destruct Hcases as [(Hnot & _ & (d & Hd & Hbig) & _)
                       | (first & d & _ & Hcalm & -> & _)].
    + exists d. split; [exact Hd |]. unfold CIRCUIT_BREAKER_THRESHOLD in Hbig.
      split; auto.
    + destruct (Hcalm Hold Hen) as [Hd Hle]. exists d. split; [exact Hd |].
      unfold CIRCUIT_BREAKER_THRESHOLD in Hle. cbn. split; [discriminate | lia].
Qed.

Lemma add_price_feed_thresholds_witness :
  exists cb history,
    circuit_breakers Demo.ready !! Demo.pair = Some cb /\
    reset_threshold cb = 500 /\
    price_history Demo.ready !! Demo.pair = Some history /\
    max_history_size history = 720.
Proof.
  assert (E : add_price_feed Demo.enrolled Demo.pair 1%N = Ok Demo.ready)
    by (vm_compute; reflexivity).
  destruct (proj1 add_price_feed_thresholds Demo.enrolled Demo.pair 1%N
              Demo.ready E)
    as (cb & history & H1 & _ & H2 & _ & H3 & _ & H4).
  exists cb, history. auto.
Defined.

(** C3, the claim as stated fails: the breaker that [add_price_feed]
    creates resets under 500 basis points, not 1000. *)
Lemma add_price_feed_reset_threshold_not_1000 :
  exists aggregator' cb,
    add_price_feed (init 1%N) Demo.pair 1%N = Ok aggregator' /\
    circuit_breakers aggregator' !! Demo.pair = Some cb /\
    reset_threshold cb = 500 /\
    reset_threshold cb <> 1000.
Proof.
  do 2 eexists. split; [vm_compute; reflexivity |].
  split; [vm_compute; reflexivity |]. split; [reflexivity | discriminate].
Qed.

(** *** History and TWAP *)

Lemma sum_weighted_prices_Ok l : forall sum count sum' count',
  sum_weighted_prices l (sum, count) = Ok (sum', count') ->
  sum' = sum + bucket_sum l /\ count' = count + Z.of_nat (length l).
Proof.
  induction l as [| b l IH]; intros sum count sum' count' H.
  - inversion H; subst. cbn. lia.
  - cbn [sum_weighted_prices fst snd] in H. peel H. arith_facts. subst.
    apply IH in H as [-> ->]. unfold bucket_sum. cbn [foldr length].
    rewrite Nat2Z.inj_succ. lia.
Qed.

(** [calculate_twap] returns the truncated mean of the weighted prices of
    the last [hours] buckets (of all of them when there are fewer). *)
Lemma calculate_twap_Ok history hours r :
  0 <= hours ->
  calculate_twap history hours = Ok r ->
  r = bucket_mean (last_buckets (Z.to_nat hours) (hourly_prices history)).
Proof.
  intros Hh. unfold calculate_twap, last_buckets, bucket_mean.
  set (l := hourly_prices history).
  destruct (Z.eqb_spec (Z.of_nat (length l)) 0) as [Hz | Hnz].
  - intros E. inversion E; subst.
    assert (l = []) as -> by (destruct l; [reflexivity | discriminate]).
    reflexivity.
  - intros H. apply bind_Ok in H as (start & Hstart & H).
    assert (Hidx : Z.to_nat start = (length l - Z.to_nat hours)%nat).
    { destruct (Z.gtb_spec (Z.of_nat (length l)) hours).
      - arith_facts. subst. lia.
      - inversion Hstart; subst. lia. }
    rewrite Hidx in H. peel H.
    match goal with Hs : sum_weighted_prices _ _ = Ok _ |- _ =>
      apply sum_weighted_prices_Ok in Hs as [-> ->] end.
    rewrite !Z.add_0_l in H.
    destruct (Z.gtb_spec
                (Z.of_nat (length (drop (length l - Z.to_nat hours) l))) 0).
    + arith_facts. subst. reflexivity.
    + inversion H; subst.
      assert (Z.of_nat (length (drop (length l - Z.to_nat hours) l)) = 0)
        as -> by lia.
      symmetry. apply Z.div_0_r.
Qed.

(** [update_twap] appends one bucket, evicts the oldest one when the
    history was at capacity, and stores the mean of the last 24 buckets in
    the feed. *)
Lemma update_twap_Ok aggregator pair p t aggregator' :
  update_twap aggregator pair p t = Ok aggregator' ->
  exists history feed,
    price_history aggregator !! pair = Some history /\
    supported_pairs aggregator !! pair = Some feed /\
    let bucket := mkHourly t p p p p 0 p in
    let kept := if Z.of_nat (length (hourly_prices history))
                   >=? max_history_size history
                then drop 1 (hourly_prices history ++ [bucket])
                else hourly_prices history ++ [bucket] in
    price_history aggregator' !! pair
    = Some (mkHistory kept (daily_summary history) (max_history_size history)
              (last_cleanup history)) /\
    supported_pairs aggregator' !! pair
    = Some (set_twap feed (bucket_mean (last_buckets 24 kept))).
Proof.
  unfold update_twap. intros H.
  apply bind_Ok in H as (history & Hh & H).
  apply bind_Ok in H as (feed & Hf & H).
  apply bind_Ok in H as (twap & Htwap & H).
  apply table_borrow_Ok in Hh, Hf.
  apply calculate_twap_Ok in Htwap; [| lia]. cbn [hourly_prices] in Htwap.
  inversion H; subst; clear H.
  exists history, feed. split; [exact Hh |]. split; [exact Hf |].
  cbv zeta. cbn [price_history supported_pairs set_supported_pairs set_price_history].
  rewrite !lookup_insert_eq. rewrite length_app. cbn [length].
  assert (Hsame : (Z.of_nat (length (hourly_prices history) + 1)
                   >? max_history_size history)
                  = (Z.of_nat (length (hourly_prices history))
                     >=? max_history_size history)).
  { destruct (Z.gtb_spec (Z.of_nat (length (hourly_prices history) + 1))
                (max_history_size history)),
             (Z.geb_spec (Z.of_nat (length (hourly_prices history)))
                (max_history_size history)); auto; lia. }
  rewrite Hsame. split; reflexivity.
Qed.

(** What the code does on the two sides of the missing call: a round that
    publishes leaves the pair's price history and the feed's [twap_24h] as
    they were, while [update_twap], which nothing calls, appends one hourly
    bucket, evicts the oldest bucket when the history is at capacity, and
    sets [twap_24h] to the truncated mean of the last 24 buckets'
    [weighted_price]. *)
Lemma published_round_history :
  (forall aggregator pair t aggregator' events feed,
     aggregate_prices aggregator pair t = Ok (aggregator', events) ->
     published events = true ->
     supported_pairs aggregator !! pair = Some feed ->
     price_history aggregator' = price_history aggregator /\
     exists feed', supported_pairs aggregator' !! pair = Some feed' /\
                   twap_24h feed' = twap_24h feed) /\
  (forall aggregator pair p t aggregator' history,
     update_twap aggregator pair p t = Ok aggregator' ->
     price_history aggregator !! pair = Some history ->
     exists history' feed',
       price_history aggregator' !! pair = Some history' /\
       supported_pairs aggregator' !! pair = Some feed' /\
       max_history_size history' = max_history_size history /\
       (Z.of_nat (length (hourly_prices history)) < max_history_size history ->
        hourly_prices history'
        = hourly_prices history ++ [mkHourly t p p p p 0 p]) /\
       (max_history_size history <= Z.of_nat (length (hourly_prices history)) ->
        hourly_prices history'
        = drop 1 (hourly_prices history ++ [mkHourly t p p p p 0 p])) /\
       twap_24h feed' = bucket_mean (last_buckets 24 (hourly_prices history'))).
Proof.
  split.
  - intros aggregator pair t aggregator' events feed H Hpub Hfeed.
    destruct (published_round_buffer _ _ _ _ _ _ H Hpub Hfeed)
      as (first & feed' & _ & Hf' & _ & _ & _ & _ & _ & Htwap & Hhist & _).
    split; [exact Hhist |]. exists feed'. split; assumption.
  - intros aggregator pair p t aggregator' history H Hh.
    apply update_twap_Ok in H as (history0 & feed & Hh0 & Hf & Hh' & Hf').
    rewrite Hh in Hh0. inversion Hh0; subst history0; clear Hh0.
    do 2 eexists. split; [exact Hh' |]. split; [exact Hf' |].
    cbn [max_history_size hourly_prices twap_24h set_twap].
    split; [reflexivity |].
    split; [| split; [| reflexivity]]; intros Hcap.
    + destruct (Z.geb_spec (Z.of_nat (length (hourly_prices history)))
                  (max_history_size history)); [lia | reflexivity].
    + destruct (Z.geb_spec (Z.of_nat (length (hourly_prices history)))
                  (max_history_size history)); [reflexivity | lia].
Qed.

Lemma published_round_history_witness :
  exists aggregator',
    aggregate_prices Demo.three_buffered Demo.pair 3000
    = Ok (aggregator', [PriceUpdated Demo.pair 100 0 1 3 0 3000]) /\
    price_history aggregator' = price_history Demo.three_buffered /\
    exists feed', supported_pairs aggregator' !! Demo.pair = Some feed' /\
                  twap_24h feed' = 0.
Proof.
  assert (E : exists aggregator',
             aggregate_prices Demo.three_buffered Demo.pair 3000
             = Ok (aggregator', [PriceUpdated Demo.pair 100 0 1 3 0 3000]))
    by (eexists; vm_compute; reflexivity).
  destruct E as [aggregator' E]. exists aggregator'. split; [exact E |].
  assert (Hfeed : supported_pairs Demo.three_buffered !! Demo.pair
                  = Some (mkFeed Demo.pair 0 0 0 0 0 0
                            (zip [11%N; 12%N; 13%N] Demo.first_round) true))
    by (vm_compute; reflexivity).
  exact (proj1 published_round_history _ _ _ _ _ _ E eq_refl Hfeed).
Defined.

(** C4, evaluated on the code: the claim is that a round that publishes
    appends an hourly bucket to the history of the pair and sets the feed's
    TWAP to the mean of the last 24 buckets.  The third submission of the
    first round publishes a price of 100, yet the history of the pair is as
    empty as before and the feed's TWAP is still 0, where one bucket and a
    mean of 100 are claimed: the round does not call [update_twap]. *)
Theorem published_round_appends_nothing :
  exists aggregator' feed' history',
    submit_price Demo.two_buffered Demo.pair 199 1 "feed" 3000 13%N
    = Ok (aggregator', [PriceUpdated Demo.pair 100 0 1 3 0 3000]) /\
    supported_pairs aggregator' !! Demo.pair = Some feed' /\
    price_history aggregator' !! Demo.pair = Some history' /\
    current_price feed' = 100 /\
    hourly_prices history' = [] /\
    twap_24h feed' = 0 /\
    twap_24h feed' <> bucket_mean [mkHourly 3000 100 100 100 100 0 100].
Proof.
  do 3 eexists. split; [vm_compute; reflexivity |].
  split; [vm_compute; reflexivity |]. split; [vm_compute; reflexivity |].
  cbn. repeat split; try reflexivity. discriminate.
Qed.

(** *** The buffer after a round *)

(** C5, evaluated on the code: the claim is that the buffer is empty after
    a published round.  With the submissions of reporters 11 and 12
    buffered, the submission of reporter 13 completes the round, the price
    is published, and the buffer of the pair still holds the submission of
    reporter 11. *)
Theorem published_round_keeps_a_submission :
  exists aggregator' feed',
    submit_price Demo.two_buffered Demo.pair 199 1 "feed" 3000 13%N
    = Ok (aggregator', [PriceUpdated Demo.pair 100 0 1 3 0 3000]) /\
    supported_pairs aggregator' !! Demo.pair = Some feed' /\
    price_sources feed' = [(11%N, mkSubmission 199 1 1000 "feed" [])] /\
    price_sources feed' <> [].
Proof.
  do 2 eexists. split; [vm_compute; reflexivity |].
  split; [vm_compute; reflexivity |]. cbn. split; [reflexivity | discriminate].
Qed.

(** *** Published price and confidence *)

(** C6 (amended). In every aggregation round that publishes and whose
    fresh submissions have a positive total confidence, there are at least
    [min_sources] fresh submissions, the published price is the sum of the
    per-submission shares [floor(price_i * confidence_i / 100)] (one
    truncation for each submission), times 100, divided by the total
    confidence and truncated, and the published confidence is
    [floor(sum of confidence_i / source_count)] over the fresh
    submissions. *)
Theorem published_price_and_confidence
    aggregator pair t aggregator' events feed :
  aggregate_prices aggregator pair t = Ok (aggregator', events) ->
  published events = true ->
  supported_pairs aggregator !! pair = Some feed ->
  0 < confidence_sum (round_fresh aggregator feed t) ->
  min_sources (aggregation_settings aggregator)
  <= Z.of_nat (length (round_fresh aggregator feed t)) /\
  exists feed',
    supported_pairs aggregator' !! pair = Some feed' /\
    current_price feed'
    = share_sum (round_fresh aggregator feed t) * 100
      / confidence_sum (round_fresh aggregator feed t) /\
    feed_confidence feed'
    = confidence_sum (round_fresh aggregator feed t)
      / Z.of_nat (length (round_fresh aggregator feed t)) /\
    source_count feed' = Z.of_nat (length (round_fresh aggregator feed t)).
Proof.
  intros H Hpub Hfeed Hpos.
  destruct (published_round_buffer _ _ _ _ _ _ H Hpub Hfeed)
    as (first & feed' & _ & Hf' & _ & Hprice & Hconf & Hcount & _).
  apply aggregate_prices_Ok in H as (feed0 & Hfeed0 & Hmin & _).
  rewrite Hfeed in Hfeed0. inversion Hfeed0; subst feed0; clear Hfeed0.
  split; [exact Hmin |].
  exists feed'. split; [exact Hf' |].
  split; [| split; [exact Hconf | exact Hcount]].
  rewrite Hprice. unfold round_price.
  destruct (Z.gtb_spec (confidence_sum (round_fresh aggregator feed t)) 0);
    [reflexivity | lia].
Qed.

Lemma published_price_and_confidence_witness :
  exists aggregator' feed',
    aggregate_prices Demo.three_buffered Demo.pair 3000
    = Ok (aggregator', [PriceUpdated Demo.pair 100 0 1 3 0 3000]) /\
    supported_pairs aggregator' !! Demo.pair = Some feed' /\
    current_price feed' = 100 /\ feed_confidence feed' = 1 /\
    source_count feed' = 3.
Proof.
  assert (E : exists aggregator',
             aggregate_prices Demo.three_buffered Demo.pair 3000
             = Ok (aggregator', [PriceUpdated Demo.pair 100 0 1 3 0 3000]))
    by (eexists; vm_compute; reflexivity).
  destruct E as [aggregator' E].
  assert (Hfeed : supported_pairs Demo.three_buffered !! Demo.pair
                  = Some (mkFeed Demo.pair 0 0 0 0 0 0
                            (zip [11%N; 12%N; 13%N] Demo.first_round) true))
    by (vm_compute; reflexivity).
  assert (Hfresh : round_fresh Demo.three_buffered
                     (mkFeed Demo.pair 0 0 0 0 0 0
                        (zip [11%N; 12%N; 13%N] Demo.first_round) true) 3000
                   = Demo.first_round)
    by (vm_compute; reflexivity).
  destruct (published_price_and_confidence _ _ _ _ _ _ E eq_refl Hfeed)
    as (_ & feed' & Hf' & Hp & Hc & Hn).
  - rewrite Hfresh. reflexivity.
  - rewrite Hfresh in Hp, Hc, Hn.
    exists aggregator', feed'. split; [exact E |]. split; [exact Hf' |].
    split; [exact Hp |]. split; [exact Hc | exact Hn].
Defined.

(** C6, the claim as stated fails: three fresh submissions of price 199
    and confidence 1 publish the price 100, the sum of three shares
    [floor(199 / 100) = 1] rescaled by [100 / 3]; a single truncation after
    the whole sum would give [floor(597 / 100) * 100 / 3 = 166]. *)
Lemma published_price_truncates_each_share :
  exists aggregator' feed',
    submit_price Demo.two_buffered Demo.pair 199 1 "feed" 3000 13%N
    = Ok (aggregator', [PriceUpdated Demo.pair 100 0 1 3 0 3000]) /\
    supported_pairs aggregator' !! Demo.pair = Some feed' /\
    current_price feed' = 100 /\
    product_sum Demo.first_round / 100 * 100 / confidence_sum Demo.first_round
    = 166 /\
    current_price feed'
    <> product_sum Demo.first_round / 100 * 100
       / confidence_sum Demo.first_round.
Proof.
  do 2 eexists. split; [vm_compute; reflexivity |].
  split; [vm_compute; reflexivity |]. cbn.
  split; [reflexivity |]. split; [reflexivity | discriminate].
Qed.

(** *** The retained reporter *)



End OracleClaims.

(** ** The pool: further properties of swaps *)

Section SwapProperties.
Import Defi.

Lemma calculate_stable_swap_output_Ok ain rin rout amp out :
  calculate_stable_swap_output ain rin rout amp = Ok out ->
  out = (ain * 9970 / 10000 * rout) / (rin + ain * 9970 / 10000).
Proof.
  unfold calculate_stable_swap_output. intros H.
  peel H. arith_facts. subst. reflexivity.
Qed.

(** The algebra of one stable swap: the fee-adjusted input is strictly
    below the input, so the product of the reserves rises. *)
Lemma stable_swap_step rin rout ain aout :
  0 < rin -> 0 < rout -> 0 < ain ->
  aout = (ain * 9970 / 10000 * rout) / (rin + ain * 9970 / 10000) ->
  0 <= aout < rout /\
  rin * rout < (rin + ain) * (rout - aout).
Proof.
  intros Hrin Hrout Hain ->.
  assert (Hfa : 0 <= ain * 9970 / 10000 < ain).
  { split; [apply Z.div_pos; lia | apply Z.div_lt_upper_bound; lia]. }
  set (fa := ain * 9970 / 10000) in *.
  set (d := rin + fa).
  assert (Hd : 0 < d) by (unfold d; lia).
  pose proof (Z.mul_div_le (fa * rout) d Hd) as Hfloor.
  assert (H0 : 0 <= fa * rout / d) by (apply Z.div_pos; nia).
  set (aout := fa * rout / d) in *.
  assert (Hlt : aout < rout).
  { destruct (Z.lt_ge_cases aout rout) as [| Hge]; [assumption | exfalso].
    assert (rout * d <= aout * d) by nia.
    assert (fa * rout < rout * d) by (unfold d; nia).
    lia. }
  split; [lia |].
  assert (Hid : (rin + ain) * (rout - aout) - rin * rout
                = (fa * rout - d * aout) + (ain - fa) * (rout - aout)).
  { unfold d. ring. }
  assert (0 < (ain - fa) * (rout - aout)) by nia.
  lia.
Qed.

(** X1. On a stable pool every successful swap strictly raises the product
    of the reserves, whatever the pool's fee rate and amplification. *)
Theorem stable_swap_reserve_product
    pool protocol token_in min_amount_out sender out :
  is_stable_pool pool = true ->
  0 < token_a_reserve pool -> 0 < token_b_reserve pool -> 0 < token_in ->
  swap_exact_input pool protocol token_in min_amount_out sender = Ok out ->
  reserve_product pool < reserve_product (swapped_pool out).
Proof.
  intros Hstable Ha Hb Hin Hswap.
  apply swap_exact_input_reserves in Hswap
    as (amount_out & Hout & _ & _ & _ & Hra & Hrb).
  rewrite Hstable in Hout. apply calculate_stable_swap_output_Ok in Hout.
  unfold reserve_product. rewrite Hra, Hrb.
  apply (stable_swap_step _ _ _ _ Ha Hb Hin Hout).
Qed.

Lemma stable_swap_reserve_product_witness :
  exists out,
    swap_exact_input Demo.stable_pool Demo.protocol 10000 0 9%N = Ok out /\
    reserve_product Demo.stable_pool < reserve_product (swapped_pool out).
Proof.
  assert (E : exists out,
             swap_exact_input Demo.stable_pool Demo.protocol 10000 0 9%N = Ok out)
    by (eexists; vm_compute; reflexivity).
  destruct E as [out E]. exists out. split; [exact E |].
  apply (stable_swap_reserve_product Demo.stable_pool Demo.protocol 10000 0 9%N);
    [reflexivity | reflexivity | reflexivity | reflexivity | exact E].
Defined.

(** X2. A successful swap never drains the pool: on a pool of either kind
    with positive reserves, the output is strictly below the output
    reserve, both reserves are positive afterwards, and the product of the
    reserves has not fallen. *)
Theorem swap_exact_input_keeps_reserves_positive
    pool protocol token_in min_amount_out sender out :
  in_u64 (swap_fee_rate pool) ->
  0 < token_a_reserve pool -> 0 < token_b_reserve pool ->
  swap_exact_input pool protocol token_in min_amount_out sender = Ok out ->
  0 < swapped_token_out out < token_b_reserve pool /\
  token_a_reserve pool < token_a_reserve (swapped_pool out) /\
  0 < token_b_reserve (swapped_pool out) /\
  reserve_product pool <= reserve_product (swapped_pool out).
Proof.
  intros [Hfee _] Ha Hb Hswap.
  assert (Hin : 0 < token_in).
  { unfold swap_exact_input in Hswap.
    apply bind_Ok in Hswap as (u & _ & Hswap).
    apply bind_Ok in Hswap as (u' & Hpos & _). arith_facts. exact Hpos. }
  apply swap_exact_input_reserves in Hswap
    as (amount_out & Hout & Hpos & _ & Htok & Hra & Hrb).
  unfold reserve_product. rewrite Htok, Hra, Hrb.
  destruct (is_stable_pool pool).
  - apply calculate_stable_swap_output_Ok in Hout.
    destruct (stable_swap_step _ _ _ _ Ha Hb Hin Hout) as [Hrange Hprod]. lia.
  - apply calculate_constant_product_output_Ok in Hout as [Hmax Hout].
    destruct (constant_product_step (token_a_reserve pool) (token_b_reserve pool)
                token_in (swap_fee_rate pool) amount_out)
      as (Hrange & Hle & _); auto. lia.
Qed.

Lemma swap_exact_input_keeps_reserves_positive_witness :
  exists out,
    swap_exact_input Demo.tall_pool Demo.protocol 1 0 9%N = Ok out /\
    0 < swapped_token_out out < 17592186044415 /\
    0 < token_b_reserve (swapped_pool out).
Proof.
  assert (E : exists out,
             swap_exact_input Demo.tall_pool Demo.protocol 1 0 9%N = Ok out)
    by (eexists; vm_compute; reflexivity).
  destruct E as [out E]. exists out. split; [exact E |].
  destruct (swap_exact_input_keeps_reserves_positive Demo.tall_pool
              Demo.protocol 1 0 9%N out) as (H1 & _ & H3 & _);
    [split; vm_compute; discriminate | reflexivity | reflexivity | exact E |].
  split; [exact H1 | exact H3].
Defined.

(** The pool a successful swap leaves, and the coin it pays, in terms of
    the pool before and the input alone. *)
Lemma swap_exact_input_pool pool protocol token_in min_out sender out :
  swap_exact_input pool protocol token_in min_out sender = Ok out ->
  exists amount_out,
    (if is_stable_pool pool
     then calculate_stable_swap_output token_in (token_a_reserve pool)
            (token_b_reserve pool) (amplification_coefficient pool)
     else calculate_constant_product_output token_in (token_a_reserve pool)
            (token_b_reserve pool) (swap_fee_rate pool)) = Ok amount_out /\
    swapped_token_out out = amount_out /\
    swapped_pool out
    = set_last_price
        (set_reserves pool (token_a_reserve pool + token_in)
           (token_b_reserve pool - amount_out))
        ((token_b_reserve pool - amount_out) * 1000000
         / (token_a_reserve pool + token_in)) /\
    ev_amount_out (swapped_event out) = amount_out /\
    ev_fee_amount (swapped_event out)
    = token_in * swap_fee_rate pool / 10000 /\
    total_value_locked (swapped_protocol out) = total_value_locked protocol.
Proof.
  unfold swap_exact_input. intros H. peel H.
  match goal with Hs : balance_split _ _ = Ok _ |- _ =>
    apply balance_split_Ok in Hs as (-> & -> & ?) end.
  arith_facts. inversion H; subst; clear H. cbn.
  eexists. split; [eassumption |]. repeat split; reflexivity.
Qed.

(** X3. The price of a swap does not depend on who trades: the pool a
    successful swap leaves, the coin it pays and the fee it reports are the
    same for every sender and every set of user profiles, so the
    [fee_discount] of a profile is never applied. *)
Theorem swap_exact_input_ignores_profile
    pool protocol protocol' token_in min_amount_out sender sender' out out' :
  swap_exact_input pool protocol token_in min_amount_out sender = Ok out ->
  swap_exact_input pool protocol' token_in min_amount_out sender' = Ok out' ->
  swapped_pool out = swapped_pool out' /\
  swapped_token_out out = swapped_token_out out' /\
  ev_fee_amount (swapped_event out) = ev_fee_amount (swapped_event out').
Proof.
  intros H H'.
  apply swap_exact_input_pool in H as (a & Ha & Ht & Hp & _ & Hf & _).
  apply swap_exact_input_pool in H' as (a' & Ha' & Ht' & Hp' & _ & Hf' & _).
  rewrite Ha in Ha'. injection Ha' as Heq.
  rewrite Ht, Ht', Hp, Hp', Hf, Hf', Heq. repeat split; reflexivity.
Qed.

Lemma swap_exact_input_ignores_profile_witness :
  exists out out',
    swap_exact_input Demo.pool Demo.protocol 5000 0 7%N = Ok out /\
    swap_exact_input Demo.pool Demo.protocol_with_trader 5000 0 9%N = Ok out' /\
    swapped_pool out = swapped_pool out' /\
    swapped_token_out out = swapped_token_out out'.
Proof.
  assert (E : exists out,
             swap_exact_input Demo.pool Demo.protocol 5000 0 7%N = Ok out)
    by (eexists; vm_compute; reflexivity).
  assert (E' : exists out,
             swap_exact_input Demo.pool Demo.protocol_with_trader 5000 0 9%N
             = Ok out)
    by (eexists; vm_compute; reflexivity).
  destruct E as [out E], E' as [out' E']. exists out, out'.
  split; [exact E |]. split; [exact E' |].
  destruct (swap_exact_input_ignores_profile _ _ _ _ _ _ _ _ _ E E')
    as (H1 & H2 & _).
  split; assumption.
Defined.

End SwapProperties.

(** ** Profiles and liquidity *)

Section ProfileProperties.
Import Defi.

Lemma update_trader_profile_tier profile amount_in profile' :
  0 <= amount_in ->
  tier_matches_volume profile ->
  update_trader_profile profile amount_in = Ok profile' ->
  tier_matches_volume profile' /\
  total_volume_traded profile' = total_volume_traded profile + amount_in /\
  tier_level profile <= tier_level profile'.
Proof.
  unfold update_trader_profile, tier_matches_volume, tier_of_volume.
  intros Hin Hm H. apply bind_Ok in H as (volume & Hv & H).
  arith_facts. subst volume.
  destruct (Z.gtb_spec (total_volume_traded profile + amount_in) 100000000000);
    [| destruct (Z.gtb_spec (total_volume_traded profile + amount_in) 10000000000)];
    cbn in H; inversion H; subst; clear H; cbn.
  - destruct (Z.gtb_spec (total_volume_traded profile + amount_in) 100000000000);
      [| lia].
    destruct (Z.gtb_spec (total_volume_traded profile) 100000000000);
      [| destruct (Z.gtb_spec (total_volume_traded profile) 10000000000)];
      inversion Hm; repeat split; lia.
  - destruct (Z.gtb_spec (total_volume_traded profile + amount_in) 100000000000);
      [lia |].
    destruct (Z.gtb_spec (total_volume_traded profile + amount_in) 10000000000);
      [| lia].
    destruct (Z.gtb_spec (total_volume_traded profile) 100000000000); [lia |].
    destruct (Z.gtb_spec (total_volume_traded profile) 10000000000);
      inversion Hm; repeat split; lia.
  - destruct (Z.gtb_spec (total_volume_traded profile + amount_in) 100000000000);
      [lia |].
    destruct (Z.gtb_spec (total_volume_traded profile + amount_in) 10000000000);
      [lia |].
    destruct (Z.gtb_spec (total_volume_traded profile) 100000000000); [lia |].
    destruct (Z.gtb_spec (total_volume_traded profile) 10000000000); [lia |].
    repeat split; [exact Hm | lia].
Qed.

Lemma swap_exact_input_profiles pool protocol token_in min_out sender out :
  swap_exact_input pool protocol token_in min_out sender = Ok out ->
  0 < token_in /\
  match profiles protocol !! sender with
  | Some profile =>
      exists profile',
        update_trader_profile profile token_in = Ok profile' /\
        profiles (swapped_protocol out) = <[sender := profile']> (profiles protocol)
  | None => profiles (swapped_protocol out) = profiles protocol
  end.
Proof.
  unfold swap_exact_input. intros H.
  apply bind_Ok in H as (u & _ & H).
  apply bind_Ok in H as (u' & Hpos & H). arith_facts. split; [exact Hpos |].
  peel H.
  destruct (profiles protocol !! sender) as [profile |].
  - match goal with Hp : bind (update_trader_profile _ _) _ = Ok _ |- _ =>
      apply bind_Ok in Hp as (profile' & Hup & Hp); inversion Hp; subst end.
    inversion H; subst; clear H. cbn. eauto.
  - match goal with Hp : Ok (profiles protocol) = Ok _ |- _ =>
      inversion Hp; subst end.
    inversion H; subst; clear H. reflexivity.
Qed.

(** Everything a successful [add_liquidity] did, read off its outcome. *)
Lemma add_liquidity_outcome pool protocol treasury a b min_lp sender out :
  add_liquidity pool protocol treasury a b min_lp sender = Ok out ->
  exists ua ub lp,
    added_event out = mkLiquidityAdded sender ua ub lp /\
    added_lp_tokens out = lp /\ min_lp <= lp /\
    ua <= a /\ ub <= b /\
    added_refund_a out = a - ua /\ added_refund_b out = b - ub /\
    added_pool out
    = set_supply_k
        (set_reserves pool (token_a_reserve pool + ua) (token_b_reserve pool + ub))
        (lp_token_supply pool + lp)
        ((token_a_reserve pool + ua) * (token_b_reserve pool + ub)) /\
    added_lp_supply out = treasury + lp /\
    total_value_locked (added_protocol out)
    = total_value_locked protocol + ua + ub /\
    (if (token_a_reserve pool =? 0) || (token_b_reserve pool =? 0)
     then ua = a /\ ub = b /\ sqrt_u128 (a * b) = Ok lp
     else
       (ua = a /\
        ub = a * token_b_reserve pool / token_a_reserve pool /\
        lp = a * lp_token_supply pool / token_a_reserve pool)
       \/
       (ub = b /\
        ua = b * token_a_reserve pool / token_b_reserve pool /\
        lp = b * lp_token_supply pool / token_b_reserve pool)) /\
    match profiles protocol !! sender with
    | Some profile =>
        profiles (added_protocol out)
        = <[sender := mkProfile (owner profile)
                        (total_liquidity_provided profile + ua + ub)
                        (total_volume_traded profile) (governance_power profile)
                        (yield_farming_score profile) (last_activity profile)
                        (tier_level profile) (fee_discount profile)]>
            (profiles protocol)
    | None =>
        profiles (added_protocol out)
        = <[sender := mkProfile sender (ua + ub) 0 0 0 0 1 0]> (profiles protocol)
    end.
Proof.
  unfold add_liquidity. intros H.
  apply bind_Ok in H as (u & Hpaused & H).
  apply bind_Ok in H as ([[ua ub] lp] & Hopt & H).
  exists ua, ub, lp.
  assert (Hbranch :
    if (token_a_reserve pool =? 0) || (token_b_reserve pool =? 0)
    then ua = a /\ ub = b /\ sqrt_u128 (a * b) = Ok lp
    else
      (ua = a /\
       ub = a * token_b_reserve pool / token_a_reserve pool /\
       lp = a * lp_token_supply pool / token_a_reserve pool)
      \/
      (ub = b /\
       ua = b * token_a_reserve pool / token_b_reserve pool /\
       lp = b * lp_token_supply pool / token_b_reserve pool)).
  { destruct ((token_a_reserve pool =? 0) || (token_b_reserve pool =? 0)).
    - apply bind_Ok in Hopt as (k & Hk & Hopt).
      apply bind_Ok in Hopt as (root & Hroot & Hopt).
      apply bind_Ok in Hopt as (lp' & Hlp & Hopt).
      arith_facts. inversion Hopt; subst. auto.
    - apply bind_Ok in Hopt as (xb & Hxb & Hopt).
      apply bind_Ok in Hopt as (b_opt & Hb_opt & Hopt).
      apply bind_Ok in Hopt as (xa & Hxa & Hopt).
      apply bind_Ok in Hopt as (a_opt & Ha_opt & Hopt).
      arith_facts. subst.
      destruct (a * token_b_reserve pool / token_a_reserve pool <=? b);
        peel Hopt; arith_facts; inversion Hopt; subst; auto. }
  clear Hopt.
  apply bind_Ok in H as (u1 & Hmin & H).
  apply bind_Ok in H as ([rest_a in_a] & Hsa & H).
  apply bind_Ok in H as ([rest_b in_b] & Hsb & H).
  apply balance_split_Ok in Hsa as (-> & -> & Hua).
  apply balance_split_Ok in Hsb as (-> & -> & Hub).
  apply bind_Ok in H as (new_a & Hna & H).
  apply bind_Ok in H as (new_b & Hnb & H).
  apply bind_Ok in H as (new_supply & Hns & H).
  apply bind_Ok in H as (k & Hk & H).
  apply bind_Ok in H as (k64 & Hk64 & H).
  apply bind_Ok in H as (treasury' & Hmint & H).
  apply bind_Ok in H as (tvl1 & Htvl1 & H).
  apply bind_Ok in H as (tvl & Htvl & H).
  apply bind_Ok in H as (ps & Hps & H).
  unfold coin_mint in Hmint.
  destruct (lp <? u64_max - treasury); [| discriminate].
  inversion Hmint; subst treasury'; clear Hmint.
  arith_facts. subst. inversion H; subst; clear H. cbn.
  repeat (split; [first [reflexivity | assumption | lia] |]).
  destruct (profiles protocol !! sender) as [profile |].
  - peel Hps. arith_facts. subst. inversion Hps; subst. reflexivity.
  - peel Hps. arith_facts. subst. inversion Hps; subst. reflexivity.
Qed.

(** X4. The tier and the fee discount of every profile go with its traded
    volume (tier 3 and 50 above 100,000,000,000, tier 2 and 25 above
    10,000,000,000, tier 1 and 0 otherwise): [swap_exact_input],
    [add_liquidity] and [start_yield_farming], the operations that write
    profiles, keep that true of all profiles, and a swap never lowers the
    tier of the trader. *)
Theorem profile_tiers_follow_volume :
  (forall pool protocol token_in min_out sender out,
     map_Forall (fun _ p => tier_matches_volume p) (profiles protocol) ->
     swap_exact_input pool protocol token_in min_out sender = Ok out ->
     map_Forall (fun _ p => tier_matches_volume p)
       (profiles (swapped_protocol out)) /\
     forall before after,
       profiles protocol !! sender = Some before ->
       profiles (swapped_protocol out) !! sender = Some after ->
       tier_level before <= tier_level after /\
       total_volume_traded after = total_volume_traded before + token_in) /\
  (forall pool protocol treasury a b min_lp sender out,
     map_Forall (fun _ p => tier_matches_volume p) (profiles protocol) ->
     add_liquidity pool protocol treasury a b min_lp sender = Ok out ->
     map_Forall (fun _ p => tier_matches_volume p)
       (profiles (added_protocol out))) /\
  (forall protocol stake_token days compound sender protocol' stake events,
     map_Forall (fun _ p => tier_matches_volume p) (profiles protocol) ->
     Farming.start_yield_farming protocol stake_token days compound sender
     = Ok (protocol', stake, events) ->
     map_Forall (fun _ p => tier_matches_volume p) (profiles protocol')).
Proof.
  split; [| split].
  - intros pool protocol token_in min_out sender out Hall H.
    apply swap_exact_input_profiles in H as [Hpos Hps].
    destruct (profiles protocol !! sender) as [profile |] eqn:Hlook.
    + destruct Hps as (profile' & Hup & ->).
      destruct (update_trader_profile_tier profile token_in profile')
        as (Hm & Hvol & Htier); [lia | exact (Hall _ _ Hlook) | exact Hup |].
      split.
      * apply map_Forall_insert_2; assumption.
      * intros before after Hb Ha. inversion Hb; subst before.
        rewrite lookup_insert_eq in Ha. inversion Ha; subst after. auto.
    + rewrite Hps. split; [exact Hall |].
      intros before after Hb. discriminate.
  - intros pool protocol treasury a b min_lp sender out Hall H.
    apply add_liquidity_outcome in H
      as (ua & ub & lp & _ & _ & _ & _ & _ & _ & _ & _ & _ & _ & _ & Hps).
    destruct (profiles protocol !! sender) as [profile |] eqn:Hlook;
      rewrite Hps; apply map_Forall_insert_2; try exact Hall.
    + exact (Hall _ _ Hlook).
    + reflexivity.
  - intros protocol stake_token days compound sender protocol' stake events
      Hall H.
    unfold Farming.start_yield_farming in H. peel H.
    inversion H; subst; clear H. cbn.
    destruct (profiles protocol !! sender) as [profile |] eqn:Hlook.
    + match goal with Hp : bind _ _ = Ok _ |- _ =>
        peel Hp; inversion Hp; subst end.
      apply map_Forall_insert_2; [| exact Hall]. exact (Hall _ _ Hlook).
    + match goal with Hp : Ok _ = Ok _ |- _ => inversion Hp; subst end.
      exact Hall.
Qed.

Lemma profile_tiers_follow_volume_witness :
  exists out after,
    swap_exact_input Demo.pool Demo.protocol_with_trader 10000 0 9%N = Ok out /\
    profiles (swapped_protocol out) !! 9%N = Some after /\
    tier_level Demo.trader_profile <= tier_level after /\
    total_volume_traded after = 9999995000 + 10000.
Proof.
  assert (E : exists out,
             swap_exact_input Demo.pool Demo.protocol_with_trader 10000 0 9%N
             = Ok out)
    by (eexists; vm_compute; reflexivity).
  destruct E as [out E].
  assert (Hall : map_Forall (fun _ p => tier_matches_volume p)
                   (profiles Demo.protocol_with_trader)).
  { apply map_Forall_singleton. reflexivity. }
  destruct (proj1 profile_tiers_follow_volume _ _ _ _ _ _ Hall E) as [Hkeep Hup].
  destruct (swap_exact_input_profiles _ _ _ _ _ _ E) as [_ Hps].
  change (profiles Demo.protocol_with_trader !! 9%N) with (Some Demo.trader_profile)
    in Hps.
  destruct Hps as (after & _ & Hafter).
  exists out, after. split; [exact E |].
  assert (Hl : profiles (swapped_protocol out) !! 9%N = Some after)
    by (rewrite Hafter; apply lookup_insert_eq).
  split; [exact Hl |].
  exact (Hup Demo.trader_profile after eq_refl Hl).
Defined.

(** X5. [add_liquidity] conserves the coins it is given: what it takes
    from each coin plus what it hands back is the coin; one of the two
    coins is taken in full; the reserves grow by exactly what is taken, the
    LP supply and the LP treasury by exactly what is minted, which is at
    least [min_lp_tokens], and the protocol's TVL by the sum taken. *)
Theorem add_liquidity_conservation
    pool protocol treasury a b min_lp sender out :
  add_liquidity pool protocol treasury a b min_lp sender = Ok out ->
  ev_token_a_amount (added_event out) + added_refund_a out = a /\
  ev_token_b_amount (added_event out) + added_refund_b out = b /\
  0 <= added_refund_a out /\ 0 <= added_refund_b out /\
  (added_refund_a out = 0 \/ added_refund_b out = 0) /\
  token_a_reserve (added_pool out)
  = token_a_reserve pool + ev_token_a_amount (added_event out) /\
  token_b_reserve (added_pool out)
  = token_b_reserve pool + ev_token_b_amount (added_event out) /\
  lp_token_supply (added_pool out)
  = lp_token_supply pool + added_lp_tokens out /\
  added_lp_supply out = treasury + added_lp_tokens out /\
  min_lp <= added_lp_tokens out /\
  total_value_locked (added_protocol out)
  = total_value_locked protocol + ev_token_a_amount (added_event out)
    + ev_token_b_amount (added_event out).
Proof.
  intros H.
  apply add_liquidity_outcome in H
    as (ua & ub & lp & -> & -> & Hmin & Hua & Hub & -> & -> & -> & -> & -> & Hbr & _).
  cbn. repeat (split; [lia |]).
  split; [| repeat split; lia].
  destruct ((token_a_reserve pool =? 0) || (token_b_reserve pool =? 0)).
  - destruct Hbr as (-> & _). left. lia.
  - destruct Hbr as [(-> & _) | (-> & _)]; [left | right]; lia.
Qed.

Lemma add_liquidity_conservation_witness :
  exists out,
    add_liquidity Demo.pool Demo.protocol 1000000 500 800 0 9%N = Ok out /\
    ev_token_b_amount (added_event out) + added_refund_b out = 800 /\
    added_refund_a out = 0.
Proof.
  assert (E : exists out,
             add_liquidity Demo.pool Demo.protocol 1000000 500 800 0 9%N = Ok out)
    by (eexists; vm_compute; reflexivity).
  destruct E as [out E]. exists out. split; [exact E |].
  assert (Ha : added_refund_a out = 0).
  { vm_compute in E. inversion E. reflexivity. }
  split; [| exact Ha].
  exact (proj1 (proj2 (add_liquidity_conservation _ _ _ _ _ _ _ _ E))).
Defined.

(** X6. On a pool with positive reserves [add_liquidity] keeps the pool
    ratio to within rounding down: either all of coin A is taken, with
    [floor(a * reserve_b / reserve_a)] of coin B and
    [floor(a * supply / reserve_a)] LP minted, or all of coin B is taken,
    with the mirrored amounts; written without division. *)
Theorem add_liquidity_ratio
    pool protocol treasury a b min_lp sender out :
  0 < token_a_reserve pool -> 0 < token_b_reserve pool ->
  add_liquidity pool protocol treasury a b min_lp sender = Ok out ->
  let ua := ev_token_a_amount (added_event out) in
  let ub := ev_token_b_amount (added_event out) in
  let lp := added_lp_tokens out in
  (ua = a /\
   ub * token_a_reserve pool <= a * token_b_reserve pool
     < (ub + 1) * token_a_reserve pool /\
   lp * token_a_reserve pool <= a * lp_token_supply pool
     < (lp + 1) * token_a_reserve pool)
  \/
  (ub = b /\
   ua * token_b_reserve pool <= b * token_a_reserve pool
     < (ua + 1) * token_b_reserve pool /\
   lp * token_b_reserve pool <= b * lp_token_supply pool
     < (lp + 1) * token_b_reserve pool).
Proof.
  intros Hra Hrb H. cbv zeta.
  apply add_liquidity_outcome in H
    as (ua & ub & lp & -> & -> & _ & _ & _ & _ & _ & _ & _ & _ & Hbr & _).
  cbn.
  destruct (Z.eqb_spec (token_a_reserve pool) 0); [lia |].
  destruct (Z.eqb_spec (token_b_reserve pool) 0); [lia |].
  cbn in Hbr.
  destruct Hbr as [(-> & -> & ->) | (-> & -> & ->)]; [left | right];
    (split; [reflexivity |]).
  - pose proof (Z.mul_div_le (a * token_b_reserve pool) _ Hra).
    pose proof (Z.mul_succ_div_gt (a * token_b_reserve pool) _ Hra).
    pose proof (Z.mul_div_le (a * lp_token_supply pool) _ Hra).
    pose proof (Z.mul_succ_div_gt (a * lp_token_supply pool) _ Hra).
    lia.
  - pose proof (Z.mul_div_le (b * token_a_reserve pool) _ Hrb).
    pose proof (Z.mul_succ_div_gt (b * token_a_reserve pool) _ Hrb).
    pose proof (Z.mul_div_le (b * lp_token_supply pool) _ Hrb).
    pose proof (Z.mul_succ_div_gt (b * lp_token_supply pool) _ Hrb).
    lia.
Qed.

Lemma add_liquidity_ratio_witness :
  exists out,
    add_liquidity Demo.pool Demo.protocol 1000000 500 800 0 9%N = Ok out /\
    (ev_token_a_amount (added_event out) = 500 /\
     ev_token_b_amount (added_event out) = 500 /\
     added_lp_tokens out = 500
     \/
     ev_token_b_amount (added_event out) = 800 /\
     ev_token_a_amount (added_event out) = 800 /\
     added_lp_tokens out = 800).
Proof.
  assert (E : exists out,
             add_liquidity Demo.pool Demo.protocol 1000000 500 800 0 9%N = Ok out)
    by (eexists; vm_compute; reflexivity).
  destruct E as [out E]. exists out. split; [exact E |].
  pose proof (add_liquidity_ratio Demo.pool Demo.protocol 1000000 500 800 0 9%N
                out eq_refl eq_refl E) as Hr.
  cbv zeta in Hr. change (token_a_reserve Demo.pool) with 1000000 in Hr.
  change (token_b_reserve Demo.pool) with 1000000 in Hr.
  change (lp_token_supply Demo.pool) with 1000000 in Hr.
  destruct Hr as [(H1 & H2 & H3) | (H1 & H2 & H3)]; [left | right];
    repeat split; lia.
Defined.

End ProfileProperties.

(** ** Batch swaps *)

Section BatchProperties.
Import Defi.

Lemma vector_pop_back_snoc {A} (l : list A) (x : A) :
  vector_pop_back (l ++ [x]) = Ok (l, x).
Proof.
  unfold vector_pop_back. rewrite rev_app_distr. cbn.
  rewrite rev_involutive. reflexivity.
Qed.

Lemma snoc_of_length {A} (l : list A) n :
  length l = S n -> exists l' x, l = l' ++ [x] /\ length l' = n.
Proof.
  intros Hlen. destruct (exists_last (l := l)) as (l' & x & ->).
  - destruct l; [discriminate | discriminate].
  - exists l', x. split; [reflexivity |].
    rewrite length_app in Hlen. cbn in Hlen. lia.
Qed.

(** The loop of [batch_swaps] is the fold of the single step over the
    orders from the last to the first, and it leaves both vectors empty. *)
Lemma batch_swaps_loop_fold n : forall pool tokens mins sent,
  length tokens = n -> length mins = n ->
  batch_swaps_loop n pool tokens mins sent
  = (do '(pool', sent') <- batch_fold pool (rev (zip tokens mins)) sent;
     Ok (pool', [], [], sent')).
Proof.
  induction n as [| n IH]; intros pool tokens mins sent Ht Hm.
  - destruct tokens; [| discriminate]. destruct mins; [| discriminate].
    reflexivity.
  - destruct (snoc_of_length tokens n Ht) as (tokens' & t & -> & Ht').
    destruct (snoc_of_length mins n Hm) as (mins' & m & -> & Hm').
    cbn [batch_swaps_loop]. rewrite !vector_pop_back_snoc. cbn [bind].
    rewrite (zip_with_app pair tokens' [t] mins' [m]) by lia. cbn [zip_with].
    rewrite rev_app_distr. cbn [rev app batch_fold].
    destruct (batch_swap_one pool t m sent) as [[pool' sent'] | e]; cbn [bind].
    + apply IH; assumption.
    + reflexivity.
Qed.

(** X7. [batch_swaps] is the sequence of its single swaps taken from the
    last coin to the first, each against the pool the previous one left;
    it aborts on a paused protocol and on vectors of different lengths, and
    otherwise only where one of the single steps aborts. *)
Theorem batch_swaps_from_last_to_first pool protocol tokens mins :
  (is_paused protocol = true ->
   batch_swaps pool protocol tokens mins
   = Abort (AssertionFailed ENotAuthorized)) /\
  (is_paused protocol = false -> length mins <> length tokens ->
   batch_swaps pool protocol tokens mins
   = Abort (AssertionFailed EInvalidTokenType)) /\
  (is_paused protocol = false -> length mins = length tokens ->
   batch_swaps pool protocol tokens mins
   = batch_fold pool (rev (zip tokens mins)) []).
Proof.
  unfold batch_swaps. split; [| split].
  - intros ->. reflexivity.
  - intros -> Hne. cbn [negb assert bind].
    destruct (Nat.eqb_spec (length mins) (length tokens)); [contradiction |].
    reflexivity.
  - intros -> Heq. cbn [negb assert bind].
    destruct (Nat.eqb_spec (length mins) (length tokens)); [| contradiction].
    cbn [assert bind].
    rewrite (batch_swaps_loop_fold (length tokens)) by (reflexivity || assumption).
    destruct (batch_fold pool (rev (zip tokens mins)) []) as [[pool' sent] | err];
      reflexivity.
Qed.

Lemma batch_swaps_from_last_to_first_witness :
  batch_swaps Demo.pool Demo.protocol Demo.batch_coins Demo.batch_minimums
  = batch_fold Demo.pool [(0, 0); (2000, 5000); (1000, 0)] [] /\
  batch_swaps Demo.pool Demo.protocol Demo.batch_coins [0; 0]
  = Abort (AssertionFailed EInvalidTokenType).
Proof.
  split.
  - apply (proj2 (proj2 (batch_swaps_from_last_to_first Demo.pool Demo.protocol
                           Demo.batch_coins Demo.batch_minimums)));
      reflexivity.
  - apply (proj1 (proj2 (batch_swaps_from_last_to_first Demo.pool Demo.protocol
                           Demo.batch_coins [0; 0])));
      [reflexivity | vm_compute; discriminate].
Defined.

Lemma paid_out_total_app sent sent' :
  paid_out_total (sent ++ sent') = paid_out_total sent + paid_out_total sent'.
Proof.
  unfold paid_out_total. induction sent as [| [v | v] sent IH]; cbn in *; lia.
Qed.

Lemma refunded_total_app sent sent' :
  refunded_total (sent ++ sent') = refunded_total sent + refunded_total sent'.
Proof.
  unfold refunded_total. induction sent as [| [v | v] sent IH]; cbn in *; lia.
Qed.

Lemma coins_total_app l l' :
  coins_total (l ++ l') = coins_total l + coins_total l'.
Proof. unfold coins_total. induction l as [| x l IH]; cbn in *; lia. Qed.

Lemma coins_total_rev l : coins_total (rev l) = coins_total l.
Proof.
  induction l as [| x l IH]; [reflexivity |].
  cbn [rev]. rewrite coins_total_app, IH. unfold coins_total. cbn. lia.
Qed.

(** What one step of the batch does to the pool and to the coins. *)
Lemma batch_swap_one_step pool token_in min_out sent pool' sent' :
  in_u64 (swap_fee_rate pool) ->
  0 < token_a_reserve pool -> 0 < token_b_reserve pool -> 0 <= token_in ->
  batch_swap_one pool token_in min_out sent = Ok (pool', sent') ->
  0 < token_a_reserve pool' /\ 0 < token_b_reserve pool' /\
  reserve_product pool <= reserve_product pool' /\
  token_a_reserve pool' + refunded_total sent'
  = token_a_reserve pool + refunded_total sent + token_in /\
  token_b_reserve pool' + paid_out_total sent'
  = token_b_reserve pool + paid_out_total sent /\
  swap_fee_rate pool' = swap_fee_rate pool /\
  last_price pool' = last_price pool /\
  k_constant pool' = k_constant pool /\
  lp_token_supply pool' = lp_token_supply pool.
Proof.
  intros [Hfee _] Ha Hb Hin. unfold batch_swap_one, reserve_product.
  destruct (Z.gtb_spec token_in 0) as [Hpos | Hzero].
  - intros H. apply bind_Ok in H as (amount_out & Hout & H).
    apply calculate_constant_product_output_Ok in Hout as [Hmax Hout].
    destruct (constant_product_step (token_a_reserve pool) (token_b_reserve pool)
                token_in (swap_fee_rate pool) amount_out)
      as (Hrange & Hle & _); auto.
    destruct (amount_out >=? min_out).
    + peel H.
      match goal with Hs : balance_split _ _ = Ok _ |- _ =>
        apply balance_split_Ok in Hs as (-> & -> & ?) end.
      arith_facts. inversion H; subst; clear H. cbn.
      rewrite paid_out_total_app, refunded_total_app. cbn.
      repeat split; lia.
    + inversion H; subst; clear H.
      rewrite paid_out_total_app, refunded_total_app. cbn.
      repeat split; lia.
  - intros H. inversion H; subst; clear H. repeat split; lia.
Qed.

Lemma batch_fold_steps orders : forall pool sent pool' sent',
  in_u64 (swap_fee_rate pool) ->
  0 < token_a_reserve pool -> 0 < token_b_reserve pool ->
  Forall (fun o => 0 <= fst o) orders ->
  batch_fold pool orders sent = Ok (pool', sent') ->
  0 < token_a_reserve pool' /\ 0 < token_b_reserve pool' /\
  reserve_product pool <= reserve_product pool' /\
  token_a_reserve pool' + refunded_total sent'
  = token_a_reserve pool + refunded_total sent + coins_total (map fst orders) /\
  token_b_reserve pool' + paid_out_total sent'
  = token_b_reserve pool + paid_out_total sent /\
  last_price pool' = last_price pool /\
  k_constant pool' = k_constant pool /\
  lp_token_supply pool' = lp_token_supply pool.
Proof.
  induction orders as [| [t m] orders IH]; intros pool sent pool' sent'
    Hfee Ha Hb Hall H.
  - inversion H; subst. unfold coins_total. cbn. repeat split; lia.
  - cbn [batch_fold] in H. apply bind_Ok in H as ([pool1 sent1] & Hone & H).
    inversion Hall as [| o os Ht Hrest]; subst. cbn [fst] in Ht.
    destruct (batch_swap_one_step _ _ _ _ _ _ Hfee Ha Hb Ht Hone)
      as (Ha1 & Hb1 & Hp1 & Hin1 & Hout1 & Hf1 & Hl1 & Hk1 & Hs1).
    apply IH in H; [| rewrite Hf1; exact Hfee | exact Ha1 | exact Hb1 | exact Hrest].
    destruct H as (Ha2 & Hb2 & Hp2 & Hin2 & Hout2 & Hl2 & Hk2 & Hs2).
    unfold coins_total in *. cbn [map foldr fst].
    repeat split; try lia; congruence.
Qed.

(** X8. A batch on a pool with positive reserves conserves the coins and
    never lowers the product of the reserves: every coin given is joined to
    reserve A or handed back, reserve B falls by exactly what is paid out
    and stays positive, and [last_price], [k_constant] and the LP supply are
    left as they were. *)
Theorem batch_swaps_conserves pool protocol tokens mins pool' sent :
  in_u64 (swap_fee_rate pool) ->
  0 < token_a_reserve pool -> 0 < token_b_reserve pool ->
  Forall (fun t => 0 <= t) tokens ->
  batch_swaps pool protocol tokens mins = Ok (pool', sent) ->
  reserve_product pool <= reserve_product pool' /\
  0 < token_b_reserve pool' /\
  token_a_reserve pool' + refunded_total sent
  = token_a_reserve pool + coins_total tokens /\
  token_b_reserve pool' + paid_out_total sent = token_b_reserve pool /\
  last_price pool' = last_price pool /\
  k_constant pool' = k_constant pool /\
  lp_token_supply pool' = lp_token_supply pool.
Proof.
  intros Hfee Ha Hb Hall H.
  destruct (batch_swaps_from_last_to_first pool protocol tokens mins)
    as (Hpaused & Hlen & Hfold).
  destruct (is_paused protocol) eqn:Hp.
  { rewrite Hpaused in H by reflexivity. discriminate. }
  destruct (Nat.eq_dec (length mins) (length tokens)) as [Heq | Hne];
    [| rewrite Hlen in H by auto; discriminate].
  rewrite Hfold in H by auto.
  apply batch_fold_steps in H; auto.
  - destruct H as (_ & Hb' & Hprod & Hin & Hout & Hl & Hk & Hs).
    assert (Hsum : coins_total (map fst (rev (zip tokens mins)))
                   = coins_total tokens).
    { rewrite map_rev, coins_total_rev.
      change (map fst (zip tokens mins)) with (fst <$> zip tokens mins).
      rewrite fst_zip by lia. reflexivity. }
    rewrite Hsum in Hin. cbn in Hin, Hout. repeat split; lia || assumption.
  - apply Forall_rev. apply Forall_forall. intros [t m] Hin.
    apply elem_of_zip_l in Hin. cbn.
    rewrite Forall_forall in Hall. apply Hall. exact Hin.
Qed.

Lemma batch_swaps_conserves_witness :
  exists pool' sent,
    batch_swaps Demo.pool Demo.protocol Demo.batch_coins Demo.batch_minimums
    = Ok (pool', sent) /\
    sent = [Refunded 2000; PaidOut 996] /\
    token_a_reserve pool' + refunded_total sent = 1000000 + 3000 /\
    token_b_reserve pool' + paid_out_total sent = 1000000.
Proof.
  assert (E : batch_swaps Demo.pool Demo.protocol Demo.batch_coins
                Demo.batch_minimums
              = Ok (set_reserves Demo.pool 1001000 999004,
                    [Refunded 2000; PaidOut 996]))
    by (vm_compute; reflexivity).
  do 2 eexists. split; [exact E |]. split; [reflexivity |].
  assert (Hfee : in_u64 (swap_fee_rate Demo.pool))
    by (split; vm_compute; discriminate).
  assert (Hall : Forall (fun t => 0 <= t) Demo.batch_coins)
    by (repeat constructor; vm_compute; discriminate).
  destruct (batch_swaps_conserves _ _ _ _ _ _ Hfee eq_refl eq_refl Hall E)
    as (_ & _ & H1 & H2 & _).
  split; [exact H1 | exact H2].
Defined.

End BatchProperties.

(** ** Protocol administration *)

Section AdminProperties.
Import Defi.

Lemma protocol_eta protocol :
  mkProtocol (version protocol) (admin protocol) (total_value_locked protocol)
    (trading_fee_rate protocol) (governance_threshold protocol)
    (is_paused protocol) (profiles protocol) = protocol.
Proof. destruct protocol. reflexivity. Qed.

(** X9. The trading fee is capped at 1000 basis points.
    [update_protocol_parameters] aborts with [ENotAuthorized] for anyone
    but the admin and with [EInvalidTokenType] for a fee above 1000; when
    it succeeds the protocol afterwards is the protocol before with the
    fee and the governance threshold that were given put in and every
    other field, version, admin, TVL, pause flag and profiles, as it was,
    so a fee of at most 1000 stays at most 1000. *)
Theorem trading_fee_cap :
  (forall protocol fee threshold sender,
     sender <> admin protocol ->
     update_protocol_parameters protocol fee threshold sender
     = Abort (AssertionFailed ENotAuthorized)) /\
  (forall protocol fee threshold,
     1000 < fee ->
     update_protocol_parameters protocol (Some fee) threshold (admin protocol)
     = Abort (AssertionFailed EInvalidTokenType)) /\
  (forall protocol fee threshold sender protocol',
     update_protocol_parameters protocol fee threshold sender = Ok protocol' ->
     sender = admin protocol /\
     protocol'
     = mkProtocol (version protocol) (admin protocol)
         (total_value_locked protocol)
         (default (trading_fee_rate protocol) fee)
         (default (governance_threshold protocol) threshold)
         (is_paused protocol) (profiles protocol) /\
     (trading_fee_rate protocol <= 1000 -> trading_fee_rate protocol' <= 1000)).
Proof.
  split; [| split].
  - intros protocol fee threshold sender Hne. unfold update_protocol_parameters.
    destruct (N.eqb_spec sender (admin protocol)); [congruence | reflexivity].
  - intros protocol fee threshold Hbig. unfold update_protocol_parameters.
    rewrite N.eqb_refl. cbn [assert bind].
    destruct (Z.leb_spec fee 1000); [lia | reflexivity].
  - intros protocol fee threshold sender protocol' H.
    unfold update_protocol_parameters in H.
    apply bind_Ok in H as (u & Hadmin & H).
    apply bind_Ok in H as (rate & Hrate & H). arith_facts.
    inversion H; subst protocol'; clear H. cbn.
    destruct fee as [f |]; cbn in *.
    + peel Hrate. arith_facts. inversion Hrate; subst.
      destruct threshold; repeat split; auto; lia.
    + inversion Hrate; subst. destruct threshold; repeat split; auto.
Qed.

Lemma trading_fee_cap_witness :
  update_protocol_parameters Demo.protocol (Some 1000) None 9%N
  = Abort (AssertionFailed ENotAuthorized) /\
  update_protocol_parameters Demo.protocol (Some 1001) None 7%N
  = Abort (AssertionFailed EInvalidTokenType) /\
  update_protocol_parameters Demo.protocol (Some 1000) None 7%N
  = Ok (mkProtocol 1 7%N 0 1000 100000000000 false ∅).
Proof.
  destruct trading_fee_cap as (Hother & Hreject & Hupdate).
  split; [| split].
  - apply (Hother Demo.protocol (Some 1000) None 9%N). discriminate.
  - apply (Hreject Demo.protocol 1001 None). reflexivity.
  - assert (E : exists protocol',
               update_protocol_parameters Demo.protocol (Some 1000) None 7%N
               = Ok protocol')
      by (eexists; vm_compute; reflexivity).
    destruct E as [protocol' E]. rewrite E.
    destruct (Hupdate _ _ _ _ _ E) as (_ & -> & _). reflexivity.
Defined.

(** X10. [transfer_admin] hands the protocol over at once: it succeeds only
    for the admin; the protocol afterwards is the protocol before with the
    new admin and every other field, version, TVL, fee, governance
    threshold, pause flag and profiles, as it was; and when the new admin
    is another address, every admin operation by the previous admin aborts
    with [ENotAuthorized] while the new admin can perform them. *)
Theorem transfer_admin_hands_over protocol new_admin sender protocol' :
  transfer_admin protocol new_admin sender = Ok protocol' ->
  sender = admin protocol /\
  protocol'
  = mkProtocol (version protocol) new_admin (total_value_locked protocol)
      (trading_fee_rate protocol) (governance_threshold protocol)
      (is_paused protocol) (profiles protocol) /\
  (new_admin <> sender ->
   (forall paused, set_protocol_pause protocol' paused sender
                   = Abort (AssertionFailed ENotAuthorized)) /\
   (forall reason, emergency_pause protocol' reason sender
                   = Abort (AssertionFailed ENotAuthorized)) /\
   (forall fee threshold,
      update_protocol_parameters protocol' fee threshold sender
      = Abort (AssertionFailed ENotAuthorized)) /\
   (forall next, transfer_admin protocol' next sender
                 = Abort (AssertionFailed ENotAuthorized)) /\
   (forall a b stable amp,
      create_liquidity_pool protocol' a b stable amp sender
      = Abort (AssertionFailed ENotAuthorized))) /\
  (forall paused, succeeds (set_protocol_pause protocol' paused new_admin)) /\
  (forall next, succeeds (transfer_admin protocol' next new_admin)).
Proof.
  unfold transfer_admin. intros H.
  apply bind_Ok in H as (u & Hadmin & H). arith_facts.
  inversion H; subst protocol'; clear H.
  split; [assumption |]. split; [reflexivity |].
  split; [| split].
  - intros Hne.
    assert (Hno : N.eqb sender new_admin = false)
      by (apply N.eqb_neq; congruence).
    unfold set_protocol_pause, emergency_pause, update_protocol_parameters,
      transfer_admin. cbn. rewrite Hno. cbn.
    do 4 (split; [reflexivity |]).
    intros a b stable amp. unfold create_liquidity_pool. cbn.
    destruct (is_paused protocol); cbn; [reflexivity |].
    rewrite Hno. reflexivity.
  - intros paused. unfold set_protocol_pause. cbn. rewrite N.eqb_refl.
    eexists; reflexivity.
  - intros next. unfold transfer_admin. cbn. rewrite N.eqb_refl.
    eexists; reflexivity.
Qed.

Lemma transfer_admin_hands_over_witness :
  transfer_admin Demo.protocol 8%N 7%N
  = Ok (mkProtocol 1 8%N 0 30 100000000000 false ∅) /\
  set_protocol_pause (mkProtocol 1 8%N 0 30 100000000000 false ∅) true 7%N
  = Abort (AssertionFailed ENotAuthorized) /\
  succeeds (set_protocol_pause (mkProtocol 1 8%N 0 30 100000000000 false ∅)
              true 8%N).
Proof.
  assert (E : transfer_admin Demo.protocol 8%N 7%N
              = Ok (mkProtocol 1 8%N 0 30 100000000000 false ∅))
    by (vm_compute; reflexivity).
  split; [exact E |].
  destruct (transfer_admin_hands_over _ _ _ _ E) as (_ & _ & Hold & Hcan & _).
  split; [apply Hold; discriminate | apply Hcan].
Defined.

(** X11. A paused protocol trades nothing: after [emergency_pause],
    [create_liquidity_pool], [add_liquidity], [swap_exact_input],
    [batch_swaps] and [start_yield_farming] all abort with
    [ENotAuthorized], and [set_protocol_pause] with [false] by the admin
    gives back exactly the protocol that was paused. *)
Theorem emergency_pause_round_trip protocol reason sender paused :
  is_paused protocol = false ->
  emergency_pause protocol reason sender = Ok paused ->
  (forall a b stable amp who,
     create_liquidity_pool paused a b stable amp who
     = Abort (AssertionFailed ENotAuthorized)) /\
  (forall pool treasury a b min_lp who,
     add_liquidity pool paused treasury a b min_lp who
     = Abort (AssertionFailed ENotAuthorized)) /\
  (forall pool token_in min_out who,
     swap_exact_input pool paused token_in min_out who
     = Abort (AssertionFailed ENotAuthorized)) /\
  (forall pool tokens mins,
     batch_swaps pool paused tokens mins
     = Abort (AssertionFailed ENotAuthorized)) /\
  (forall stake_token days compound who,
     Farming.start_yield_farming paused stake_token days compound who
     = Abort (AssertionFailed ENotAuthorized)) /\
  set_protocol_pause paused false sender = Ok protocol.
Proof.
  intros Hrun H. unfold emergency_pause in H.
  apply bind_Ok in H as (u & Hadmin & H). arith_facts.
  inversion H; subst paused; clear H.
  repeat (split; [intros; reflexivity |]).
  unfold set_protocol_pause. cbn. subst sender. rewrite N.eqb_refl. cbn.
  rewrite <- Hrun. rewrite protocol_eta. reflexivity.
Qed.

Lemma emergency_pause_round_trip_witness :
  exists paused,
    emergency_pause Demo.protocol [] 7%N = Ok paused /\
    swap_exact_input Demo.pool paused 10000 0 9%N
    = Abort (AssertionFailed ENotAuthorized) /\
    set_protocol_pause paused false 7%N = Ok Demo.protocol.
Proof.
  assert (E : exists paused, emergency_pause Demo.protocol [] 7%N = Ok paused)
    by (eexists; vm_compute; reflexivity).
  destruct E as [paused E]. exists paused. split; [exact E |].
  destruct (emergency_pause_round_trip Demo.protocol [] 7%N paused eq_refl E)
    as (_ & _ & Hswap & _ & _ & Hback).
  split; [apply Hswap | exact Hback].
Defined.

End AdminProperties.

(** ** Yield farming *)

Section FarmingProperties.
Import Farming.

(** Rewards are counted in whole years: under one year of staking the
    reward is zero. *)
Lemma calculate_yield_rewards_under_a_year staked rate time multiplier :
  in_u64 (staked * rate) -> 0 <= time < MS_PER_YEAR ->
  calculate_yield_rewards staked rate time multiplier = Ok 0.
Proof.
  intros Hfit [H0 Hlt]. unfold calculate_yield_rewards, mul64.
  rewrite checked_in by exact Hfit. cbn [bind].
  rewrite div64_pos by lia. cbn [bind].
  rewrite div64_pos by (unfold MS_PER_YEAR; lia). cbn [bind].
  rewrite (Z.div_small time MS_PER_YEAR) by lia.
  rewrite Z.mul_0_r. rewrite checked_in by (unfold u64_max; lia). cbn [bind].
  rewrite Z.mul_0_l. rewrite checked_in by (unfold u64_max; lia). cbn [bind].
  rewrite div64_pos by lia. cbn [bind]. change (0 / 100) with 0.
  rewrite Z.mul_0_l. rewrite checked_in by (unfold u64_max; lia). cbn [bind].
  rewrite div64_pos by lia. reflexivity.
Qed.

(** X12. A harvest by the owner less than 365 days (31,536,000,000 ms)
    after the stake's timestamp pays nothing, whatever the lock: when
    [staked_amount * reward_rate] fits in 64 bits the call succeeds, mints
    nothing, emits nothing and leaves the stake as it was; when that
    product is larger the call aborts with an arithmetic error. *)
Theorem harvest_rewards_under_a_year stake yld_reserve yld_treasury clock sender :
  owner stake = sender ->
  0 <= staked_amount stake -> 0 <= reward_rate stake ->
  in_u64 (stake_timestamp stake) -> in_u64 clock ->
  stake_timestamp stake <= clock < stake_timestamp stake + MS_PER_YEAR ->
  harvest_rewards stake yld_reserve yld_treasury clock sender
  = (if staked_amount stake * reward_rate stake <=? u64_max
     then Ok (mkHarvest stake yld_reserve yld_treasury 0 [])
     else Abort ArithmeticError).
Proof.
  intros Howner Hamount Hrate Hstamp Hclock [Hlo Hhi]. unfold harvest_rewards.
  rewrite Howner, N.eqb_refl. cbn [assert bind].
  unfold sub64. rewrite checked_in by (unfold in_u64 in *; lia).
  cbn [bind].
  destruct (Z.leb_spec (staked_amount stake * reward_rate stake) u64_max)
    as [Hfit | Hbig].
  - rewrite calculate_yield_rewards_under_a_year
      by (unfold in_u64; auto; nia).
    reflexivity.
  - unfold calculate_yield_rewards, mul64.
    rewrite checked_out by (right; exact Hbig). reflexivity.
Qed.

Lemma harvest_rewards_under_a_year_witness :
  harvest_rewards Demo.stake 0 0 31535999999 9%N
  = Ok (mkHarvest Demo.stake 0 0 0 []) /\
  harvest_rewards Demo.large_stake 0 0 31535999999 9%N = Abort ArithmeticError.
Proof.
  assert (Hin : forall v, 0 <= v <= 31535999999 -> in_u64 v)
    by (intros v Hv; unfold in_u64, u64_max; lia).
  split.
  - rewrite (harvest_rewards_under_a_year Demo.stake 0 0 31535999999 9%N);
      first [reflexivity | apply Hin; cbn; lia | cbn; lia
            | unfold MS_PER_YEAR; cbn; lia].
  - rewrite (harvest_rewards_under_a_year Demo.large_stake 0 0 31535999999 9%N);
      first [reflexivity | apply Hin; cbn; lia | cbn; lia
            | unfold MS_PER_YEAR; cbn; lia].
Defined.

(** What a harvest that pays did. *)
Lemma harvest_rewards_paid stake yld_reserve yld_treasury clock sender out reward :
  harvest_rewards stake yld_reserve yld_treasury clock sender = Ok out ->
  harvested_events out = [RewardsHarvested sender reward "YLD" clock] ->
  owner stake = sender /\
  0 < reward < u64_max - yld_treasury /\
  calculate_yield_rewards (staked_amount stake) (reward_rate stake)
    (clock - stake_timestamp stake) (performance_multiplier stake) = Ok reward /\
  harvested_supply out = yld_treasury + reward /\
  in_u64 (accumulated_rewards stake + reward) /\
  harvested_stake out
  = mkStake (owner stake)
      (if is_compound_enabled stake then staked_amount stake + reward
       else staked_amount stake)
      (staked_token_type stake) (stake_timestamp stake) (lock_duration stake)
      (reward_rate stake) (accumulated_rewards stake + reward)
      (is_compound_enabled stake) (performance_multiplier stake) /\
  harvested_payout out = (if is_compound_enabled stake then 0 else reward) /\
  harvested_reserve out
  = (if is_compound_enabled stake then yld_reserve + reward else yld_reserve).
Proof.
  unfold harvest_rewards. intros H Hev.
  apply bind_Ok in H as (u & Howner & H).
  apply bind_Ok in H as (time_staked & Htime & H).
  apply bind_Ok in H as (rewards & Hrewards & H).
  arith_facts. subst time_staked.
  destruct (Z.gtb_spec rewards 0) as [Hpos | Hzero];
    [| inversion H; subst out; discriminate].
  apply bind_Ok in H as (supply & Hmint & H).
  unfold Defi.coin_mint in Hmint.
  destruct (Z.ltb_spec rewards (u64_max - yld_treasury)); [| discriminate].
  inversion Hmint; subst supply; clear Hmint.
  apply bind_Ok in H as ([[staked reserve] payout] & Hmode & H).
  apply bind_Ok in H as (accumulated & Hacc & H).
  arith_facts. subst accumulated. inversion H; subst out; clear H.
  cbn in Hev. inversion Hev; subst reward; clear Hev. cbn.
  split; [assumption |]. split; [lia |]. split; [assumption |].
  split; [reflexivity |]. split; [assumption |].
  destruct (is_compound_enabled stake).
  - peel Hmode. arith_facts. inversion Hmode; subst. repeat split; reflexivity.
  - inversion Hmode; subst. repeat split; reflexivity.
Qed.

(** X13. A harvest does not move the stake's timestamp, so what it paid is
    owed again at once: after a harvest that paid [reward] to a stake
    without compounding, a second harvest at the same time pays the same
    [reward] again, as long as the YLD supply and the stake's counter of
    accumulated rewards have room for it. *)
Theorem harvest_rewards_pays_again
    stake yld_reserve yld_treasury clock sender out reward :
  is_compound_enabled stake = false ->
  harvest_rewards stake yld_reserve yld_treasury clock sender = Ok out ->
  harvested_events out = [RewardsHarvested sender reward "YLD" clock] ->
  reward < u64_max - harvested_supply out ->
  accumulated_rewards (harvested_stake out) + reward <= u64_max ->
  stake_timestamp (harvested_stake out) = stake_timestamp stake /\
  exists again,
    harvest_rewards (harvested_stake out) (harvested_reserve out)
      (harvested_supply out) clock sender = Ok again /\
    harvested_payout again = reward /\
    harvested_payout out = reward /\
    accumulated_rewards (harvested_stake again)
    = accumulated_rewards stake + 2 * reward.
Proof.
  intros Hplain H Hev Hroom Hacc.
  destruct (harvest_rewards_paid _ _ _ _ _ _ _ H Hev)
    as (Howner & Hreward & Hcalc & Hsupply & Hfit & Hstake & Hpay & Hres).
  rewrite Hplain in Hstake, Hpay, Hres.
  rewrite Hstake in *. cbn in Hacc. cbn. split; [reflexivity |].
  unfold harvest_rewards. cbn. rewrite Howner, N.eqb_refl. cbn [assert bind].
  assert (Htime : sub64 clock (stake_timestamp stake)
                  = Ok (clock - stake_timestamp stake)).
  { unfold harvest_rewards in H.
    apply bind_Ok in H as (u & _ & H).
    apply bind_Ok in H as (ts & Hts & _).
    pose proof Hts as Hts'. apply checked_Ok in Hts' as [-> _]. exact Hts. }
  rewrite Htime. cbn [bind]. rewrite Hcalc. cbn [bind].
  destruct (Z.gtb_spec reward 0); [| lia].
  unfold Defi.coin_mint.
  destruct (Z.ltb_spec reward (u64_max - harvested_supply out)); [| lia].
  cbn [bind]. unfold add64.
  rewrite checked_in by (unfold in_u64 in Hfit; lia). cbn [bind].
  eexists. split; [reflexivity |]. cbn. repeat split; try lia.
Qed.

Lemma harvest_rewards_pays_again_witness :
  exists out again,
    harvest_rewards Demo.stake 0 0 31536000000 9%N = Ok out /\
    harvested_payout out = 110000 /\
    harvest_rewards (harvested_stake out) (harvested_reserve out)
      (harvested_supply out) 31536000000 9%N = Ok again /\
    harvested_payout again = 110000.
Proof.
  assert (E : exists out,
             harvest_rewards Demo.stake 0 0 31536000000 9%N = Ok out /\
             harvested_events out
             = [RewardsHarvested 9%N 110000 "YLD" 31536000000] /\
             harvested_supply out = 110000 /\
             accumulated_rewards (harvested_stake out) = 110000)
    by (eexists; vm_compute; repeat split; reflexivity).
  destruct E as (out & E & Hev & Hsup & Hacc).
  destruct (harvest_rewards_pays_again Demo.stake 0 0 31536000000 9%N out 110000
              eq_refl E Hev) as (_ & again & Hagain & Hp2 & Hp1 & _).
  - rewrite Hsup. vm_compute. reflexivity.
  - rewrite Hacc. vm_compute. discriminate.
  - exists out, again. repeat split; assumption.
Defined.

End FarmingProperties.

(** ** The price registry of the protocol *)

Section RegistryProperties.
Import Registry.

Lemma update_price_oracle_Ok registry pair new_price conf clock sender
    registry' events :
  update_price_oracle registry pair new_price conf clock sender
  = Ok (registry', events) ->
  is_Some (authorized_updaters registry !! sender) /\ conf <= 100 /\
  registry' = set_oracles registry
                (<[pair := fresh_oracle pair new_price conf clock]>
                   (oracles registry)).
Proof.
  unfold update_price_oracle. intros H.
  apply bind_Ok in H as (u1 & Hauth & H).
  apply bind_Ok in H as (u2 & Hconf & H).
  apply bind_Ok in H as (old & _ & H).
  apply bind_Ok in H as (u3 & _ & H).
  apply assert_Ok in Hauth. apply bool_decide_eq_true_1 in Hauth.
  arith_facts. inversion H; subst. auto.
Qed.

(** X14. On a pair whose stored price [old] is positive,
    [update_price_oracle] by an authorised updater with a confidence of at
    most 100 is decided by [|new - old| * 10000]: when that does not fit in
    64 bits the call aborts with an arithmetic error; otherwise, with the
    deviation [|new - old| * 10000 / old] up to the registry's
    [max_price_deviation], the price, confidence and time are stored and
    served by [get_oracle_price], and with a larger deviation the call
    aborts with [EPriceOracleStale]. *)
Theorem update_price_oracle_guard
    registry pair oracle new_price conf clock sender :
  is_Some (authorized_updaters registry !! sender) ->
  conf <= 100 ->
  oracles registry !! pair = Some oracle ->
  0 < price oracle -> in_u64 (price oracle) -> in_u64 new_price ->
  if u64_max <? Z.abs (new_price - price oracle) * 10000
  then update_price_oracle registry pair new_price conf clock sender
       = Abort ArithmeticError
  else if Z.abs (new_price - price oracle) * 10000 / price oracle
          <=? max_price_deviation registry
  then exists registry',
      update_price_oracle registry pair new_price conf clock sender
      = Ok (registry',
            [PriceOracleUpdated pair (price oracle) new_price conf sender clock])
      /\ get_oracle_price registry' pair = Ok (new_price, conf, clock)
  else update_price_oracle registry pair new_price conf clock sender
       = Abort (AssertionFailed Defi.EPriceOracleStale).
Proof.
  intros Hauth Hconf Hold Hpos Hfit_old Hfit_new. unfold update_price_oracle.
  rewrite (bool_decide_eq_true_2 _ Hauth). cbn [assert bind].
  destruct (Z.leb_spec conf 100); [| lia]. cbn [assert bind].
  rewrite Hold. rewrite bool_decide_eq_true_2 by eauto.
  rewrite (table_borrow_Some _ _ _ Hold). cbn [bind].
  destruct (Z.gtb_spec (price oracle) 0); [| lia].
  assert (Hdiff : (if new_price >? price oracle
                   then sub64 new_price (price oracle)
                   else sub64 (price oracle) new_price)
                  = Ok (Z.abs (new_price - price oracle))).
  { unfold sub64, in_u64 in *. destruct (Z.gtb_spec new_price (price oracle)).
    - rewrite checked_in by lia. f_equal. lia.
    - rewrite checked_in by lia. f_equal. lia. }
  rewrite Hdiff. cbn [bind]. unfold mul64.
  destruct (Z.ltb_spec u64_max (Z.abs (new_price - price oracle) * 10000))
    as [Hbig | Hfit].
  - rewrite checked_out by (right; exact Hbig). reflexivity.
  - rewrite checked_in by lia. cbn [bind].
    rewrite div64_pos by lia. cbn [bind].
    destruct (Z.abs (new_price - price oracle) * 10000 / price oracle
              <=? max_price_deviation registry); cbn [assert bind].
    + eexists. split; [reflexivity |].
      unfold get_oracle_price, Oracle.table_borrow. cbn [oracles set_oracles].
      rewrite lookup_insert_eq. rewrite bool_decide_eq_true_2 by eauto.
      reflexivity.
    + reflexivity.
Qed.

Lemma update_price_oracle_guard_witness :
  (exists registry',
     update_price_oracle Demo.registry Demo.pair 105 90 2000 5%N
     = Ok (registry', [PriceOracleUpdated Demo.pair 100 105 90 5%N 2000]) /\
     get_oracle_price registry' Demo.pair = Ok (105, 90, 2000)) /\
  update_price_oracle Demo.registry Demo.pair 106 90 2000 5%N
  = Abort (AssertionFailed Defi.EPriceOracleStale) /\
  update_price_oracle Demo.registry Demo.pair 10000000000000000 90 2000 5%N
  = Abort ArithmeticError.
Proof.
  assert (Hauth : is_Some (authorized_updaters Demo.registry !! 5%N))
    by (eexists; vm_compute; reflexivity).
  assert (Hold : oracles Demo.registry !! Demo.pair
                 = Some (fresh_oracle Demo.pair 100 90 1000))
    by (vm_compute; reflexivity).
  assert (Hin : forall v, 0 <= v <= 10000000000000000 -> in_u64 v)
    by (intros v Hv; unfold in_u64, u64_max; lia).
  split; [| split].
  - apply (update_price_oracle_guard Demo.registry Demo.pair _ 105 90 2000 5%N
             Hauth ltac:(lia) Hold ltac:(cbn; lia) ltac:(apply Hin; cbn; lia)
             ltac:(apply Hin; lia)).
  - apply (update_price_oracle_guard Demo.registry Demo.pair _ 106 90 2000 5%N
             Hauth ltac:(lia) Hold ltac:(cbn; lia) ltac:(apply Hin; cbn; lia)
             ltac:(apply Hin; lia)).
  - apply (update_price_oracle_guard Demo.registry Demo.pair _
             10000000000000000 90 2000 5%N
             Hauth ltac:(lia) Hold ltac:(cbn; lia) ltac:(apply Hin; cbn; lia)
             ltac:(apply Hin; lia)).
Defined.

Lemma batch_update_loop_Ok time pairs prices confs :
  length prices = length pairs -> length confs = length pairs ->
  Forall (fun bytes => internal_check_utf8 bytes = true) pairs ->
  Forall (fun c => c <= 100) confs ->
  forall rounds i registry,
    (i + rounds = length pairs)%nat ->
    exists registry',
      batch_update_loop registry time pairs prices confs i rounds = Ok registry' /\
      authorized_updaters registry' = authorized_updaters registry /\
      global_confidence_threshold registry'
      = global_confidence_threshold registry /\
      max_price_deviation registry' = max_price_deviation registry /\
      (forall j pair p c,
         (i <= j)%nat ->
         nth_error pairs j = Some pair -> nth_error prices j = Some p ->
         nth_error confs j = Some c ->
         (forall k, (j < k)%nat -> nth_error pairs k <> Some pair) ->
         oracles registry' !! pair = Some (fresh_oracle pair p c time)) /\
      (forall pair,
         (forall j, (i <= j)%nat -> nth_error pairs j <> Some pair) ->
         oracles registry' !! pair = oracles registry !! pair).
Proof.
  intros Hprices Hconfs Hvalid Hall.
  induction rounds as [| rounds IH]; intros i registry Hlen.
  - exists registry. do 4 (split; [reflexivity |]). split; [| reflexivity].
    intros j pair p c Hij Hpair. exfalso.
    assert (j < length pairs)%nat by (apply nth_error_Some; congruence). lia.
  - cbn [batch_update_loop].
    destruct (nth_error pairs i) as [pair_i |] eqn:Hpair_i;
      [| apply nth_error_None in Hpair_i; lia].
    destruct (nth_error prices i) as [price_i |] eqn:Hprice_i;
      [| apply nth_error_None in Hprice_i; lia].
    destruct (nth_error confs i) as [conf_i |] eqn:Hconf_i;
      [| apply nth_error_None in Hconf_i; lia].
    unfold Oracle.vector_borrow. rewrite Hpair_i, Hprice_i, Hconf_i.
    cbn [bind].
    assert (Hutf8 : internal_check_utf8 pair_i = true).
    { rewrite List.Forall_forall in Hvalid. apply Hvalid.
      eapply nth_error_In; eassumption. }
    unfold string_utf8. rewrite Hutf8. cbn [bind].
    assert (conf_i <= 100).
    { rewrite List.Forall_forall in Hall. apply Hall.
      eapply nth_error_In; eassumption. }
    destruct (Z.leb_spec conf_i 100); [| lia]. cbn [assert bind].
    destruct (IH (S i)
                (set_oracles registry
                   (<[pair_i := fresh_oracle pair_i price_i conf_i time]>
                      (oracles registry))))
      as (registry' & Hloop & Hupd & Hthr & Hdev & Hlast & Hrest); [lia |].
    exists registry'. split; [exact Hloop |].
    do 3 (split; [assumption |]). split.
    + intros j pair p c Hij Hpair Hprice Hconf Hlater.
      destruct (Nat.eq_dec j i) as [-> | Hne].
      * rewrite Hpair_i in Hpair. rewrite Hprice_i in Hprice.
        rewrite Hconf_i in Hconf.
        inversion Hpair; inversion Hprice; inversion Hconf; subst.
        rewrite Hrest by (intros k Hk; apply Hlater; lia).
        cbn [oracles set_oracles]. apply lookup_insert_eq.
      * apply (Hlast j); auto. lia.
    + intros pair Hnone. rewrite Hrest by (intros j Hj; apply Hnone; lia).
      cbn [oracles set_oracles]. apply lookup_insert_ne.
      intros ->. apply (Hnone i); [lia | exact Hpair_i].
Qed.

(** A batch that goes through has converted every name. *)
Lemma batch_update_loop_valid time pairs prices confs :
  forall rounds i registry registry',
    (i + rounds = length pairs)%nat ->
    batch_update_loop registry time pairs prices confs i rounds = Ok registry' ->
    forall j bytes, (i <= j)%nat -> nth_error pairs j = Some bytes ->
                    internal_check_utf8 bytes = true.
Proof.
  induction rounds as [| rounds IH]; intros i registry registry' Hlen H j bytes
    Hij Hj.
  - exfalso.
    assert (j < length pairs)%nat by (apply nth_error_Some; congruence). lia.
  - cbn [batch_update_loop] in H.
    apply bind_Ok in H as (bytes_i & Hbytes & H).
    apply bind_Ok in H as (pair_i & Hpair & H).
    apply bind_Ok in H as (price_i & _ & H).
    apply bind_Ok in H as (conf_i & _ & H).
    apply bind_Ok in H as (u & _ & H).
    destruct (Nat.eq_dec j i) as [-> | Hne].
    + unfold Oracle.vector_borrow in Hbytes. rewrite Hj in Hbytes.
      inversion Hbytes; subst bytes_i. unfold string_utf8 in Hpair.
      destruct (internal_check_utf8 bytes); [reflexivity | discriminate].
    + eapply (IH (S i)); [| exact H | | exact Hj]; lia.
Qed.

(** X15. [batch_update_oracles] applies no deviation check.  For an
    authorised sender, three vectors of one length and confidences of at
    most 100 it succeeds exactly when every name of the batch is valid
    UTF-8, whatever the prices stored before, and aborts on a name that is
    not; after a success each pair of the batch serves the price,
    confidence and time of its last entry, the other pairs are left alone,
    and so are the updaters and the two thresholds of the registry. *)
Theorem batch_update_oracles_unguarded
    registry pairs prices confs clock sender :
  is_Some (authorized_updaters registry !! sender) ->
  length prices = length pairs -> length confs = length pairs ->
  Forall (fun c => c <= 100) confs ->
  (~ Forall (fun bytes => internal_check_utf8 bytes = true) pairs ->
   aborts (batch_update_oracles registry pairs prices confs clock sender)) /\
  (Forall (fun bytes => internal_check_utf8 bytes = true) pairs ->
   exists registry',
     batch_update_oracles registry pairs prices confs clock sender = Ok registry' /\
     authorized_updaters registry' = authorized_updaters registry /\
     global_confidence_threshold registry'
     = global_confidence_threshold registry /\
     max_price_deviation registry' = max_price_deviation registry /\
     (forall j pair p c,
        nth_error pairs j = Some pair -> nth_error prices j = Some p ->
        nth_error confs j = Some c ->
        (forall k, (j < k)%nat -> nth_error pairs k <> Some pair) ->
        get_oracle_price registry' pair = Ok (p, c, clock)) /\
     (forall pair,
        ~ In pair pairs ->
        oracles registry' !! pair = oracles registry !! pair)).
Proof.
  intros Hauth Hprices Hconfs Hall. split.
  - intros Hbad.
    destruct (result_cases
                (batch_update_oracles registry pairs prices confs clock sender))
      as [[registry' Hok] | Hab]; [exfalso | exact Hab].
    apply Hbad. unfold batch_update_oracles in Hok.
    apply bind_Ok in Hok as (u1 & _ & Hok).
    apply bind_Ok in Hok as (u2 & _ & Hok).
    apply bind_Ok in Hok as (u3 & _ & Hok).
    rewrite List.Forall_forall. intros bytes Hin.
    apply In_nth_error in Hin as [j Hj].
    eapply (batch_update_loop_valid clock pairs prices confs (length pairs) 0%nat);
      [reflexivity | exact Hok | lia | exact Hj].
  - intros Hvalid. unfold batch_update_oracles.
    rewrite (bool_decide_eq_true_2 _ Hauth). cbn [assert bind].
    rewrite Hprices, Hconfs, Nat.eqb_refl. cbn [assert bind].
    destruct (batch_update_loop_Ok clock pairs prices confs Hprices Hconfs
                Hvalid Hall (length pairs) 0%nat registry eq_refl)
      as (registry' & Hloop & Hupd & Hthr & Hdev & Hlast & Hrest).
    exists registry'. split; [exact Hloop |].
    do 3 (split; [assumption |]). split.
    + intros j pair p c Hpair Hprice Hconf Hlater.
      unfold get_oracle_price, Oracle.table_borrow.
      rewrite (Hlast j pair p c) by (auto; lia).
      rewrite bool_decide_eq_true_2 by eauto. reflexivity.
    + intros pair Hnot. apply Hrest. intros j _ Hj.
      apply Hnot. eapply nth_error_In; eassumption.
Qed.

Lemma batch_update_oracles_unguarded_witness :
  update_price_oracle Demo.registry Demo.pair 1 90 2000 5%N
  = Abort (AssertionFailed Defi.EPriceOracleStale) /\
  (exists registry',
     batch_update_oracles Demo.registry [Demo.pair; Demo.pair] [7; 1] [90; 90]
       2000 5%N = Ok registry' /\
     get_oracle_price registry' Demo.pair = Ok (1, 90, 2000)) /\
  aborts (batch_update_oracles Demo.registry [Demo.invalid_name] [7] [90]
            2000 5%N).
Proof.
  assert (Hauth : is_Some (authorized_updaters Demo.registry !! 5%N))
    by (eexists; vm_compute; reflexivity).
  split; [vm_compute; reflexivity |]. split.
  - destruct (batch_update_oracles_unguarded Demo.registry
                [Demo.pair; Demo.pair] [7; 1] [90; 90] 2000 5%N Hauth
                eq_refl eq_refl)
      as (_ & Hgood).
    + repeat constructor; lia.
    + destruct Hgood as (registry' & Hbatch & _ & _ & _ & Hlast & _).
      * repeat constructor.
      * exists registry'. split; [exact Hbatch |].
        apply (Hlast 1%nat); try reflexivity.
        intros [| [| [| k]]] Hk; try lia; cbn; discriminate.
  - destruct (batch_update_oracles_unguarded Demo.registry
                [Demo.invalid_name] [7] [90] 2000 5%N Hauth eq_refl eq_refl)
      as (Hbad & _).
    + repeat constructor; lia.
    + apply Hbad. intros Hvalid. inversion Hvalid as [| x l Hx Hl]; subst.
      vm_compute in Hx. discriminate.
Defined.

(** X16. The first price of a pair is stored unchecked, zero included, and
    a query for the opposite direction answers with [10^18 / price]: it
    aborts on a stored price of zero. *)
Theorem inverse_price_of_first_update
    registry base quote new_price conf clock sender :
  let forward := String.append (String.append base "/") quote in
  let reverse := String.append (String.append quote "/") base in
  is_Some (authorized_updaters registry !! sender) ->
  conf <= 100 ->
  oracles registry !! forward = None ->
  oracles registry !! reverse = None ->
  forward <> reverse ->
  exists registry',
    update_price_oracle registry reverse new_price conf clock sender
    = Ok (registry', [PriceOracleUpdated reverse 0 new_price conf sender clock]) /\
    get_aggregated_oracle_price registry' quote base = Ok (new_price, conf) /\
    get_aggregated_oracle_price registry' base quote
    = (if new_price =? 0 then Abort ArithmeticError
       else Ok (1000000000000000000 / new_price, conf)).
Proof.
  intros forward reverse Hauth Hconf Hforward Hreverse Hne.
  unfold update_price_oracle.
  rewrite (bool_decide_eq_true_2 _ Hauth). cbn [assert bind].
  destruct (Z.leb_spec conf 100); [| lia]. cbn [assert bind].
  rewrite Hreverse.
  rewrite bool_decide_eq_false_2 by (intros [x Hx]; discriminate).
  cbn [bind]. change (0 >? 0) with false. cbn [bind].
  eexists. split; [reflexivity |].
  unfold get_aggregated_oracle_price, Oracle.table_borrow.
  cbn [oracles set_oracles]. fold forward. fold reverse. split.
  - rewrite lookup_insert_eq. rewrite bool_decide_eq_true_2 by eauto.
    reflexivity.
  - rewrite lookup_insert_ne by congruence. rewrite Hforward.
    rewrite bool_decide_eq_false_2 by (intros [x Hx]; discriminate).
    rewrite lookup_insert_eq. rewrite bool_decide_eq_true_2 by eauto.
    cbn. unfold div64. destruct (new_price =? 0); reflexivity.
Qed.

Lemma inverse_price_of_first_update_witness :
  exists registry',
    update_price_oracle Demo.registry "USD/BTC" 0 90 2000 5%N
    = Ok (registry', [PriceOracleUpdated "USD/BTC" 0 0 90 5%N 2000]) /\
    get_aggregated_oracle_price registry' "USD" "BTC" = Ok (0, 90) /\
    get_aggregated_oracle_price registry' "BTC" "USD" = Abort ArithmeticError.
Proof.
  apply (inverse_price_of_first_update Demo.registry "BTC" "USD" 0 90 2000 5%N).
  - eexists; vm_compute; reflexivity.
  - lia.
  - vm_compute; reflexivity.
  - vm_compute; reflexivity.
  - discriminate.
Defined.

(** X17. After an update at time [clock], [is_oracle_stale] asked at a time
    [t] answers whether [t - clock] exceeds the allowed staleness, and
    aborts when [t] is earlier than [clock]. *)
Theorem is_oracle_stale_after_update
    registry pair new_price conf clock sender registry' events t max_staleness :
  update_price_oracle registry pair new_price conf clock sender
  = Ok (registry', events) ->
  in_u64 clock -> in_u64 t ->
  is_oracle_stale registry' pair t max_staleness
  = (if t <? clock then Abort ArithmeticError
     else Ok (t - clock >? max_staleness)).
Proof.
  intros H Hclock Ht. apply update_price_oracle_Ok in H as (_ & _ & ->).
  unfold is_oracle_stale, Oracle.table_borrow. cbn [oracles set_oracles].
  rewrite lookup_insert_eq. rewrite bool_decide_eq_true_2 by eauto.
  cbn [bind fresh_oracle last_update]. unfold sub64, in_u64 in *.
  destruct (Z.ltb_spec t clock).
  - rewrite checked_out by lia. reflexivity.
  - rewrite checked_in by lia. reflexivity.
Qed.

Lemma is_oracle_stale_after_update_witness :
  exists registry' events,
    update_price_oracle Demo.registry Demo.pair 105 90 2000 5%N
    = Ok (registry', events) /\
    is_oracle_stale registry' Demo.pair 1999 60000 = Abort ArithmeticError /\
    is_oracle_stale registry' Demo.pair 62001 60000 = Ok true.
Proof.
  assert (E : exists out,
             update_price_oracle Demo.registry Demo.pair 105 90 2000 5%N = Ok out)
    by (eexists; vm_compute; reflexivity).
  destruct E as ([registry' events] & E).
  assert (Hin : forall v, 0 <= v <= 100000 -> in_u64 v)
    by (intros v Hv; unfold in_u64, u64_max; lia).
  exists registry', events. split; [exact E |]. split.
  - apply (is_oracle_stale_after_update _ _ _ _ _ _ _ _ 1999 60000 E);
      apply Hin; lia.
  - apply (is_oracle_stale_after_update _ _ _ _ _ _ _ _ 62001 60000 E);
      apply Hin; lia.
Defined.

End RegistryProperties.

(** ** Governance *)

Section GovernanceProperties.
Import Governance.

Lemma cast_vote_Ok proposal power vote time proposal' :
  cast_vote proposal power vote time = Ok proposal' ->
  1 <= vote <= 3 /\
  voting_start proposal <= time <= voting_end proposal /\
  0 < power /\
  in_u64 (total_voting_power proposal + power) /\
  proposal'
  = set_votes proposal
      (if vote =? 1 then yes_votes proposal + power else yes_votes proposal)
      (if vote =? 2 then no_votes proposal + power else no_votes proposal)
      (if vote =? 3 then abstain_votes proposal + power
       else abstain_votes proposal)
      (total_voting_power proposal + power).
Proof.
  unfold cast_vote. intros H.
  apply bind_Ok in H as (u1 & Hvote & H).
  apply bind_Ok in H as (u2 & Hstart & H).
  apply bind_Ok in H as (u3 & Hstop & H).
  apply bind_Ok in H as (u4 & Hpower & H).
  apply bind_Ok in H as ([[yes no] abstain] & Hcount & H).
  apply bind_Ok in H as (total & Htotal & H).
  arith_facts. subst total. inversion H; subst proposal'; clear H.
  do 3 (split; [lia |]). split; [assumption |].
  destruct (Z.eqb_spec vote 1) as [-> | Hn1].
  - peel Hcount. arith_facts. inversion Hcount; subst. reflexivity.
  - destruct (Z.eqb_spec vote 2) as [-> | Hn2].
    + peel Hcount. arith_facts. inversion Hcount; subst. reflexivity.
    + peel Hcount. arith_facts. inversion Hcount; subst.
      destruct (Z.eqb_spec vote 3); [reflexivity | lia].
Qed.

Lemma cast_votes_snoc proposal ballots power vote time :
  cast_votes proposal (ballots ++ [(power, vote, time)])
  = do p <- cast_votes proposal ballots; cast_vote p power vote time.
Proof. unfold cast_votes. rewrite foldl_app. reflexivity. Qed.

Lemma ballots_power_snoc ballots b :
  ballots_power (ballots ++ [b]) = ballots_power ballots + fst (fst b).
Proof.
  unfold ballots_power. induction ballots as [| a l IH]; cbn in *; lia.
Qed.

(** X18. Ballots are only added up: after any accepted sequence of votes
    the total voting power of a proposal has grown by the sum of the coin
    values shown, and so has the sum of its yes, no and abstain counters;
    the voting window is as it was.  No ballot is tied to a voter. *)
Theorem cast_votes_tally proposal ballots proposal' :
  cast_votes proposal ballots = Ok proposal' ->
  total_voting_power proposal'
  = total_voting_power proposal + ballots_power ballots /\
  yes_votes proposal' + no_votes proposal' + abstain_votes proposal'
  = yes_votes proposal + no_votes proposal + abstain_votes proposal
    + ballots_power ballots /\
  voting_start proposal' = voting_start proposal /\
  voting_end proposal' = voting_end proposal.
Proof.
  revert proposal'.
  induction ballots as [| [[power vote] time] ballots IH] using rev_ind;
    intros proposal' H.
  - inversion H; subst. cbn. lia.
  - rewrite cast_votes_snoc in H. apply bind_Ok in H as (p & Hp & H).
    apply IH in Hp as (Ht & Hsum & Hs & He).
    apply cast_vote_Ok in H as (Hvote & _ & _ & _ & ->).
    rewrite ballots_power_snoc. cbn.
    destruct (Z.eqb_spec vote 1), (Z.eqb_spec vote 2), (Z.eqb_spec vote 3);
      lia.
Qed.

Lemma cast_votes_tally_witness :
  exists proposal',
    cast_votes Demo.proposal [(500, 1, 20000); (500, 1, 20000); (300, 2, 20001)]
    = Ok proposal' /\
    total_voting_power proposal' = 1300 /\ yes_votes proposal' = 1000.
Proof.
  assert (E : exists proposal',
             cast_votes Demo.proposal
               [(500, 1, 20000); (500, 1, 20000); (300, 2, 20001)]
             = Ok proposal' /\ yes_votes proposal' = 1000)
    by (eexists; vm_compute; split; reflexivity).
  destruct E as (proposal' & E & Hyes).
  exists proposal'. split; [exact E |]. split; [| exact Hyes].
  destruct (cast_votes_tally _ _ _ E) as (Htotal & _).
  rewrite Htotal. reflexivity.
Defined.

(** X19. A proposal created at time [clock] can be voted on exactly from
    [clock + voting_delay] to [clock + voting_delay + voting_period], both
    ends included: a first vote with a coin of positive value and a vote
    type from 1 to 3 succeeds in that window and aborts outside it. *)
Theorem first_vote_window
    protocol governance dfi new_title new_description new_type data clock sender
    proposal_id governance' proposal power vote time :
  create_proposal protocol governance dfi new_title new_description new_type
    data clock sender proposal_id = Ok (governance', proposal) ->
  in_u64 power ->
  (succeeds (cast_vote proposal power vote time) <->
   1 <= vote <= 3 /\ 0 < power /\
   clock + voting_delay governance <= time
   <= clock + voting_delay governance + voting_period governance).
Proof.
  unfold create_proposal. intros H Hpower.
  apply bind_Ok in H as (u1 & _ & H).
  apply bind_Ok in H as (u2 & _ & H).
  apply bind_Ok in H as (u3 & _ & H).
  apply bind_Ok in H as (start & Hstart & H).
  apply bind_Ok in H as (stop & Hstop & H).
  apply bind_Ok in H as (active & _ & H).
  apply bind_Ok in H as (count & _ & H).
  arith_facts. subst start stop. inversion H; subst; clear H.
  unfold succeeds. split.
  - intros [p Hp]. apply cast_vote_Ok in Hp as (Hvote & Hwin & Hpos & _).
    cbn in Hwin. lia.
  - intros (Hvote & Hpos & Hwin). unfold cast_vote.
    cbn [voting_start voting_end yes_votes no_votes abstain_votes
         total_voting_power].
    destruct (Z.geb_spec vote 1); [| lia].
    destruct (Z.leb_spec vote 3); [| lia]. cbn [andb assert bind].
    destruct (Z.geb_spec time (clock + voting_delay governance)); [| lia].
    cbn [assert bind].
    destruct (Z.leb_spec time
                (clock + voting_delay governance + voting_period governance));
      [| lia].
    cbn [assert bind].
    destruct (Z.gtb_spec power 0); [| lia]. cbn [assert bind].
    unfold add64. rewrite !Z.add_0_l. rewrite !checked_in by exact Hpower.
    destruct (vote =? 1); [cbn; eauto |].
    destruct (vote =? 2); cbn; eauto.
Qed.

Lemma first_vote_window_witness :
  exists governance',
    create_proposal Demo.protocol init 100000000000 "fee" "lower the fee" 1 []
      1000 9%N 77%N = Ok (governance', Demo.proposal) /\
    succeeds (cast_vote Demo.proposal 500 1 18280) /\
    ~ succeeds (cast_vote Demo.proposal 500 1 18279) /\
    ~ succeeds (cast_vote Demo.proposal 500 1 139241).
Proof.
  assert (E : exists governance',
             create_proposal Demo.protocol init 100000000000 "fee"
               "lower the fee" 1 [] 1000 9%N 77%N
             = Ok (governance', Demo.proposal))
    by (eexists; vm_compute; reflexivity).
  destruct E as (governance' & E). exists governance'.
  assert (Hpower : in_u64 500) by (unfold in_u64, u64_max; lia).
  split; [exact E |]. split; [| split].
  - apply (first_vote_window _ _ _ _ _ _ _ _ _ _ _ _ 500 1 18280 E Hpower).
    cbn. lia.
  - intros Hs.
    apply (first_vote_window _ _ _ _ _ _ _ _ _ _ _ _ 500 1 18279 E Hpower) in Hs.
    cbn in Hs. lia.
  - intros Hs.
    apply (first_vote_window _ _ _ _ _ _ _ _ _ _ _ _ 500 1 139241 E Hpower) in Hs.
    cbn in Hs. lia.
Defined.

(** X20. Nothing records who has voted: a vote that was accepted is
    accepted again with the same coin, vote type and time, and counts again,
    as long as the total voting power stays within 64 bits. *)
Theorem cast_vote_repeats proposal power vote time proposal' :
  yes_votes proposal + no_votes proposal + abstain_votes proposal
  = total_voting_power proposal ->
  0 <= yes_votes proposal -> 0 <= no_votes proposal ->
  0 <= abstain_votes proposal ->
  cast_vote proposal power vote time = Ok proposal' ->
  total_voting_power proposal' + power <= u64_max ->
  exists again,
    cast_vote proposal' power vote time = Ok again /\
    total_voting_power again = total_voting_power proposal + 2 * power.
Proof.
  intros Hsum Hyes Hno Habstain H Hroom.
  apply cast_vote_Ok in H as (Hvote & Hwin & Hpos & Hfit & ->).
  cbn in Hroom. unfold cast_vote.
  cbn [voting_start voting_end yes_votes no_votes abstain_votes
       total_voting_power set_votes].
  destruct (Z.geb_spec vote 1); [| lia].
  destruct (Z.leb_spec vote 3); [| lia]. cbn [andb assert bind].
  destruct (Z.geb_spec time (voting_start proposal)); [| lia].
  cbn [assert bind].
  destruct (Z.leb_spec time (voting_end proposal)); [| lia].
  cbn [assert bind].
  destruct (Z.gtb_spec power 0); [| lia]. cbn [assert bind].
  unfold add64, in_u64 in *.
  destruct (Z.eqb_spec vote 1).
  - rewrite !checked_in by lia. cbn. eexists. split; [reflexivity |]. cbn. lia.
  - destruct (Z.eqb_spec vote 2).
    + rewrite !checked_in by lia. cbn.
      eexists. split; [reflexivity |]. cbn. lia.
    + destruct (Z.eqb_spec vote 3); [| lia].
      rewrite !checked_in by lia. cbn.
      eexists. split; [reflexivity |]. cbn. lia.
Qed.

Lemma cast_vote_repeats_witness :
  exists once twice,
    cast_vote Demo.proposal 500 1 20000 = Ok once /\
    cast_vote once 500 1 20000 = Ok twice /\
    total_voting_power twice = 1000.
Proof.
  assert (E : exists once, cast_vote Demo.proposal 500 1 20000 = Ok once /\
                           total_voting_power once = 500)
    by (eexists; vm_compute; split; reflexivity).
  destruct E as (once & E & Htotal).
  destruct (cast_vote_repeats Demo.proposal 500 1 20000 once)
    as (twice & Hagain & Hsum).
  - reflexivity.
  - cbn; lia.
  - cbn; lia.
  - cbn; lia.
  - exact E.
  - rewrite Htotal. vm_compute. discriminate.
  - exists once, twice. split; [exact E |]. split; [exact Hagain |].
    rewrite Hsum. reflexivity.
Defined.

End GovernanceProperties.

(** ** Rounds of the aggregator, seen from [submit_price] *)

Section RoundProperties.
Import Oracle.

Lemma with_submission_feed aggregator pair feed node sender submission :
  supported_pairs (with_submission aggregator pair feed node sender submission)
  !! pair
  = Some (set_price_sources feed
            (price_sources feed ++ [(sender, submission)])).
Proof. cbn. apply lookup_insert_eq. Qed.

(** The three ways a [submit_price] succeeds: the submission is buffered
    and no round runs; the round trips the breaker; the round publishes. *)
Lemma submit_price_cases aggregator pair p c src t sender aggregator' events :
  submit_price aggregator pair p c src t sender = Ok (aggregator', events) ->
  exists node feed cb,
    is_paused aggregator = false /\ c <= 100 /\
    oracle_nodes aggregator !! sender = Some node /\
    is_authorized node = true /\
    supported_pairs aggregator !! pair = Some feed /\
    circuit_breakers aggregator !! pair = Some cb /\
    vec_map_contains (price_sources feed) sender = false /\
    let submission := mkSubmission p c t src [] in
    let buffered := with_submission aggregator pair feed node sender submission in
    let feed' := set_price_sources feed
                   (price_sources feed ++ [(sender, submission)]) in
    let fresh := round_fresh aggregator feed' t in
    (Z.of_nat (length (price_sources feed) + 1)
     < min_sources (aggregation_settings aggregator) /\
     events = [] /\ aggregator' = buffered)
    \/
    (min_sources (aggregation_settings aggregator) <= Z.of_nat (length fresh) /\
     0 < current_price feed /\
     (exists deviation,
        events = [CircuitBreakerTriggered pair (round_price fresh)
                    (current_price feed) deviation t]) /\
     aggregator'
     = set_circuit_breakers buffered
         (<[pair := mkBreaker (breaker_pair cb) true (round_price fresh) t
                      (reset_threshold cb) (consecutive_anomalies cb + 1)
                      (last_normal_price cb)]>
            (circuit_breakers aggregator)))
    \/
    (min_sources (aggregation_settings aggregator) <= Z.of_nat (length fresh) /\
     exists first deviation,
       head (price_sources feed ++ [(sender, submission)]) = Some first /\
       (0 < current_price feed ->
        circuit_breaker_enabled (aggregation_settings aggregator) = true ->
        calculate_price_deviation (round_price fresh) (current_price feed)
        = Ok deviation /\
        deviation <= CIRCUIT_BREAKER_THRESHOLD) /\
       events = [PriceUpdated pair (round_price fresh) (current_price feed)
                   (round_confidence fresh) (Z.of_nat (length fresh))
                   deviation t] /\
       aggregator'
       = set_supported_pairs buffered
           (<[pair := set_price_sources
                        (publish feed' (round_price fresh)
                           (round_confidence fresh) t
                           (Z.of_nat (length fresh)))
                        [first]]>
              (supported_pairs buffered))).
Proof.
  intros H.
  apply submit_price_Ok in H
    as (node & feed & cb & Hp & Hc & Hnode & Hauth & Hfeed & Hcb & _ & Hfree
        & Hround).
  exists node, feed, cb. do 7 (split; [assumption |]).
  cbv zeta in *.
  destruct (Z.geb_spec (Z.of_nat (length (price_sources feed) + 1))
              (min_sources (aggregation_settings aggregator))) as [Hfull | Hfew].
  - apply aggregate_prices_Ok in Hround as (feed1 & Hfeed1 & Hmin & _ & Hcases).
    rewrite with_submission_feed in Hfeed1.
    inversion Hfeed1; subst feed1; clear Hfeed1.
    destruct Hcases
      as [(_ & Hpos & _ & Htrip) | (first & deviation & Hhead & Hdev & -> & ->)].
    + right; left.
      apply trigger_circuit_breaker_Ok in Htrip as (cb' & d & Hcb' & -> & ->).
      cbn [circuit_breakers with_submission set_oracle_nodes set_supported_pairs]
        in Hcb'.
      rewrite Hcb in Hcb'. inversion Hcb'; subst cb'.
      split; [exact Hmin |]. split; [exact Hpos |]. split; [eauto |].
      reflexivity.
    + right; right. split; [exact Hmin |].
      exists first, deviation. split; [exact Hhead |]. split; [exact Hdev |].
      split; reflexivity.
  - left. destruct Hround as [-> ->]. split; [lia |]. split; reflexivity.
Qed.

(** X21. No [submit_price] clears a breaker: a breaker that is tripped
    before a successful submission, on the pair submitted to or on any
    other pair, is tripped after it. *)
Theorem submit_price_keeps_breakers_tripped
    aggregator pair p c src t sender aggregator' events other cb :
  submit_price aggregator pair p c src t sender = Ok (aggregator', events) ->
  circuit_breakers aggregator !! other = Some cb ->
  is_triggered cb = true ->
  exists cb',
    circuit_breakers aggregator' !! other = Some cb' /\
    is_triggered cb' = true.
Proof.
  intros H Hother Htripped.
  apply submit_price_cases in H
    as (node & feed & cb0 & _ & _ & _ & _ & _ & _ & _ & Hcases).
  cbv zeta in Hcases.
  destruct Hcases as [(_ & _ & ->) | [(_ & _ & _ & ->) | (_ & f & d & _ & _ & _ & ->)]].
  - exists cb. split; [exact Hother | exact Htripped].
  - cbn [circuit_breakers set_circuit_breakers].
    destruct (decide (pair = other)) as [-> | Hne].
    + eexists. split; [apply lookup_insert_eq | reflexivity].
    + exists cb. split; [| exact Htripped].
      rewrite lookup_insert_ne by exact Hne. exact Hother.
  - exists cb. split; [exact Hother | exact Htripped].
Qed.

Lemma submit_price_keeps_breakers_tripped_witness :
  exists aggregator' events cb',
    submit_price Demo.tripped Demo.pair 800 100 "feed" 6000 14%N
    = Ok (aggregator', events) /\
    circuit_breakers aggregator' !! Demo.pair = Some cb' /\
    is_triggered cb' = true.
Proof.
  assert (E : exists out,
             submit_price Demo.tripped Demo.pair 800 100 "feed" 6000 14%N
             = Ok out)
    by (eexists; vm_compute; reflexivity).
  destruct E as ([aggregator' events] & E).
  assert (Hcb : exists cb, circuit_breakers Demo.tripped !! Demo.pair = Some cb
                           /\ is_triggered cb = true)
    by (eexists; split; vm_compute; reflexivity).
  destruct Hcb as (cb & Hcb & Htripped).
  destruct (submit_price_keeps_breakers_tripped _ _ _ _ _ _ _ _ _ _ _
              E Hcb Htripped) as (cb' & Hcb' & Htripped').
  exists aggregator', events, cb'. repeat split; assumption.
Defined.

Lemma calculate_price_deviation_abs p old d :
  0 < old ->
  calculate_price_deviation p old = Ok d ->
  d = Z.abs (p - old) * 10000 / old.
Proof.
  intros Hold. unfold calculate_price_deviation.
  destruct (Z.eqb_spec old 0); [lia |].
  destruct (Z.gtb_spec p old); intros Hd; peel Hd; arith_facts; subst;
    f_equal; f_equal; lia.
Qed.

(** X22. With the breaker enabled, a published price is never more than
    20% away from the positive price it replaces: the deviation
    [|new - old| * 10000 / old] reported in the [PriceUpdated] event is at
    most 2000, and [old] is the price the feed held before. *)
Theorem published_price_within_breaker_band
    aggregator pair p c src t sender aggregator'
    pair' new_price old_price conf count deviation time :
  submit_price aggregator pair p c src t sender
  = Ok (aggregator',
        [PriceUpdated pair' new_price old_price conf count deviation time]) ->
  circuit_breaker_enabled (aggregation_settings aggregator) = true ->
  0 < old_price ->
  (exists feed, supported_pairs aggregator !! pair = Some feed /\
                current_price feed = old_price) /\
  deviation = Z.abs (new_price - old_price) * 10000 / old_price /\
  deviation <= 2000.
Proof.
  intros H Henabled Hold.
  apply submit_price_cases in H
    as (node & feed & cb0 & _ & _ & _ & _ & Hfeed & _ & _ & Hcases).
  cbv zeta in Hcases.
  destruct Hcases
    as [(_ & Hev & _) | [(_ & _ & (d & Hev) & _) | (_ & f & d & _ & Hdev & Hev & _)]];
    try discriminate.
  inversion Hev; subst; clear Hev.
  destruct (Hdev Hold Henabled) as [Hcalc Hle].
  split; [eauto |]. split; [| exact Hle].
  apply calculate_price_deviation_abs in Hcalc; assumption.
Qed.

Lemma published_price_within_breaker_band_witness :
  exists aggregator' new_price deviation,
    submit_price (Demo.submit Demo.round1 110 100 4000 12%N) Demo.pair
      110 100 "feed" 5000 13%N
    = Ok (aggregator',
          [PriceUpdated Demo.pair new_price 100 67 3 deviation 5000]) /\
    deviation = Z.abs (new_price - 100) * 10000 / 100 /\ deviation <= 2000.
Proof.
  assert (E : exists aggregator' new_price deviation,
             submit_price (Demo.submit Demo.round1 110 100 4000 12%N) Demo.pair
               110 100 "feed" 5000 13%N
             = Ok (aggregator',
                   [PriceUpdated Demo.pair new_price 100 67 3 deviation 5000]))
    by (do 3 eexists; vm_compute; reflexivity).
  destruct E as (aggregator' & new_price & deviation & E).
  exists aggregator', new_price, deviation. split; [exact E |].
  apply (published_price_within_breaker_band _ _ _ _ _ _ _ _ _ _ _ _ _ _ _ E);
    [vm_compute; reflexivity | lia].
Defined.

Lemma vec_map_contains_In m k :
  In k (map fst m) -> vec_map_contains m k = true.
Proof.
  intros Hin. unfold vec_map_contains. apply existsb_exists.
  apply in_map_iff in Hin as (e & <- & He).
  exists e. split; [exact He | apply N.eqb_refl].
Qed.

(** X23. A round that trips the breaker changes neither the price the feed
    serves nor the buffer: [get_price] still answers with the old price,
    now flagged, the buffer holds every submission of the round, and each
    of its reporters is refused on that pair from then on. *)
Theorem tripped_round_keeps_buffer
    aggregator pair p c src t sender aggregator'
    pair' trigger previous deviation time feed :
  submit_price aggregator pair p c src t sender
  = Ok (aggregator',
        [CircuitBreakerTriggered pair' trigger previous deviation time]) ->
  supported_pairs aggregator !! pair = Some feed ->
  get_price aggregator' pair
  = Ok (mkAggregated (current_price feed) (feed_confidence feed)
          (source_count feed) 0 (last_update feed) true) /\
  (exists feed',
     supported_pairs aggregator' !! pair = Some feed' /\
     price_sources feed'
     = price_sources feed ++ [(sender, mkSubmission p c t src [])]) /\
  (forall reporter p2 c2 src2 t2,
     reporter = sender \/ In reporter (map fst (price_sources feed)) ->
     aborts (submit_price aggregator' pair p2 c2 src2 t2 reporter)).
Proof.
  intros H Hfeed.
  apply submit_price_cases in H
    as (node & feed0 & cb & _ & _ & _ & _ & Hfeed0 & _ & _ & Hcases).
  rewrite Hfeed in Hfeed0. inversion Hfeed0; subst feed0; clear Hfeed0.
  cbv zeta in Hcases.
  destruct Hcases
    as [(_ & Hev & _) | [(_ & _ & _ & ->) | (_ & f & d & _ & _ & Hev & _)]];
    try discriminate.
  assert (Hfeed' : supported_pairs
                     (set_circuit_breakers
                        (with_submission aggregator pair feed node sender
                           (mkSubmission p c t src []))
                        (<[pair := mkBreaker (breaker_pair cb) true
                                     (round_price
                                        (round_fresh aggregator
                                           (set_price_sources feed
                                              (price_sources feed
                                               ++ [(sender,
                                                    mkSubmission p c t src [])]))
                                           t))
                                     t (reset_threshold cb)
                                     (consecutive_anomalies cb + 1)
                                     (last_normal_price cb)]>
                           (circuit_breakers aggregator))) !! pair
                   = Some (set_price_sources feed
                             (price_sources feed
                              ++ [(sender, mkSubmission p c t src [])])))
    by (cbn; apply lookup_insert_eq).
  split; [| split].
  - unfold get_price, table_borrow. rewrite Hfeed'.
    rewrite bool_decide_eq_true_2 by eauto. cbn [negb bind].
    cbn [circuit_breakers set_circuit_breakers]. rewrite lookup_insert_eq.
    reflexivity.
  - eexists. split; [exact Hfeed' | reflexivity].
  - intros reporter p2 c2 src2 t2 Hin.
    eapply submit_price_duplicate; [exact Hfeed' |].
    cbn [price_sources set_price_sources].
    unfold vec_map_contains. rewrite existsb_app.
    destruct Hin as [-> | Hin].
    + cbn. rewrite N.eqb_refl. apply orb_true_r.
    + apply vec_map_contains_In in Hin. unfold vec_map_contains in Hin.
      rewrite Hin. reflexivity.
Qed.

Lemma tripped_round_keeps_buffer_witness :
  exists aggregator' trigger deviation,
    submit_price (Demo.submit Demo.round1 800 100 4000 12%N) Demo.pair
      800 100 "feed" 5000 13%N
    = Ok (aggregator',
          [CircuitBreakerTriggered Demo.pair trigger 100 deviation 5000]) /\
    get_price aggregator' Demo.pair = Ok (mkAggregated 100 1 3 0 3000 true) /\
    aborts (submit_price aggregator' Demo.pair 100 100 "feed" 6000 12%N).
Proof.
  assert (E : exists aggregator' trigger deviation,
             submit_price (Demo.submit Demo.round1 800 100 4000 12%N) Demo.pair
               800 100 "feed" 5000 13%N
             = Ok (aggregator',
                   [CircuitBreakerTriggered Demo.pair trigger 100 deviation 5000]))
    by (do 3 eexists; vm_compute; reflexivity).
  destruct E as (aggregator' & trigger & deviation & E).
  assert (F : exists feed,
             supported_pairs (Demo.submit Demo.round1 800 100 4000 12%N)
             !! Demo.pair = Some feed /\
             current_price feed = 100 /\ feed_confidence feed = 1 /\
             source_count feed = 3 /\ last_update feed = 3000 /\
             map fst (price_sources feed) = [11%N; 12%N])
    by (eexists; vm_compute; repeat split; reflexivity).
  destruct F as (feed & Hfeed & Hp & Hc & Hn & Ht & Hsrc).
  destruct (tripped_round_keeps_buffer _ _ _ _ _ _ _ _ _ _ _ _ _ _ E Hfeed)
    as (Hget & _ & Hlocked).
  exists aggregator', trigger, deviation. split; [exact E |]. split.
  - rewrite Hget, Hp, Hc, Hn, Ht. reflexivity.
  - apply Hlocked. right. rewrite Hsrc. cbn. auto.
Defined.

Lemma fresh_all_stale stale t l :
  Forall (fun s => stale < t - timestamp s) l ->
  fresh_submissions stale t l = [].
Proof.
  unfold fresh_submissions, is_fresh.
  induction 1 as [| s l Hs _ IH]; [reflexivity |].
  cbn [List.filter]. destruct (Z.leb_spec (t - timestamp s) stale); [lia |].
  exact IH.
Qed.

(** X24. A buffer can block its pair for good.  When every buffered
    submission is older than the stale threshold and one more entry fills
    the buffer to [min_sources], with [min_sources] above 1, the next
    submission starts a round that counts a single fresh entry and aborts,
    which drops the submission itself: from that time on every
    [submit_price] on the pair aborts, whoever sends it. *)
Theorem stale_buffer_blocks_pair aggregator pair feed t :
  supported_pairs aggregator !! pair = Some feed ->
  1 < min_sources (aggregation_settings aggregator) ->
  min_sources (aggregation_settings aggregator)
  <= Z.of_nat (length (price_sources feed)) + 1 ->
  Forall (fun e => stale_threshold (aggregation_settings aggregator)
                   < t - timestamp (snd e))
    (price_sources feed) ->
  forall t' p c src sender,
    t <= t' -> aborts (submit_price aggregator pair p c src t' sender).
Proof.
  intros Hfeed Hquorum Hfull Hstale t' p c src sender Hlater.
  destruct (result_cases (submit_price aggregator pair p c src t' sender))
    as [[[aggregator' events] Hok] | Hab]; [exfalso | exact Hab].
  apply submit_price_cases in Hok
    as (node & feed0 & cb & _ & _ & _ & _ & Hfeed0 & _ & _ & Hcases).
  rewrite Hfeed in Hfeed0. inversion Hfeed0; subst feed0; clear Hfeed0.
  cbv zeta in Hcases.
  assert (Hone : (length (round_fresh aggregator
                            (set_price_sources feed
                               (price_sources feed
                                ++ [(sender, mkSubmission p c t' src [])]))
                            t') <= 1)%nat).
  { unfold round_fresh. cbn [price_sources set_price_sources].
    rewrite map_app. unfold fresh_submissions at 1. rewrite List.filter_app.
    fold (fresh_submissions (stale_threshold (aggregation_settings aggregator))
            t' (map snd (price_sources feed))).
    rewrite fresh_all_stale.
    - cbn. destruct (is_fresh _ _ _); cbn; lia.
    - apply Forall_map. eapply Forall_impl; [exact Hstale |].
      cbn. intros e He. lia. }
  destruct Hcases as [(Hfew & _) | [(Hmin & _) | (Hmin & _)]]; lia.
Qed.

Lemma stale_buffer_blocks_pair_witness :
  aborts (submit_price Demo.two_buffered Demo.pair 199 1 "feed" 400000 13%N) /\
  aborts (submit_price Demo.two_buffered Demo.pair 199 1 "feed" 500000 14%N).
Proof.
  assert (F : exists feed,
             supported_pairs Demo.two_buffered !! Demo.pair = Some feed /\
             map (fun e => timestamp (snd e)) (price_sources feed)
             = [1000; 2000])
    by (eexists; vm_compute; split; reflexivity).
  destruct F as (feed & Hfeed & Htimes).
  assert (Hlen : length (price_sources feed) = 2%nat)
    by (rewrite <- (length_map (fun e => timestamp (snd e))), Htimes;
        reflexivity).
  assert (Hst : stale_threshold (aggregation_settings Demo.two_buffered) = 300000)
    by (vm_compute; reflexivity).
  assert (Hmin : min_sources (aggregation_settings Demo.two_buffered) = 3)
    by (vm_compute; reflexivity).
  assert (Hblocked :
            forall t' p c src sender,
              400000 <= t' ->
              aborts (submit_price Demo.two_buffered Demo.pair p c src t' sender)).
  { apply (stale_buffer_blocks_pair Demo.two_buffered Demo.pair feed 400000 Hfeed).
    - rewrite Hmin. lia.
    - rewrite Hmin, Hlen. cbn. lia.
    - rewrite Hst.
      apply (Forall_map (fun e => timestamp (snd e))
               (fun time => 300000 < 400000 - time)).
      rewrite Htimes. repeat constructor; lia. }
  split; apply Hblocked; lia.
Defined.

Lemma share_sum_bound bound l :
  Forall (fun s => 0 <= price s <= bound /\ 0 <= confidence s <= 100) l ->
  0 <= share_sum l /\ share_sum l * 100 <= bound * confidence_sum l /\
  0 <= confidence_sum l <= 100 * Z.of_nat (length l).
Proof.
  unfold share_sum, confidence_sum.
  induction 1 as [| s l [Hp Hc] _ IH]; [cbn; lia |].
  cbn [foldr length]. rewrite Nat2Z.inj_succ.
  pose proof (Z.mul_div_le (price s * confidence s) 100 ltac:(lia)).
  assert (0 <= price s * confidence s / 100)
    by (apply Z.div_pos; nia).
  nia.
Qed.

Lemma fresh_submissions_Forall (P : PriceSubmission -> Prop) stale t l :
  Forall P l -> Forall P (fresh_submissions stale t l).
Proof.
  unfold fresh_submissions. intros H. rewrite List.Forall_forall in *.
  intros s Hs. apply List.filter_In in Hs as [Hs _]. auto.
Qed.

Lemma fresh_submissions_length stale t l :
  (length (fresh_submissions stale t l) <= length l)%nat.
Proof. unfold fresh_submissions. apply List.filter_length_le. Qed.

(** X25. A published price lies within the range of the submitted prices
    and a published confidence within 0 to 100: when every buffered price
    and the new one are between 0 and [bound] and the buffered confidences
    are at most 100, the [PriceUpdated] event carries a price between 0 and
    [bound], a confidence between 0 and 100 and a source count between
    [min_sources] and the size of the buffer. *)
Theorem published_price_bounds
    aggregator pair p c src t sender aggregator'
    pair' new_price old_price conf count deviation time feed bound :
  submit_price aggregator pair p c src t sender
  = Ok (aggregator',
        [PriceUpdated pair' new_price old_price conf count deviation time]) ->
  supported_pairs aggregator !! pair = Some feed ->
  Forall (fun e => 0 <= price (snd e) <= bound /\
                   0 <= confidence (snd e) <= 100) (price_sources feed) ->
  0 <= p <= bound -> 0 <= c ->
  0 <= new_price <= bound /\ 0 <= conf <= 100 /\
  min_sources (aggregation_settings aggregator) <= count
  <= Z.of_nat (length (price_sources feed)) + 1.
Proof.
  intros H Hfeed Hall Hp Hc.
  apply submit_price_cases in H
    as (node & feed0 & cb & _ & Hc100 & _ & _ & Hfeed0 & _ & _ & Hcases).
  rewrite Hfeed in Hfeed0. inversion Hfeed0; subst feed0; clear Hfeed0.
  cbv zeta in Hcases.
  destruct Hcases
    as [(_ & Hev & _) | [(_ & _ & (d & Hev) & _) | (Hmin & f & d & _ & _ & Hev & _)]];
    try discriminate.
  inversion Hev; subst; clear Hev.
  remember (round_fresh aggregator
              (set_price_sources feed
                 (price_sources feed ++ [(sender, mkSubmission p c t src [])]))
              t) as fresh eqn:Hfresh.
  assert (Hbuf : Forall (fun s => 0 <= price s <= bound /\
                                  0 <= confidence s <= 100) fresh).
  { subst fresh. unfold round_fresh. apply fresh_submissions_Forall.
    cbn [price_sources set_price_sources]. rewrite map_app.
    apply Forall_app. split.
    - apply Forall_map. exact Hall.
    - repeat constructor; cbn; lia. }
  assert (Hlen : (length fresh <= length (price_sources feed) + 1)%nat).
  { subst fresh. unfold round_fresh.
    etransitivity; [apply fresh_submissions_length |].
    cbn [price_sources set_price_sources].
    rewrite length_map, length_app. cbn. lia. }
  destruct (share_sum_bound bound fresh Hbuf) as (Hs0 & Hs & Hc0 & Hc1).
  split; [| split; [| lia]].
  - unfold round_price. destruct (Z.gtb_spec (confidence_sum fresh) 0).
    + split.
      * apply Z.div_pos; lia.
      * apply Z.div_le_upper_bound; [lia |]. lia.
    + nia.
  - unfold round_confidence.
    destruct (Nat.eq_dec (length fresh) 0%nat) as [Hz | Hne].
    + rewrite Hz. cbn. rewrite Z.div_0_r. lia.
    + split.
      * apply Z.div_pos; lia.
      * apply Z.div_le_upper_bound; lia.
Qed.

Lemma published_price_bounds_witness :
  exists aggregator' new_price old_price conf count deviation,
    submit_price Demo.two_buffered Demo.pair 150 60 "feed" 3000 13%N
    = Ok (aggregator',
          [PriceUpdated Demo.pair new_price old_price conf count deviation 3000])
    /\ 0 <= new_price <= 199 /\ 0 <= conf <= 100 /\ 3 <= count <= 3.
Proof.
  assert (E : exists aggregator' new_price old_price conf count deviation,
             submit_price Demo.two_buffered Demo.pair 150 60 "feed" 3000 13%N
             = Ok (aggregator',
                   [PriceUpdated Demo.pair new_price old_price conf count
                      deviation 3000]))
    by (do 6 eexists; vm_compute; reflexivity).
  destruct E as (aggregator' & new_price & old_price & conf & count & deviation
                 & E).
  assert (F : exists feed,
             supported_pairs Demo.two_buffered !! Demo.pair = Some feed /\
             map snd (price_sources feed)
             = [mkSubmission 199 1 1000 "feed" [];
                mkSubmission 199 1 2000 "feed" []])
    by (eexists; vm_compute; split; reflexivity).
  destruct F as (feed & Hfeed & Hsubs).
  assert (Hlen : length (price_sources feed) = 2%nat)
    by (rewrite <- (length_map snd), Hsubs; reflexivity).
  assert (Hmin : min_sources (aggregation_settings Demo.two_buffered) = 3)
    by (vm_compute; reflexivity).
  assert (Hall : Forall (fun e => 0 <= price (snd e) <= 199 /\
                                  0 <= confidence (snd e) <= 100)
                   (price_sources feed)).
  { apply (Forall_map snd
             (fun s => 0 <= price s <= 199 /\ 0 <= confidence s <= 100)).
    rewrite Hsubs. repeat constructor; cbn; lia. }
  destruct (published_price_bounds _ _ _ _ _ _ _ _ _ _ _ _ _ _ _ feed 199
              E Hfeed Hall ltac:(lia) ltac:(lia))
    as (Hprice & Hconf & Hcount).
  rewrite Hmin, Hlen in Hcount. cbn in Hcount.
  exists aggregator', new_price, old_price, conf, count, deviation.
  split; [exact E |]. split; [exact Hprice |]. split; [exact Hconf |].
  exact Hcount.
Defined.

(** X26. After a round has published, [get_price] serves the price, the
    confidence, the source count and the time of the [PriceUpdated] event,
    with a deviation of 0 whatever the event reported and with the breaker
    flag as it was; asked at the time of the round, [is_oracle_healthy]
    compares that confidence with the setting [confidence_threshold]. *)
Theorem get_price_after_publication
    aggregator pair p c src t sender aggregator'
    pair' new_price old_price conf count deviation time cb :
  submit_price aggregator pair p c src t sender
  = Ok (aggregator',
        [PriceUpdated pair' new_price old_price conf count deviation time]) ->
  circuit_breakers aggregator !! pair = Some cb ->
  pair' = pair /\ time = t /\
  get_price aggregator' pair
  = Ok (mkAggregated new_price conf count 0 t (is_triggered cb)) /\
  is_oracle_healthy aggregator' pair t
  = Ok ((0 <=? stale_threshold (aggregation_settings aggregator))
        && (conf >=? confidence_threshold (aggregation_settings aggregator))
        && negb (is_triggered cb)).
Proof.
  intros H Hcb.
  apply submit_price_cases in H
    as (node & feed & cb0 & _ & _ & _ & _ & Hfeed & _ & _ & Hcases).
  cbv zeta in Hcases.
  destruct Hcases
    as [(_ & Hev & _) | [(_ & _ & (d & Hev) & _) | (_ & f & d & _ & _ & Hev & ->)]];
    try discriminate.
  inversion Hev; subst; clear Hev.
  split; [reflexivity |]. split; [reflexivity |].
  unfold get_price, is_oracle_healthy, table_borrow.
  cbn [supported_pairs circuit_breakers aggregation_settings set_supported_pairs
       with_submission set_oracle_nodes].
  rewrite !lookup_insert_eq, Hcb.
  rewrite !bool_decide_eq_true_2 by eauto. cbn [negb bind].
  split; [reflexivity |].
  cbn [last_update feed_confidence publish set_price_sources].
  unfold sub64. rewrite Z.sub_diag.
  rewrite checked_in by (unfold u64_max; lia). reflexivity.
Qed.

Lemma get_price_after_publication_witness :
  exists aggregator',
    submit_price Demo.two_buffered Demo.pair 199 1 "feed" 3000 13%N
    = Ok (aggregator', [PriceUpdated Demo.pair 100 0 1 3 0 3000]) /\
    get_price aggregator' Demo.pair = Ok (mkAggregated 100 1 3 0 3000 false) /\
    is_oracle_healthy aggregator' Demo.pair 3000 = Ok false.
Proof.
  assert (E : exists aggregator',
             submit_price Demo.two_buffered Demo.pair 199 1 "feed" 3000 13%N
             = Ok (aggregator', [PriceUpdated Demo.pair 100 0 1 3 0 3000]))
    by (eexists; vm_compute; reflexivity).
  destruct E as (aggregator' & E).
  assert (F : exists cb,
             circuit_breakers Demo.two_buffered !! Demo.pair = Some cb /\
             is_triggered cb = false)
    by (eexists; vm_compute; split; reflexivity).
  destruct F as (cb & Hcb & Hcalm).
  destruct (get_price_after_publication _ _ _ _ _ _ _ _ _ _ _ _ _ _ _ _ E Hcb)
    as (_ & _ & Hget & Hhealthy).
  exists aggregator'. split; [exact E |].
  rewrite Hget, Hhealthy, Hcalm. split; reflexivity.
Defined.

End RoundProperties.

(** ** The settings, the roster and the switches of the aggregator *)

Section AggregatorAdminProperties.
Import Oracle.

Ltac same_steps :=
  repeat match goal with
  | |- under_settings _ (Abort _) = _ => reflexivity
  | |- _ = under_settings _ (Abort _) => reflexivity
  | |- Ok _ = under_settings _ (Ok _) => reflexivity
  | |- context [bind (Ok _) _] => cbn [bind]
  | |- context [bind (Abort _) _] => cbn [bind]
  | |- context [bind ?m _] => destruct m
  | |- context [if ?b then _ else _] => destruct b
  end.

Lemma aggregate_prices_under_settings aggregator settings pair t :
  min_sources settings = min_sources (aggregation_settings aggregator) ->
  stale_threshold settings = stale_threshold (aggregation_settings aggregator) ->
  circuit_breaker_enabled settings
  = circuit_breaker_enabled (aggregation_settings aggregator) ->
  aggregate_prices (set_settings aggregator settings) pair t
  = under_settings settings (aggregate_prices aggregator pair t).
Proof.
  intros Hmin Hstale Henabled.
  unfold aggregate_prices, trigger_circuit_breaker.
  cbn [supported_pairs circuit_breakers aggregation_settings set_settings].
  rewrite Hmin, Hstale, Henabled.
  same_steps.
Qed.

Lemma submit_price_under_settings aggregator settings pair p c src t sender :
  min_sources settings = min_sources (aggregation_settings aggregator) ->
  stale_threshold settings = stale_threshold (aggregation_settings aggregator) ->
  circuit_breaker_enabled settings
  = circuit_breaker_enabled (aggregation_settings aggregator) ->
  submit_price (set_settings aggregator settings) pair p c src t sender
  = under_settings settings (submit_price aggregator pair p c src t sender).
Proof.
  intros Hmin Hstale Henabled. unfold submit_price.
  cbn [supported_pairs circuit_breakers oracle_nodes is_paused
       aggregation_settings set_settings].
  rewrite Hmin.
  same_steps;
    apply (aggregate_prices_under_settings
             (set_oracle_nodes (set_supported_pairs aggregator _) _));
    assumption.
Qed.

(** X27. The settings [confidence_threshold] and [deviation_threshold] do
    not reach the rounds: after [update_settings] has changed either or
    both, every [submit_price] succeeds or aborts exactly as before, with
    the same events and the same state apart from the settings. *)
Theorem thresholds_do_not_reach_rounds
    aggregator new_confidence new_deviation admin' updated
    pair p c src t sender :
  update_settings aggregator None new_confidence new_deviation admin'
  = Ok updated ->
  submit_price updated pair p c src t sender
  = under_settings (aggregation_settings updated)
      (submit_price aggregator pair p c src t sender).
Proof.
  unfold update_settings. intros H.
  apply bind_Ok in H as (u & _ & H).
  apply bind_Ok in H as (threshold & _ & H).
  inversion H; subst updated; clear H.
  cbn [aggregation_settings set_settings].
  apply submit_price_under_settings; reflexivity.
Qed.

Lemma thresholds_do_not_reach_rounds_witness :
  exists updated aggregator',
    update_settings Demo.two_buffered None (Some 100) (Some 1) 1%N = Ok updated /\
    submit_price updated Demo.pair 199 1 "feed" 3000 13%N
    = Ok (aggregator', [PriceUpdated Demo.pair 100 0 1 3 0 3000]).
Proof.
  assert (E : exists updated,
             update_settings Demo.two_buffered None (Some 100) (Some 1) 1%N
             = Ok updated)
    by (eexists; vm_compute; reflexivity).
  destruct E as (updated & E).
  assert (F : exists aggregator',
             submit_price Demo.two_buffered Demo.pair 199 1 "feed" 3000 13%N
             = Ok (aggregator', [PriceUpdated Demo.pair 100 0 1 3 0 3000]))
    by (eexists; vm_compute; reflexivity).
  destruct F as (aggregator' & F).
  exists updated, (set_settings aggregator' (aggregation_settings updated)).
  split; [exact E |].
  rewrite (thresholds_do_not_reach_rounds _ _ _ _ _ Demo.pair 199 1 "feed" 3000
             13%N E).
  rewrite F. reflexivity.
Defined.

(** X28. Registration alone gives no right to submit.  A successful
    [register_oracle_node] adds to the roster a node with the reputation
    100 and without authorisation, and changes nothing else: the node's
    submissions abort with [ENotAuthorized], a second registration aborts
    with the same code, and so does an authorisation by anyone but the
    admin.  The authorisation by the admin succeeds and changes the
    aggregator in nothing but the [is_authorized] flag of that node. *)
Theorem registration_needs_authorisation
    aggregator stake sender registered events :
  register_oracle_node aggregator stake sender = Ok (registered, events) ->
  registered
  = set_oracle_nodes aggregator
      (<[sender := mkNode sender 100 0 0 stake 0 false 100]>
         (oracle_nodes aggregator)) /\
  get_node_reputation registered sender = Ok 100 /\
  (forall pair p c src t,
     c <= 100 ->
     submit_price registered pair p c src t sender
     = Abort (AssertionFailed ENotAuthorized)) /\
  (forall stake',
     register_oracle_node registered stake' sender
     = Abort (AssertionFailed ENotAuthorized)) /\
  (forall other,
     other <> admin aggregator ->
     authorize_oracle_node registered sender other
     = Abort (AssertionFailed ENotAuthorized)) /\
  authorize_oracle_node registered sender (admin aggregator)
  = Ok (set_oracle_nodes registered
          (<[sender := mkNode sender 100 0 0 stake 0 true 100]>
             (oracle_nodes registered))).
Proof.
  unfold register_oracle_node. intros H.
  apply bind_Ok in H as (u1 & Hpaused & H).
  apply bind_Ok in H as (u2 & Hstake & H).
  apply bind_Ok in H as (u3 & Hnew & H).
  apply bind_Ok in H as (nodes & Hadd & H).
  apply table_add_Ok in Hadd as [_ ->].
  apply assert_Ok in Hpaused. apply negb_true_iff in Hpaused.
  inversion H; subst registered events; clear H.
  assert (Hnode : oracle_nodes
                    (set_oracle_nodes aggregator
                       (<[sender := mkNode sender 100 0 0 stake 0 false 100]>
                          (oracle_nodes aggregator))) !! sender
                  = Some (mkNode sender 100 0 0 stake 0 false 100))
    by (cbn; apply lookup_insert_eq).
  split; [reflexivity |].
  split; [| split; [| split; [| split]]].
  - unfold get_node_reputation, table_borrow. rewrite Hnode.
    rewrite bool_decide_eq_true_2 by eauto. reflexivity.
  - intros pair p c src t Hc. unfold submit_price, table_borrow.
    rewrite Hnode. cbn [is_paused set_oracle_nodes]. rewrite Hpaused.
    cbn [negb assert bind].
    destruct (Z.leb_spec c 100); [| lia]. cbn [assert bind].
    rewrite bool_decide_eq_true_2 by eauto. reflexivity.
  - intros stake'. cbn [is_paused set_oracle_nodes]. rewrite Hnode, Hpaused.
    cbn [negb assert bind].
    destruct (stake' >? 0); [| reflexivity]. cbn [assert bind].
    rewrite bool_decide_eq_true_2 by eauto. reflexivity.
  - intros other Hother. unfold authorize_oracle_node.
    cbn [admin set_oracle_nodes].
    destruct (N.eqb_spec other (admin aggregator)); [congruence | reflexivity].
  - unfold authorize_oracle_node, table_borrow. rewrite Hnode.
    cbn [admin set_oracle_nodes]. rewrite N.eqb_refl. cbn [assert bind].
    rewrite bool_decide_eq_true_2 by eauto. reflexivity.
Qed.

Lemma registration_needs_authorisation_witness :
  exists registered events,
    register_oracle_node Demo.ready 500 15%N = Ok (registered, events) /\
    submit_price registered Demo.pair 199 1 "feed" 1000 15%N
    = Abort (AssertionFailed ENotAuthorized) /\
    authorize_oracle_node registered 15%N 1%N
    = Ok (set_oracle_nodes registered
            (<[15%N := mkNode 15%N 100 0 0 500 0 true 100]>
               (oracle_nodes registered))).
Proof.
  assert (E : exists out, register_oracle_node Demo.ready 500 15%N = Ok out)
    by (eexists; vm_compute; reflexivity).
  destruct E as ([registered events] & E).
  exists registered, events. split; [exact E |].
  destruct (registration_needs_authorisation _ _ _ _ _ E)
    as (_ & _ & Hsubmit & _ & _ & Hauth).
  split; [apply Hsubmit; lia | exact Hauth].
Defined.

(** X29. Submitting moves the statistics of a node but never its
    reputation: a successful [submit_price] adds one to the sender's
    [total_submissions] and stamps [last_submission], whether a round runs
    or not; every other node is as before and [get_node_reputation]
    answers for every address what it answered before. *)
Theorem submit_price_node_statistics
    aggregator pair p c src t sender aggregator' events :
  submit_price aggregator pair p c src t sender = Ok (aggregator', events) ->
  (forall node, get_node_reputation aggregator' node
                = get_node_reputation aggregator node) /\
  exists before,
    oracle_nodes aggregator !! sender = Some before /\
    oracle_nodes aggregator' !! sender
    = Some (mkNode (node_address before) (reputation_score before)
              (total_submissions before + 1) (accurate_submissions before)
              (stake_amount before) t (is_authorized before)
              (reward_multiplier before)) /\
    forall other, other <> sender ->
                  oracle_nodes aggregator' !! other
                  = oracle_nodes aggregator !! other.
Proof.
  intros H.
  apply submit_price_cases in H
    as (before & feed & cb & _ & _ & Hnode & _ & _ & _ & _ & Hcases).
  cbv zeta in Hcases.
  assert (Hnodes : oracle_nodes aggregator'
                   = <[sender := mkNode (node_address before)
                                   (reputation_score before)
                                   (total_submissions before + 1)
                                   (accurate_submissions before)
                                   (stake_amount before) t
                                   (is_authorized before)
                                   (reward_multiplier before)]>
                       (oracle_nodes aggregator)).
  { destruct Hcases
      as [(_ & _ & ->) | [(_ & _ & _ & ->) | (_ & f & d & _ & _ & _ & ->)]];
      reflexivity. }
  split.
  - intros node. unfold get_node_reputation, table_borrow. rewrite Hnodes.
    destruct (decide (node = sender)) as [-> | Hne].
    + rewrite lookup_insert_eq, Hnode.
      rewrite !bool_decide_eq_true_2 by eauto. reflexivity.
    + rewrite lookup_insert_ne by congruence. reflexivity.
  - exists before. split; [exact Hnode |]. rewrite Hnodes. split.
    + apply lookup_insert_eq.
    + intros other Hother. apply lookup_insert_ne. congruence.
Qed.

Lemma submit_price_node_statistics_witness :
  exists aggregator' events,
    submit_price Demo.two_buffered Demo.pair 199 1 "feed" 3000 13%N
    = Ok (aggregator', events) /\
    get_node_reputation aggregator' 13%N = Ok 100.
Proof.
  assert (E : exists out,
             submit_price Demo.two_buffered Demo.pair 199 1 "feed" 3000 13%N
             = Ok out)
    by (eexists; vm_compute; reflexivity).
  destruct E as ([aggregator' events] & E).
  exists aggregator', events. split; [exact E |].
  destruct (submit_price_node_statistics _ _ _ _ _ _ _ _ _ E) as (Hrep & _).
  rewrite Hrep. vm_compute. reflexivity.
Defined.

(** X30. A reset clears the flag and the anomaly counter and nothing else.
    [reset_circuit_breaker] aborts with [ENotAuthorized] for anyone but the
    admin and, for the admin, on a name that is not valid UTF-8; for a
    valid name without a breaker it succeeds and changes nothing; for a
    valid name with a breaker the aggregator afterwards is the aggregator
    before with [is_triggered] false and [consecutive_anomalies] 0 in that
    breaker, so [get_price] serves the same price without the flag and the
    reporters in the buffer of the pair are still refused. *)
Theorem reset_circuit_breaker_keeps_feed aggregator pair sender :
  (sender <> admin aggregator ->
   reset_circuit_breaker aggregator pair sender
   = Abort (AssertionFailed ENotAuthorized)) /\
  (sender = admin aggregator -> internal_check_utf8 pair = false ->
   reset_circuit_breaker aggregator pair sender = Abort InvalidUTF8) /\
  (sender = admin aggregator -> internal_check_utf8 pair = true ->
   circuit_breakers aggregator !! pair = None ->
   reset_circuit_breaker aggregator pair sender = Ok aggregator) /\
  (sender = admin aggregator -> internal_check_utf8 pair = true ->
   forall cb feed,
     circuit_breakers aggregator !! pair = Some cb ->
     supported_pairs aggregator !! pair = Some feed ->
     let calm :=
       set_circuit_breakers aggregator
         (<[pair := mkBreaker (breaker_pair cb) false (trigger_price cb)
                      (trigger_timestamp cb) (reset_threshold cb) 0
                      (last_normal_price cb)]>
            (circuit_breakers aggregator)) in
     reset_circuit_breaker aggregator pair sender = Ok calm /\
     get_price calm pair
     = Ok (mkAggregated (current_price feed) (feed_confidence feed)
             (source_count feed) 0 (last_update feed) false) /\
     forall reporter p c src t,
       In reporter (map fst (price_sources feed)) ->
       aborts (submit_price calm pair p c src t reporter)).
Proof.
  unfold reset_circuit_breaker, string_utf8. split; [| split; [| split]].
  - intros Hne. destruct (N.eqb_spec sender (admin aggregator));
      [congruence | reflexivity].
  - intros -> Hbad. rewrite N.eqb_refl, Hbad. reflexivity.
  - intros -> Hvalid Hnone. rewrite N.eqb_refl, Hvalid. cbn [assert bind].
    rewrite Hnone. reflexivity.
  - intros -> Hvalid cb feed Hcb Hfeed. rewrite N.eqb_refl, Hvalid.
    cbn [assert bind]. rewrite Hcb. cbv zeta.
    split; [reflexivity |]. split.
    + unfold get_price, table_borrow.
      cbn [supported_pairs circuit_breakers set_circuit_breakers].
      rewrite Hfeed, lookup_insert_eq.
      rewrite bool_decide_eq_true_2 by eauto. reflexivity.
    + intros reporter p c src t Hin.
      eapply submit_price_duplicate; [exact Hfeed |].
      apply vec_map_contains_In. exact Hin.
Qed.

Lemma reset_circuit_breaker_keeps_feed_witness :
  reset_circuit_breaker Demo.tripped Demo.invalid_name 1%N = Abort InvalidUTF8 /\
  exists calm,
    reset_circuit_breaker Demo.tripped Demo.pair 1%N = Ok calm /\
    get_price calm Demo.pair = Ok (mkAggregated 100 1 3 0 3000 false) /\
    aborts (submit_price calm Demo.pair 100 100 "feed" 6000 12%N).
Proof.
  assert (F : exists cb feed,
             circuit_breakers Demo.tripped !! Demo.pair = Some cb /\
             supported_pairs Demo.tripped !! Demo.pair = Some feed /\
             current_price feed = 100 /\ feed_confidence feed = 1 /\
             source_count feed = 3 /\ last_update feed = 3000 /\
             map fst (price_sources feed) = [11%N; 12%N; 13%N])
    by (do 2 eexists; do 6 (split; [vm_compute; reflexivity |]);
        vm_compute; reflexivity).
  destruct F as (cb & feed & Hcb & Hfeed & Hp & Hc & Hn & Ht & Hsrc).
  split.
  - destruct (reset_circuit_breaker_keeps_feed Demo.tripped Demo.invalid_name
                1%N) as (_ & Hbad & _).
    apply Hbad; reflexivity.
  - destruct (reset_circuit_breaker_keeps_feed Demo.tripped Demo.pair 1%N)
      as (_ & _ & _ & Hreset).
    destruct (Hreset eq_refl eq_refl cb feed Hcb Hfeed)
      as (Hcalm & Hget & Hlocked).
    eexists. split; [exact Hcalm |]. split.
    + rewrite Hget, Hp, Hc, Hn, Ht. reflexivity.
    + apply Hlocked. rewrite Hsrc. cbn. auto.
Defined.

(** No entry point records a last normal price: the breakers start without
    one in [add_price_feed] and every function that writes a breaker copies
    the field.  In every state the entry points reach, the guard of
    [submit_price] therefore compares a submission with 0. *)
Lemma last_normal_price_stays_zero :
  (forall sender, never_normal (init sender)) /\
  (forall aggregator stake sender aggregator' events,
     never_normal aggregator ->
     register_oracle_node aggregator stake sender = Ok (aggregator', events) ->
     never_normal aggregator') /\
  (forall aggregator node sender aggregator',
     never_normal aggregator ->
     authorize_oracle_node aggregator node sender = Ok aggregator' ->
     never_normal aggregator') /\
  (forall aggregator pair sender aggregator',
     never_normal aggregator ->
     add_price_feed aggregator pair sender = Ok aggregator' ->
     never_normal aggregator') /\
  (forall aggregator pair p c src t sender aggregator' events,
     never_normal aggregator ->
     submit_price aggregator pair p c src t sender = Ok (aggregator', events) ->
     never_normal aggregator') /\
  (forall aggregator pair sender aggregator',
     never_normal aggregator ->
     reset_circuit_breaker aggregator pair sender = Ok aggregator' ->
     never_normal aggregator') /\
  (forall aggregator sources confidence deviation sender aggregator',
     never_normal aggregator ->
     update_settings aggregator sources confidence deviation sender
     = Ok aggregator' ->
     never_normal aggregator') /\
  (forall aggregator paused sender aggregator',
     never_normal aggregator ->
     set_pause aggregator paused sender = Ok aggregator' ->
     never_normal aggregator').
Proof.
  unfold never_normal.
  split; [intros sender; apply map_Forall_empty |].
  split.
  { intros aggregator stake sender aggregator' events Hinv H.
    unfold register_oracle_node in H. peel H.
    inversion H; subst. exact Hinv. }
  split.
  { intros aggregator node sender aggregator' Hinv H.
    unfold authorize_oracle_node in H. peel H.
    inversion H; subst. exact Hinv. }
  split.
  { intros aggregator pair sender aggregator' Hinv H.
    unfold add_price_feed in H. peel H.
    inversion H; subst. cbn [circuit_breakers set_circuit_breakers].
    match goal with Ht : table_add (circuit_breakers _) _ _ = Ok _ |- _ =>
      apply table_add_Ok in Ht as [_ ->] end.
    apply map_Forall_insert_2; [reflexivity | exact Hinv]. }
  split.
  { intros aggregator pair p c src t sender aggregator' events Hinv H.
    apply submit_price_cases in H
      as (node & feed & cb & _ & _ & _ & _ & _ & Hcb & _ & Hcases).
    cbv zeta in Hcases.
    destruct Hcases
      as [(_ & _ & ->) | [(_ & _ & _ & ->) | (_ & f & d & _ & _ & _ & ->)]];
      try exact Hinv.
    cbn [circuit_breakers set_circuit_breakers].
    apply map_Forall_insert_2; [| exact Hinv].
    exact (map_Forall_lookup_1 _ _ _ _ Hinv Hcb). }
  split.
  { intros aggregator pair sender aggregator' Hinv H.
    unfold reset_circuit_breaker in H.
    apply bind_Ok in H as (u & _ & H).
    apply bind_Ok in H as (name & _ & H).
    destruct (circuit_breakers aggregator !! name) as [cb |] eqn:Hcb;
      inversion H; subst; [| exact Hinv].
    cbn [circuit_breakers set_circuit_breakers].
    apply map_Forall_insert_2; [| exact Hinv].
    exact (map_Forall_lookup_1 _ _ _ _ Hinv Hcb). }
  split.
  { intros aggregator sources confidence deviation sender aggregator' Hinv H.
    unfold update_settings in H. peel H. inversion H; subst. exact Hinv. }
  intros aggregator paused sender aggregator' Hinv H.
  unfold set_pause in H. peel H. inversion H; subst. exact Hinv.
Qed.

End AggregatorAdminProperties.
